(** * ichnaea.tasks: aggregation and archival tasks

    A shallow embedding of [ichnaea/tasks.py].  Database tables are lists
    of rows, an ORM session is a record holding the working copy of the
    tables next to the committed copy, Python exceptions are a result
    type, and the geodesic helpers of [ichnaea.geocalc] (not part of the
    file) are section variables over IEEE doubles. *)

From Stdlib Require Import ZArith Lia Ascii.
From Stdlib Require Uint63.
From Stdlib Require Import Floats.PrimFloat Floats.SpecFloat Floats.FloatOps.
From stdpp Require Import base option list gmap strings sorting pretty.

Local Open Scope Z_scope.

(** ** Python values and exceptions *)

Module Py.

Inductive exn :=
| ZeroDivisionError
| ValueError
| TypeError
| AssertionError
| UnboundLocalError.

Inductive result (A : Type) :=
| Ok (a : A)
| Raise (e : exn).
Arguments Ok {A} a.
Arguments Raise {A} e.

#[global] Instance result_ret : MRet result := fun A a => Ok a.
#[global] Instance result_bind : MBind result := fun A B f m =>
  match m with
  | Ok a => f a
  | Raise e => Raise e
  end.

#[global] Instance result_fmap : FMap result := fun A B f m =>
  match m with
  | Ok a => Ok (f a)
  | Raise e => Raise e
  end.

(** [a // b] on Python integers. *)
Definition floordiv (a b : Z) : result Z :=
  if decide (b = 0) then Raise ZeroDivisionError else Ok (a / b).

(** [sum(vals)]. *)
Definition sum (vals : list Z) : Z := foldr Z.add 0 vals.

(** [len(vals)] as a Python integer. *)
Definition len {A} (vals : list A) : Z := Z.of_nat (length vals).

(** [min(vals)] and [max(vals)] raise on an empty sequence. *)
Definition min_list (vals : list Z) : result Z :=
  match vals with
  | [] => Raise ValueError
  | v :: vs => Ok (foldl Z.min v vs)
  end.

Definition max_list (vals : list Z) : result Z :=
  match vals with
  | [] => Raise ValueError
  | v :: vs => Ok (foldl Z.max v vs)
  end.

(** Truth value of a nullable integer attribute: [None] and [0] are
    false. *)
Definition truthy (v : option Z) : bool :=
  match v with
  | Some z => bool_decide (z ≠ 0)
  | None => false
  end.

(** A number as stored on an attribute: the database hands out
    integers, the geodesic helpers hand out floats. *)
Inductive num :=
| Int (z : Z)
| Float (f : float).

(** [float(z)] for a non-negative machine-size integer, negated
    otherwise; exact below 2^53, which covers the distance caps. *)
Definition float_of_int (z : Z) : float :=
  if decide (z < 0)
  then PrimFloat.opp (PrimFloat.of_uint63 (Uint63.of_Z (- z)))
  else PrimFloat.of_uint63 (Uint63.of_Z z).

(** [f > z] for a float [f] and an integer [z]. *)
Definition float_gt_int (f : float) (z : Z) : bool :=
  PrimFloat.ltb (float_of_int z) f.

End Py.
Import Py.

(** ** Rows *)

(** [CellKey]: the named tuple (radio, mcc, mnc, lac, cid). *)
Module CellKey.
Record t := mk {
  radio : Z;
  mcc : Z;
  mnc : Z;
  lac : Z;
  cid : Z;
}.

#[global] Instance eq_dec : EqDecision t.
Proof. solve_decision. Defined.
End CellKey.

(** A station row, [Cell] or [Wifi]; [K] is the type of its key.  The
    position columns are nullable. *)
Module Station.
Record t (K : Type) := mk {
  id : Z;
  key : K;
  lat : option Z;
  lon : option Z;
  min_lat : option Z;
  min_lon : option Z;
  max_lat : option Z;
  max_lon : option Z;
  range : option num;
  new_measures : Z;
  total_measures : Z;
}.
Arguments mk {K}.
Arguments id {K}.
Arguments key {K}.
Arguments lat {K}.
Arguments lon {K}.
Arguments min_lat {K}.
Arguments min_lon {K}.
Arguments max_lat {K}.
Arguments max_lon {K}.
Arguments range {K}.
Arguments new_measures {K}.
Arguments total_measures {K}.
End Station.

Abbreviation Cell := (Station.t CellKey.t).
Abbreviation Wifi := (Station.t string).

(** A measurement row, [CellMeasure] or [WifiMeasure].  [time] and
    [created] are timestamps in seconds. *)
Module Measure.
Record t (K : Type) := mk {
  id : Z;
  key : K;
  lat : Z;
  lon : Z;
  time : Z;
  created : Z;
}.
Arguments mk {K}.
Arguments id {K}.
Arguments key {K}.
Arguments lat {K}.
Arguments lon {K}.
Arguments time {K}.
Arguments created {K}.
End Measure.

Abbreviation CellMeasure := (Measure.t CellKey.t).
Abbreviation WifiMeasure := (Measure.t string).

Module MeasureBlock.
Record t := mk {
  id : Z;
  measure_type : Z;
  start_id : Z;
  end_id : Z;
  s3_key : option string;
  archive_sha : option string;
  archive_date : option Z;
}.
End MeasureBlock.

(** The tables the tasks read and write. *)
Record DB := mkDB {
  t_cell : list Cell;
  t_wifi : list Wifi;
  t_cell_blacklist : list CellKey.t;
  t_wifi_blacklist : list (string * Z);
  t_cell_measure : list CellMeasure;
  t_wifi_measure : list WifiMeasure;
  t_measure_block : list MeasureBlock.t;
  t_stat : gmap string Z;
  alembic_version : string;
}.

Definition with_cell (f : list Cell → list Cell) (d : DB) : DB :=
  mkDB (f (t_cell d)) (t_wifi d)
    (t_cell_blacklist d) (t_wifi_blacklist d)
    (t_cell_measure d) (t_wifi_measure d)
    (t_measure_block d) (t_stat d)
    (alembic_version d).

Definition with_wifi (f : list Wifi → list Wifi) (d : DB) : DB :=
  mkDB (t_cell d) (f (t_wifi d))
    (t_cell_blacklist d) (t_wifi_blacklist d)
    (t_cell_measure d) (t_wifi_measure d)
    (t_measure_block d) (t_stat d)
    (alembic_version d).

Definition with_cell_blacklist
    (f : list CellKey.t → list CellKey.t) (d : DB) : DB :=
  mkDB (t_cell d) (t_wifi d)
    (f (t_cell_blacklist d)) (t_wifi_blacklist d)
    (t_cell_measure d) (t_wifi_measure d)
    (t_measure_block d) (t_stat d)
    (alembic_version d).

Definition with_wifi_blacklist
    (f : list (string * Z) → list (string * Z)) (d : DB) : DB :=
  mkDB (t_cell d) (t_wifi d)
    (t_cell_blacklist d) (f (t_wifi_blacklist d))
    (t_cell_measure d) (t_wifi_measure d)
    (t_measure_block d) (t_stat d)
    (alembic_version d).

Definition with_cell_measure
    (f : list CellMeasure → list CellMeasure) (d : DB) : DB :=
  mkDB (t_cell d) (t_wifi d)
    (t_cell_blacklist d) (t_wifi_blacklist d)
    (f (t_cell_measure d)) (t_wifi_measure d)
    (t_measure_block d) (t_stat d)
    (alembic_version d).

Definition with_wifi_measure
    (f : list WifiMeasure → list WifiMeasure) (d : DB) : DB :=
  mkDB (t_cell d) (t_wifi d)
    (t_cell_blacklist d) (t_wifi_blacklist d)
    (t_cell_measure d) (f (t_wifi_measure d))
    (t_measure_block d) (t_stat d)
    (alembic_version d).

Definition with_measure_block
    (f : list MeasureBlock.t → list MeasureBlock.t) (d : DB) : DB :=
  mkDB (t_cell d) (t_wifi d)
    (t_cell_blacklist d) (t_wifi_blacklist d)
    (t_cell_measure d) (t_wifi_measure d)
    (f (t_measure_block d)) (t_stat d)
    (alembic_version d).

Definition with_stat (f : gmap string Z → gmap string Z) (d : DB) : DB :=
  mkDB (t_cell d) (t_wifi d)
    (t_cell_blacklist d) (t_wifi_blacklist d)
    (t_cell_measure d) (t_wifi_measure d)
    (t_measure_block d) (f (t_stat d))
    (alembic_version d).

(** Tasks handed to the worker with [.delay(...)]. *)
Inductive task :=
| remove_wifi (wifi_keys : list string)
| remove_cell (cell_keys : list CellKey.t)
| update_lac_task (radio mcc mnc lac : Z).

(** What a task sees: the session's view of the tables, the committed
    tables, and the queue of delayed tasks. *)
Record World := mkWorld {
  session : DB;
  database : DB;
  queue : list task;
}.

Definition on_session (f : DB → DB) (w : World) : World :=
  mkWorld (f (session w)) (database w) (queue w).

(** [session.commit()]. *)
Definition commit (w : World) : World :=
  mkWorld (session w) (session w) (queue w).

(** [task.delay(...)]. *)
Definition delay (t : task) (w : World) : World :=
  mkWorld (session w) (database w) (queue w ++ [t]).

(** A mutated ORM object is the row with its primary key. *)
Definition flush {K} (row : Station.t K) (table : list (Station.t K))
  : list (Station.t K) :=
  (λ r, if decide (Station.id r = Station.id row) then row else r) <$> table.

(** The value a location update returns: [0] when no station was
    selected, else the pair [(len(stations), len(moving))]. *)
Inductive updated :=
| Zero
| Counts (stations moving : Z).


Definition WIFI_MAX_DIST_KM : Z := 5.
Definition CELL_MAX_DIST_KM : Z := 150.

(** The builtin passed to [extreme]: [min] or [max], used both on a
    list and on two arguments. *)
Inductive builtin := Min | Max.

Definition builtin_list (function : builtin) : list Z → result Z :=
  match function with Min => min_list | Max => max_list end.

Definition builtin_pair (function : builtin) : Z → Z → Z :=
  match function with Min => Z.min | Max => Z.max end.

(** The local helper [extreme] of [calculate_new_position]; [old] is
    [getattr(station, attr, None)]. *)
Definition extreme (vals : list Z) (old : option Z) (function : builtin)
  : result Z :=
  new ← builtin_list function vals;
  match old with
  | Some old => mret (builtin_pair function new old)
  | None => mret new
  end.

(** ** Formatting *)

(** The civil date (year, month, day) of a day number counted from
    1970-01-01, as [datetime] computes it. *)
Definition civil_from_days (z : Z) : Z * Z * Z :=
  let z := z + 719468 in
  let era := z / 146097 in
  let doe := z - era * 146097 in
  let yoe := (doe - doe / 1460 + doe / 36524 - doe / 146096) / 365 in
  let doy := doe - (365 * yoe + yoe / 4 - yoe / 100) in
  let mp := (5 * doy + 2) / 153 in
  let d := doy - (153 * mp + 2) / 5 + 1 in
  let m := if decide (mp < 10) then mp + 3 else mp - 9 in
  let y := yoe + era * 400 in
  (if decide (m ≤ 2) then y + 1 else y, m, d).

(** [str(n).zfill(width)] for a non-negative [n]. *)
Definition zfill (width : nat) (n : Z) : string :=
  let digits := pretty n in
  String.concat "" (replicate (width - String.length digits) "0")
    +:+ digits.

(** [utcnow.strftime("%Y%m")] for a timestamp in seconds. *)
Definition strftime_Ym (utcnow : Z) : string :=
  let '(y, m, _) := civil_from_days (utcnow / 86400) in
  zfill 4 y +:+ zfill 2 m.

(** ['%s/%s_%d_%d.zip' % (month, zip_prefix, start_id, end_id)]. *)
Definition s3_key_format (month zip_prefix : string) (start_id end_id : Z)
  : string :=
  month +:+ "/" +:+ zip_prefix +:+ "_" +:+ pretty start_id +:+ "_"
    +:+ pretty end_id +:+ ".zip".

(** [os.path.split(s3_key)[-1]]: what follows the last slash; [tail]
    is what has been read since the last one. *)
Fixpoint basename_from (tail path : string) : string :=
  match path with
  | EmptyString => tail
  | String c rest =>
    if bool_decide (c = "/"%char) then basename_from "" rest
    else basename_from (tail +:+ String c "") rest
  end.

Definition basename (path : string) : string := basename_from "" path.

(** ** A planar stand-in for the helpers the tasks call

    The tasks are run on examples with these: degrees scaled by 10^7,
    distances measured on a plane at 111 km per degree, a store that
    accepts and confirms every archive. *)

Module Plane.

Definition CELLID_LAC : Z := -2.

Definition MEASURE_TYPE (kind : string) : Z :=
  if decide (kind = "wifi") then 1 else 2.

Definition to_degrees (z : Z) : float :=
  PrimFloat.div (float_of_int z) 10000000%float.

(** [int(f)] for a finite float. *)
Definition int (f : float) : Z :=
  match Prim2SF f with
  | S754_finite s m e =>
    let v := if decide (0 ≤ e) then Z.pos m * 2 ^ e
             else Z.pos m / 2 ^ (- e) in
    if s then - v else v
  | _ => 0
  end.

Definition from_degrees (f : float) : Z :=
  int (PrimFloat.mul f 10000000%float).

Definition int_round (f : float) : Z :=
  if PrimFloat.ltb f 0%float then int (PrimFloat.sub f 0.5%float)
  else int (PrimFloat.add f 0.5%float).

Definition distance (lat1 lon1 lat2 lon2 : float) : float :=
  let dlat := PrimFloat.sub lat2 lat1 in
  let dlon := PrimFloat.sub lon2 lon1 in
  PrimFloat.mul 111%float
    (PrimFloat.sqrt (PrimFloat.add (PrimFloat.mul dlat dlat)
                                   (PrimFloat.mul dlon dlon))).

Definition centroid (points : list (float * float)) : float * float :=
  let n := float_of_int (len points) in
  (PrimFloat.div (foldr PrimFloat.add 0%float (points.*1)) n,
   PrimFloat.div (foldr PrimFloat.add 0%float (points.*2)) n).

Definition range_to_points (ctr : float * float)
    (points : list (float * float)) : float :=
  foldr (λ p far,
           let d := distance ctr.1 ctr.2 p.1 p.2 in
           if PrimFloat.ltb far d then d else far)
        0%float points.

Definition backup_archive (key zip : string) : bool := true.
Definition check_archive (sha key : option string) : bool := true.
Definition compute_hash (zip : string) : string := "sha1:" +:+ zip.
Definition zip_deflate (files : list (string * string)) : string :=
  String.concat ";" ((λ f, f.1 +:+ "=" +:+ f.2) <$> files).
Definition csv_excel (K : Type) (rows : list (Measure.t K)) : string :=
  String.concat "," (pretty <$> (Measure.id <$> rows)).

End Plane.

(** Modelled from the spec: [join_cellkey] of [ichnaea.models], the
    criterion that a row carries the cell key (radio, mcc, mnc, lac,
    cid). *)
Definition join_cellkey {A} (get : A → CellKey.t) (k : CellKey.t) (row : A)
  : Prop := get row = k.

#[global] Instance join_cellkey_dec {A} (get : A → CellKey.t) k row
  : Decision (join_cellkey get k row).
Proof. unfold join_cellkey. apply _. Defined.

(** ** Model classes *)

(** The two model classes a generic task is handed, as the accessors
    of their tables. *)
Record unique_model (K : Type) := mkUnique {
  uniques_of : DB → list (Station.t K);
  with_uniques : (list (Station.t K) → list (Station.t K)) → DB → DB;
}.
Arguments uniques_of {K}.
Arguments with_uniques {K}.

Record measure_model (K : Type) := mkMeasures {
  measures_of : DB → list (Measure.t K);
  with_measures : (list (Measure.t K) → list (Measure.t K)) → DB → DB;
}.
Arguments measures_of {K}.
Arguments with_measures {K}.

Definition Cell_model : unique_model CellKey.t := mkUnique _ t_cell with_cell.
Definition Wifi_model : unique_model string := mkUnique _ t_wifi with_wifi.
Definition CellMeasure_model : measure_model CellKey.t :=
  mkMeasures _ t_cell_measure with_cell_measure.
Definition WifiMeasure_model : measure_model string :=
  mkMeasures _ t_wifi_measure with_wifi_measure.

(** The accessors of a pair of model classes name two different
    tables, neither of which is the table of the statistics. *)
Record separate_tables {K} (unique : unique_model K)
    (measure : measure_model K) : Prop := {
  measures_with_measures f d :
    measures_of measure (with_measures measure f d)
    = f (measures_of measure d);
  measures_with_uniques f d :
    measures_of measure (with_uniques unique f d) = measures_of measure d;
  measures_with_stat f d :
    measures_of measure (with_stat f d) = measures_of measure d;
  uniques_with_uniques f d :
    uniques_of unique (with_uniques unique f d) = f (uniques_of unique d);
  uniques_with_measures f d :
    uniques_of unique (with_measures measure f d) = uniques_of unique d;
  uniques_with_stat f d :
    uniques_of unique (with_stat f d) = uniques_of unique d;
}.

(** The accessors of a measure class name a table other than that of
    the blocks. *)
Record measure_table {K} (measure : measure_model K) : Prop := {
  rows_with_measures f d :
    measures_of measure (with_measures measure f d)
    = f (measures_of measure d);
  rows_with_measure_block f d :
    measures_of measure (with_measure_block f d) = measures_of measure d;
  measure_block_with_measures f d :
    t_measure_block (with_measures measure f d) = t_measure_block d;
  alembic_version_with_measures f d :
    alembic_version (with_measures measure f d) = alembic_version d;
}.

(** The accessors of the two model classes name tables other than that
    of the counters. *)
Record stat_table {K} (unique : unique_model K) (measure : measure_model K)
  : Prop := {
  stat_with_uniques f d : t_stat (with_uniques unique f d) = t_stat d;
  stat_with_measures f d : t_stat (with_measures measure f d) = t_stat d;
}.

(** ** Example data *)

Module Example.

Definition tower_a : CellKey.t := CellKey.mk 0 262 2 5 7.
Definition tower_b : CellKey.t := CellKey.mk 0 262 2 5 8.

(** A cell at 50 N, 10 E with a tight box, 90 measures, 10 of them new. *)
Definition cell_a : Cell :=
  Station.mk 1 tower_a (Some 500000000) (Some 100000000)
    (Some 499990000) (Some 99990000) (Some 500010000) (Some 100010000)
    None 10 90.

Definition cell_b : Cell :=
  Station.mk 2 tower_b (Some 500000000) (Some 102000000)
    (Some 499990000) (Some 101990000) (Some 500010000) (Some 102010000)
    None 10 90.


(** Ten measures a hundred meters north of [cell_a], and ten measures
    at 60 N, 20 E. *)
Definition near : list (Z * Z) := replicate 10 (500010000, 100000000).
Definition far : list (Z * Z) := replicate 10 (600000000, 200000000).

Definition cell_measure (id : Z) (key : CellKey.t) (lat lon : Z)
  : CellMeasure :=
  Measure.mk id key lat lon 1393000000 1393000000.

Definition tables (cells : list Cell) (measures : list CellMeasure)
    (blocks : list MeasureBlock.t) : DB :=
  mkDB cells [] [] [] measures [] blocks ∅ "1a2b3c4d".

Definition world (d : DB) : World := mkWorld d d [].

(** Two cells of one area, no virtual row; one measure far from
    [cell_a] and one near [cell_b]. *)
Definition stations : World :=
  world (tables [cell_a; cell_b]
           [cell_measure 1 tower_a 600000000 200000000;
            cell_measure 2 tower_b 500010000 102000000] []).

(** Measures with the ids 1 to [n], no block. *)
Definition measured (n : Z) : World :=
  world (tables []
           ((λ id, cell_measure id tower_a 500000000 100000000) <$> seqZ 1 n)
           []).

(** A block of cell measures that has been uploaded in February 2014
    and not been reaped, with twelve measures in the table. *)
Definition block : MeasureBlock.t :=
  MeasureBlock.mk 1 2 1 10 (Some "201402/CellMeasure_1_10.zip")
    (Some "sha1:old") None.

Definition uploaded : World :=
  world (tables []
           ((λ id, cell_measure id tower_a 500000000 100000000) <$> seqZ 1 12)
           [block]).

(** A Wi-Fi network with five measures made in January 2014, four of
    them counted as new. *)
Definition network : Wifi :=
  Station.mk 1 "01005e901000" (Some 500000000) (Some 100000000)
    (Some 499990000) (Some 99990000) (Some 500010000) (Some 100010000)
    None 4 5.

Definition networks : World :=
  world (mkDB [] [network] [] []
           [] ((λ id, Measure.mk id "01005e901000" 500000000 100000000
                        (1389000000 + id) 1389000000) <$> seqZ 1 5)
           [] ∅ "1a2b3c4d").


(** A block of cell measures that the planner has just made. *)
Definition planned_block : MeasureBlock.t :=
  MeasureBlock.mk 1 2 1 10 None None None.

Definition planned : World :=
  world (tables []
           ((λ id, cell_measure id tower_a 500000000 100000000) <$> seqZ 1 12)
           [planned_block]).

(** The first of March 2014, 00:00 UTC. *)
Definition utcnow : Z := 1393632000.

(** The virtual row of the area of [tower_a] and [tower_b], flagged
    for an update. *)
Definition area_row : Cell :=
  Station.mk 5 (CellKey.mk 0 262 2 5 Plane.CELLID_LAC)
    (Some 500000000) (Some 101000000) None None None None None 1 0.

(** The two cells of the area with its virtual row. *)
Definition district : World :=
  world (tables [cell_a; cell_b; area_row] [] []).

(** Two blocks of cell measures that the planner has just made, with
    25 measures in the table. *)
Definition second_block : MeasureBlock.t :=
  MeasureBlock.mk 2 2 11 20 None None None.

Definition planned_pair : World :=
  world (tables []
           ((λ id, cell_measure id tower_a 500000000 100000000) <$> seqZ 1 25)
           [planned_block; second_block]).


Definition store_late (key zip : string) : bool :=
  bool_decide (key = "201403/CellMeasure_11_20.zip").

End Example.

(** ** Station removers *)

Module Remover.
Section Remover.

Variable CELLID_LAC : Z.

(** [remove_wifi(wifi_keys)]: the rows deleted are counted, the delete
    is committed. *)
Definition remove_wifi (wifi_keys : list string) (w : World) : World * Z :=
  let wifi_keys : gset string := list_to_set wifi_keys in
  let wifis :=
    len (filter (λ r, Station.key r ∈ wifi_keys) (t_wifi (session w))) in
  (commit (on_session
             (with_wifi (filter (λ r, Station.key r ∉ wifi_keys))) w),
   wifis).

(** The area of a key: the columns that the two queries on the
    enclosing LAC compare. *)
Definition area (k : CellKey.t) : Z * Z * Z * Z :=
  (CellKey.radio k, CellKey.mcc k, CellKey.mnc k, CellKey.lac k).

(** [query.update({'new_measures': '1'})] on one row; the column is an
    integer, which the string is stored as. *)
Definition dirty (c : Cell) : Cell :=
  Station.mk (Station.id c) (Station.key c)
    (Station.lat c) (Station.lon c)
    (Station.min_lat c) (Station.min_lon c)
    (Station.max_lat c) (Station.max_lon c) (Station.range c)
    1 (Station.total_measures c).

(** The filters on the area of a key that the two queries on the
    enclosing LAC share. *)
Definition same_area (key : CellKey.t) (c : Cell) : Prop :=
  CellKey.radio (Station.key c) = CellKey.radio key
  ∧ CellKey.mcc (Station.key c) = CellKey.mcc key
  ∧ CellKey.mnc (Station.key c) = CellKey.mnc key
  ∧ CellKey.lac (Station.key c) = CellKey.lac key.

#[global] Instance same_area_dec key c : Decision (same_area key c).
Proof. unfold same_area. apply _. Defined.

(** The body of the loop of [remove_cell]: the cells with the key are
    deleted and counted; then the virtual row of the area is deleted
    when no other cell is left in the area, and else gets
    [new_measures = 1]. *)
Definition remove_cell_key (st : DB * Z) (key : CellKey.t) : DB * Z :=
  let '(d, cells_removed) := st in
  let cells_removed :=
    cells_removed + len (filter (join_cellkey Station.key key) (t_cell d)) in
  let d := with_cell (filter (λ c, ¬ join_cellkey Station.key key c)) d in
  let n :=
    len (filter (λ c, same_area key c
                      ∧ CellKey.cid (Station.key c) ≠ CELLID_LAC)
                (t_cell d)) in
  let d :=
    if decide (n < 1) then
      with_cell (filter (λ c, ¬ (same_area key c
                                 ∧ CellKey.cid (Station.key c) = CELLID_LAC)))
        d
    else
      with_cell (fmap (λ c,
        if decide (same_area key c
                   ∧ CellKey.cid (Station.key c) = CELLID_LAC) then dirty c
        else c)) d in
  (d, cells_removed).

(** [remove_cell(cell_keys)]; the keys are cell keys already, on which
    [to_cellkey] changes nothing. *)
Definition remove_cell (cell_keys : list CellKey.t) (w : World) : World * Z :=
  let '(d, cells_removed) := foldl remove_cell_key (session w, 0) cell_keys in
  (commit (mkWorld d (database w) (queue w)), cells_removed).

End Remover.
End Remover.

Section Tasks.

(** The helpers of [ichnaea.geocalc] and the unit conversions of
    [ichnaea.models], which the tasks only call. *)
Variable to_degrees : Z → float.
Variable from_degrees : float → Z.
Variable distance : float → float → float → float → float.
Variable centroid : list (float * float) → float * float.
Variable range_to_points : float * float → list (float * float) → float.

(** The bounding box after the batch, and for a station with an
    estimate its own position, are folded into the stored extremes:
    the four [extreme] calls. *)
Definition extremes {K} (station : Station.t K)
    (latitudes longitudes : list Z)
  : result (Z * Z * Z * Z) :=
  min_lat ← extreme latitudes (Station.min_lat station) Min;
  min_lon ← extreme longitudes (Station.min_lon station) Min;
  max_lat ← extreme latitudes (Station.max_lat station) Max;
  max_lon ← extreme longitudes (Station.max_lon station) Max;
  mret (min_lat, min_lon, max_lat, max_lon).

Definition box_dist (box : Z * Z * Z * Z) : float :=
  let '(min_lat, min_lon, max_lat, max_lon) := box in
  distance (to_degrees min_lat) (to_degrees min_lon)
           (to_degrees max_lat) (to_degrees max_lon).

(** The tail of [calculate_new_position], from the decrement of the
    new counter on: it stores the box and the range. *)
Definition store_box {K} (station : Station.t K) (length : Z)
    (box : Z * Z * Z * Z) (backfill : bool)
    (lat lon : Z) (total_measures : Z) : Station.t K :=
  let '(min_lat, min_lon, max_lat, max_lon) := box in
  let new_measures :=
    if backfill then Station.new_measures station
    else Station.new_measures station - length in
  let ctr := (to_degrees lat, to_degrees lon) in
  let points := [(to_degrees min_lat, to_degrees min_lon);
                 (to_degrees min_lat, to_degrees max_lon);
                 (to_degrees max_lat, to_degrees min_lon);
                 (to_degrees max_lat, to_degrees max_lon)] in
  Station.mk (Station.id station) (Station.key station)
    (Some lat) (Some lon)
    (Some min_lat) (Some min_lon) (Some max_lat) (Some max_lon)
    (Some (Float (PrimFloat.mul (range_to_points ctr points) 1000%float)))
    new_measures total_measures.

(** [calculate_new_position(station, measures, moving_stations,
    max_dist_km, backfill)].  The station object and the set are
    mutated in place by the source; here the new station and the new
    set are returned.  The set holds objects of one session, which
    are identified by their primary key. *)
Definition calculate_new_position {K} (station : Station.t K)
    (measures : list (Z * Z)) (moving_stations : gset Z)
    (max_dist_km : Z) (backfill : bool)
  : result (Station.t K * gset Z) :=
  let length := len measures in
  let latitudes := measures.*1 in
  let longitudes := measures.*2 in
  new_lat ← floordiv (sum latitudes) length;
  new_lon ← floordiv (sum longitudes) length;
  match Station.lat station, Station.lon station with
  | Some lat, Some lon =>
    if truthy (Some lat) && truthy (Some lon) then
      (* existing_station = True *)
      box ← extremes station (latitudes ++ [lat]) (longitudes ++ [lon]);
      if float_gt_int (box_dist box) max_dist_km then
        mret (station, {[ Station.id station ]} ∪ moving_stations)
      else
        let new_total :=
          if backfill then Station.total_measures station + length
          else Station.total_measures station in
        let old_length :=
          if backfill then Station.total_measures station
          else new_total - length in
        lat' ← floordiv (lat * old_length + new_lat * length) new_total;
        lon' ← floordiv (lon * old_length + new_lon * length) new_total;
        mret (store_box station length box backfill lat' lon' new_total,
              moving_stations)
    else
      box ← extremes station latitudes longitudes;
      mret (store_box station length box backfill new_lat new_lon
              (Station.total_measures station), moving_stations)
  | _, _ =>
    box ← extremes station latitudes longitudes;
    mret (store_box station length box backfill new_lat new_lon
            (Station.total_measures station), moving_stations)
  end.

(** ** Station updater *)

Variable CELLID_LAC : Z.

(** The key of the virtual station of a cell's area. *)
Definition enclosing_lac (k : CellKey.t) : CellKey.t :=
  CellKey.mk (CellKey.radio k) (CellKey.mcc k) (CellKey.mnc k)
    (CellKey.lac k) CELLID_LAC.

(** The next value of an auto-increment primary key. *)
Definition next_id {K} (table : list (Station.t K)) : Z :=
  1 + foldr Z.max 0 (Station.id <$> table).

(** [update_enclosing_lac(session, cell)]: an insert with
    [on_duplicate='new_measures = new_measures + 1']. *)
Definition update_enclosing_lac (cell : Cell) (d : DB) : DB :=
  let k := enclosing_lac (Station.key cell) in
  if decide (Exists (join_cellkey Station.key k) (t_cell d)) then
    with_cell (fmap (λ r,
      if decide (join_cellkey Station.key k r) then
        Station.mk (Station.id r) (Station.key r)
          (Station.lat r) (Station.lon r)
          (Station.min_lat r) (Station.min_lon r)
          (Station.max_lat r) (Station.max_lon r) (Station.range r)
          (Station.new_measures r + 1) (Station.total_measures r)
      else r)) d
  else
    with_cell (λ table, table ++
      [Station.mk (next_id table) k
         (Station.lat cell) (Station.lon cell) None None None None
         (Station.range cell) 1 0]) d.

(** [mark_moving_cells(session, moving_cells)]; the cells of the set
    are walked in the order of the table. *)
Definition mark_moving_cells (moving_cells : gset Z) (w : World) : World :=
  let cells :=
    filter (λ c, Station.id c ∈ moving_cells) (t_cell (session w)) in
  let moving_keys :=
    filter (λ k, ¬ Exists (λ b, b = k) (t_cell_blacklist (session w)))
           (Station.key <$> cells) in
  delay (remove_cell moving_keys)
    (on_session (with_cell_blacklist (λ table, table ++ moving_keys)) w).


Fixpoint for_each {A S} (body : A → S → result S) (items : list A)
    (st : S) : result S :=
  match items with
  | [] => mret st
  | x :: items => st ← body x st; for_each body items st
  end.




(** [order_by(created.desc())]. *)
Definition newest_first {K} (a b : Measure.t K) : Prop :=
  Measure.created b ≤ Measure.created a.

#[local] Instance newest_first_dec {K} (a b : Measure.t K)
  : Decision (newest_first a b).
Proof. unfold newest_first. apply _. Defined.

(** The last [new_measures] measures of a station, as (lat, lon). *)
Definition last_measures {K} `{EqDecision K} (station : Station.t K)
    (table : list (Measure.t K)) : list (Z * Z) :=
  (λ m, (Measure.lat m, Measure.lon m)) <$>
  take (Z.to_nat (Station.new_measures station))
    (merge_sort newest_first
       (filter (λ m, Measure.key m = Station.key station) table)).

(** The body of the loop of [cell_location_update]. *)
Definition update_cell (cell : Cell) (st : DB * gset Z)
  : result (DB * gset Z) :=
  let '(d, moving_cells) := st in
  let k := Station.key cell in
  if decide (CellKey.lac k = -1 ∨ CellKey.cid k = -1
             ∨ CellKey.cid k = CELLID_LAC) then mret st
  else
    let lat_lons := last_measures cell (t_cell_measure d) in
    if decide (lat_lons = []) then mret st
    else
      '(cell', moving_cells) ←
        calculate_new_position cell lat_lons moving_cells
          CELL_MAX_DIST_KM false;
      mret (update_enclosing_lac cell' (with_cell (flush cell') d),
            moving_cells).

(** [cell_location_update(min_new, max_new, batch)]. *)
Definition cell_location_update (min_new max_new : Z) (batch : nat)
    (w : World) : result (World * updated) :=
  let cells :=
    take batch
      (filter (λ c, min_new ≤ Station.new_measures c
                    ∧ Station.new_measures c < max_new
                    ∧ CellKey.cid (Station.key c) ≠ CELLID_LAC)
              (t_cell (session w))) in
  if decide (cells = []) then mret (w, Zero)
  else
    '(d, moving_cells) ← for_each update_cell cells (session w, ∅);
    let w := mkWorld d (database w) (queue w) in
    let w :=
      if decide (moving_cells = ∅) then w
      else mark_moving_cells moving_cells w in
    mret (commit w, Counts (len cells) (Z.of_nat (size moving_cells))).

(** [mark_moving_wifis(session, moving_wifis)] at time [utcnow]. *)
Definition mark_moving_wifis (utcnow : Z) (moving_wifis : gset Z)
    (w : World) : World :=
  let moving_keys : gset string :=
    list_to_set (Station.key <$>
      filter (λ r, Station.id r ∈ moving_wifis) (t_wifi (session w))) in
  let already_blocked : gset string :=
    list_to_set (filter (λ k, k ∈ moving_keys)
                   ((t_wifi_blacklist (session w)).*1)) in
  let moving_keys := moving_keys ∖ already_blocked in
  if decide (moving_keys = ∅) then w
  else
    delay (remove_wifi (elements moving_keys))
      (on_session (with_wifi_blacklist (λ table,
         table ++ ((λ key, (key, utcnow)) <$> elements moving_keys))) w).

(** The body of the loop of [wifi_location_update]. *)
Definition update_wifi (wifi : Wifi) (st : DB * gset Z)
  : result (DB * gset Z) :=
  let '(d, moving_wifis) := st in
  let measures := last_measures wifi (t_wifi_measure d) in
  if decide (measures = []) then mret st
  else
    '(wifi', moving_wifis) ←
      calculate_new_position wifi measures moving_wifis
        WIFI_MAX_DIST_KM false;
    mret (with_wifi (flush wifi') d, moving_wifis).

(** [wifi_location_update(min_new, max_new, batch)]. *)
Definition wifi_location_update (utcnow : Z) (min_new max_new : Z)
    (batch : nat) (w : World) : result (World * updated) :=
  let wifis :=
    take batch
      (filter (λ r, min_new ≤ Station.new_measures r
                    ∧ Station.new_measures r < max_new)
              (t_wifi (session w))) in
  if decide (wifis = []) then mret (w, Zero)
  else
    '(d, moving_wifis) ← for_each update_wifi wifis (session w, ∅);
    let w := mkWorld d (database w) (queue w) in
    let w :=
      if decide (moving_wifis = ∅) then w
      else mark_moving_wifis utcnow moving_wifis w in
    mret (commit w, Counts (len wifis) (Z.of_nat (size moving_wifis))).

(** ** LAC deriver *)

(** [int(round(x))]. *)
Variable int_round : float → Z.

(** An attribute that arithmetic is done on must not be [None]. *)
Definition required (v : option Z) : result Z :=
  match v with
  | Some z => mret z
  | None => Raise TypeError
  end.

Fixpoint for_all {A B} (f : A → result B) (items : list A)
  : result (list B) :=
  match items with
  | [] => mret []
  | x :: items => y ← f x; ys ← for_all f items; mret (y :: ys)
  end.

(** [scan_lacs(batch)]. *)
Definition scan_lacs (batch : nat) (w : World) : World * Z :=
  let lacs :=
    take batch
      (filter (λ c, CellKey.cid (Station.key c) = CELLID_LAC
                    ∧ Station.new_measures c > 0)
              (t_cell (session w))) in
  let w :=
    foldl (λ w lac,
             let k := Station.key lac in
             delay (update_lac_task (CellKey.radio k) (CellKey.mcc k)
                      (CellKey.mnc k) (CellKey.lac k)) w)
          w lacs in
  (commit w, len lacs).

(** The filters on the area that both queries of [update_lac] share. *)
Definition in_lac (radio mcc mnc lac : Z) (c : Cell) : Prop :=
  CellKey.radio (Station.key c) = radio
  ∧ CellKey.mcc (Station.key c) = mcc
  ∧ CellKey.mnc (Station.key c) = mnc
  ∧ CellKey.lac (Station.key c) = lac.

#[local] Instance in_lac_dec radio mcc mnc lac c
  : Decision (in_lac radio mcc mnc lac c).
Proof. unfold in_lac. apply _. Defined.

(** [update_lac(radio, mcc, mnc, lac)].  When no virtual row is found,
    the source builds a [Cell] object and binds it to the local [lac],
    but never adds it to the session, so [session.commit()] writes
    nothing for it. *)
Definition update_lac (radio mcc mnc lac : Z) (w : World) : result World :=
  let cells :=
    filter (λ c, in_lac radio mcc mnc lac c
                 ∧ CellKey.cid (Station.key c) ≠ CELLID_LAC)
           (t_cell (session w)) in
  points ← for_all (λ c,
    lat ← required (Station.lat c);
    lon ← required (Station.lon c);
    mret (to_degrees lat, to_degrees lon)) cells;
  min_lat ← for_all required (Station.min_lat <$> cells) ≫= min_list;
  min_lon ← for_all required (Station.min_lon <$> cells) ≫= min_list;
  max_lat ← for_all required (Station.max_lat <$> cells) ≫= max_list;
  max_lon ← for_all required (Station.max_lon <$> cells) ≫= max_list;
  let min_lat := to_degrees min_lat in
  let min_lon := to_degrees min_lon in
  let max_lat := to_degrees max_lat in
  let max_lon := to_degrees max_lon in
  let bbox_points := [(min_lat, min_lon); (min_lat, max_lon);
                      (max_lat, min_lon); (max_lat, max_lon)] in
  let ctr := centroid points in
  let rng := range_to_points ctr bbox_points in
  let ctr_lat := from_degrees ctr.1 in
  let ctr_lon := from_degrees ctr.2 in
  let rng := int_round (PrimFloat.mul rng 1000%float) in
  match filter (λ c, in_lac radio mcc mnc lac c
                     ∧ CellKey.cid (Station.key c) = CELLID_LAC)
               (t_cell (session w)) with
  | [] => mret (commit w)
  | lac :: _ =>
    let lac :=
      Station.mk (Station.id lac) (Station.key lac)
        (Some ctr_lat) (Some ctr_lon)
        (Station.min_lat lac) (Station.min_lon lac)
        (Station.max_lat lac) (Station.max_lon lac)
        (Some (Int rng)) 0 (Station.total_measures lac) in
    mret (commit (on_session (with_cell (flush lac)) w))
  end.

(** ** Retention trimmer *)

(** Modelled from the spec: [incr_stat] of [ichnaea.content.tasks],
    which increments the named deletion counter. *)
Definition incr_stat (name : string) (n : Z) (d : DB) : DB :=
  with_stat (λ st, <[name := default 0 (st !! name) + n]> st) d.

(** [timedelta(days=d)] in seconds. *)
Definition timedelta_days (d : Z) : Z := d * 86400.

(** [order_by(time, id)]. *)
Definition by_time_id {K} (a b : Measure.t K) : Prop :=
  Measure.time a < Measure.time b
  ∨ (Measure.time a = Measure.time b ∧ Measure.id a ≤ Measure.id b).

#[local] Instance by_time_id_dec {K} (a b : Measure.t K)
  : Decision (by_time_id a b).
Proof. unfold by_time_id. apply _. Defined.

(** The rows of [u] inside the expiration window. *)
Definition old_window {K} (join_measure : Station.t K → Measure.t K → bool)
    (age_threshold : Z) (u : Station.t K) (table : list (Measure.t K))
  : list (Measure.t K) :=
  filter (λ m, join_measure u m = true ∧ Measure.created m < age_threshold)
         table.

(** The body of the second loop of [trim_excessive_data]: the cutoff
    row, the delete, the counters. *)
Definition trim_unique {K} (unique : unique_model K)
    (measure : measure_model K)
    (join_measure : Station.t K → Measure.t K → bool) (delstat : string)
    (max_measures age_threshold : Z) (item : Station.t K * Z) (st : DB * Z)
  : result (DB * Z) :=
  let '(u, count) := item in
  let d := st.1 in
  let start := count - max_measures in
  match merge_sort by_time_id
          (old_window join_measure age_threshold u (measures_of measure d))
        !! Z.to_nat start with
  | None => Raise TypeError
  | Some keep =>
    let smallest_date_to_keep := Measure.time keep in
    let smallest_id_to_keep := Measure.id keep in
    let doomed (m : Measure.t K) :=
      (join_measure u m = true ∧ Measure.created m < age_threshold)
      ∧ Measure.time m ≤ smallest_date_to_keep
      ∧ Measure.id m < smallest_id_to_keep in
    let n := len (filter doomed (measures_of measure d)) in
    let d := with_measures measure (filter (λ m, ¬ doomed m)) d in
    if decide (Station.total_measures u >= 0) then
      let total_measures := Station.total_measures u - n in
      let new_measures :=
        if decide (Station.new_measures u > total_measures)
        then total_measures else Station.new_measures u in
      let u :=
        Station.mk (Station.id u) (Station.key u)
          (Station.lat u) (Station.lon u)
          (Station.min_lat u) (Station.min_lon u)
          (Station.max_lat u) (Station.max_lon u) (Station.range u)
          new_measures total_measures in
      mret (incr_stat delstat n (with_uniques unique (flush u) d), n)
    else Raise AssertionError
  end.

(** The first loop of [trim_excessive_data]: at most [batch] stations
    whose total counter exceeds [max_measures], refined to those with
    more than [max_measures] rows in the expiration window, each with
    that number of rows. *)
Definition over_measured {K} (unique : unique_model K)
    (measure : measure_model K)
    (join_measure : Station.t K → Measure.t K → bool)
    (max_measures age_threshold : Z) (batch : nat) (d : DB)
  : list (Station.t K * Z) :=
  let uniques :=
    take batch
      (filter (λ u, Station.total_measures u > max_measures)
              (uniques_of unique d)) in
  filter (λ item : Station.t K * Z, item.2 > max_measures)
    ((λ u, (u, len (old_window join_measure age_threshold u
                      (measures_of measure d)))) <$> uniques).

(** [trim_excessive_data(session, unique_model, measure_model,
    join_measure, delstat, max_measures, min_age_days, batch)] at time
    [utcnow]. *)
Definition trim_excessive_data {K} (utcnow : Z) (unique : unique_model K)
    (measure : measure_model K)
    (join_measure : Station.t K → Measure.t K → bool) (delstat : string)
    (max_measures min_age_days : Z) (batch : nat) (w : World)
  : result (World * Z) :=
  let age_threshold := utcnow - timedelta_days min_age_days in
  let counts :=
    over_measured unique measure join_measure max_measures age_threshold
      batch (session w) in
  if decide (len counts = 0) then mret (w, 0)
  else
    '(d, n) ← for_each
      (trim_unique unique measure join_measure delstat max_measures
         age_threshold) counts (session w, 0);
    mret (commit (mkWorld d (database w) (queue w)), n).

(** [wifi_trim_excessive_data(max_measures, min_age_days, batch)]. *)
Definition wifi_trim_excessive_data (utcnow : Z) (max_measures : Z)
    (min_age_days : Z) (batch : nat) (w : World) : result World :=
  let join_measure (u : Wifi) (m : WifiMeasure) :=
    bool_decide (Measure.key m = Station.key u) in
  '(w, n) ← trim_excessive_data utcnow Wifi_model WifiMeasure_model
              join_measure "deleted_wifi" max_measures min_age_days batch w;
  mret w.

(** [cell_trim_excessive_data(max_measures, min_age_days, batch)]. *)
Definition cell_trim_excessive_data (utcnow : Z) (max_measures : Z)
    (min_age_days : Z) (batch : nat) (w : World) : result World :=
  let join_measure (u : Cell) (m : CellMeasure) :=
    bool_decide (join_cellkey Measure.key (Station.key u) m) in
  '(w, n) ← trim_excessive_data utcnow Cell_model CellMeasure_model
              join_measure "deleted_cell" max_measures min_age_days batch w;
  mret w.

(** ** Archival *)

(** [MEASURE_TYPE] of [ichnaea.models]. *)
Variable MEASURE_TYPE : string → Z.

(** [archive_batch_size] of the configuration. *)
Variable batch_size : Z.

(** The object store and the file formats, which the tasks only call:
    [S3Backend.backup_archive(key, path)] and
    [S3Backend.check_archive(sha, key)] answer for the content of the
    zip file at the path; [compute_hash] hashes that content;
    [zip_deflate] is the [ZipFile] of named files; [csv_excel] is the
    header and the rows that [csv.writer] produces. *)
Variable backup_archive : string → string → bool.
Variable check_archive : option string → option string → bool.
Variable compute_hash : string → string.
Variable zip_deflate : list (string * string) → string.
Variable csv_excel : ∀ K, list (Measure.t K) → string.

Definition next_block_id (table : list MeasureBlock.t) : Z :=
  1 + foldr Z.max 0 (MeasureBlock.id <$> table).

(** [query.first()] on one column. *)
Definition first_of (vals : list Z) : result Z :=
  match vals with
  | [] => Raise TypeError
  | v :: _ => mret v
  end.

(** The [while] loop of [schedule_measure_archival]; [None] when it is
    still running after [fuel] turns. *)
Fixpoint carve (fuel : nat) (measure_type max_id min_id this_max_id : Z)
    (st : World * list (Z * Z)) : option (World * list (Z * Z)) :=
  if decide (this_max_id - min_id + 1 >= batch_size) then
    match fuel with
    | O => None
    | S fuel =>
      let '(w, blocks) := st in
      let w :=
        on_session (with_measure_block (λ table, table ++
          [MeasureBlock.mk (next_block_id table) measure_type
             min_id this_max_id None None None])) w in
      let blocks := blocks ++ [(min_id, this_max_id)] in
      let min_id := this_max_id + 1 in
      let this_max_id := Z.min (batch_size + this_max_id) max_id in
      if decide (this_max_id > max_id) then Some (w, blocks)
      else carve fuel measure_type max_id min_id this_max_id (w, blocks)
    end
  else Some st.

(** The ranges of [count] consecutive blocks of [batch_size] ids each,
    the first of which starts at [min_id]. *)
Definition block_ranges (min_id : Z) (count : nat) : list (Z * Z) :=
  (λ k : nat, (min_id + Z.of_nat k * batch_size,
               min_id + (Z.of_nat k + 1) * batch_size - 1)) <$> seq 0 count.

(** [schedule_measure_archival(self, measure_type, measure_cls)]. *)
Definition schedule_measure_archival {K} (fuel : nat) (measure_type : Z)
    (measure_cls : measure_model K) (w : World)
  : option (result (World * list (Z * Z))) :=
  let ends :=
    merge_sort Z.ge
      (MeasureBlock.end_id <$>
       filter (λ b, MeasureBlock.measure_type b = measure_type)
              (t_measure_block (session w))) in
  let ids := Measure.id <$> measures_of measure_cls (session w) in
  let min_id :=
    match ends with
    | last_end :: _ => mret (last_end + 1)
    | [] => first_of (merge_sort Z.le ids)
    end in
  match min_id with
  | Raise e => Some (Raise e)
  | Ok min_id =>
    match first_of (merge_sort Z.ge ids) with
    | Raise e => Some (Raise e)
    | Ok max_id =>
      if decide (max_id - min_id + 1 < batch_size) then Some (Ok (w, []))
      else
        let this_max_id := min_id + batch_size - 1 in
        '(w, blocks) ←
          carve fuel measure_type max_id min_id this_max_id (w, []);
        Some (Ok (commit w, blocks))
    end
  end.

(** [schedule_cellmeasure_archival()]. *)
Definition schedule_cellmeasure_archival (fuel : nat) (w : World) :=
  schedule_measure_archival fuel (MEASURE_TYPE "cell") CellMeasure_model w.

(** [schedule_wifimeasure_archival()]. *)
Definition schedule_wifimeasure_archival (fuel : nat) (w : World) :=
  schedule_measure_archival fuel (MEASURE_TYPE "wifi") WifiMeasure_model w.

(** A mutated [MeasureBlock] object is the row with its primary key. *)
Definition flush_block (row : MeasureBlock.t) (table : list MeasureBlock.t)
  : list MeasureBlock.t :=
  (λ r, if decide (MeasureBlock.id r = MeasureBlock.id row) then row else r)
    <$> table.

(** [order_by(MeasureBlock.end_id)]. *)
Definition by_end_id (a b : MeasureBlock.t) : Prop :=
  MeasureBlock.end_id a ≤ MeasureBlock.end_id b.

#[local] Instance by_end_id_dec a b : Decision (by_end_id a b).
Proof. unfold by_end_id. apply _. Defined.

(** The blocks the writer selects. *)
Definition blocks_to_write (measure_type : Z) (d : DB) : list MeasureBlock.t :=
  merge_sort by_end_id
    (filter (λ b, MeasureBlock.measure_type b = measure_type
                  ∧ MeasureBlock.archive_date b = None)
            (t_measure_block d)).

(** The zip that leaving [selfdestruct_tempdir] produces for a block:
    the revision file and the CSV of the rows in the block's range. *)
Definition block_zip {K} (csv_name : string) (measure_cls : measure_model K)
    (cmb : MeasureBlock.t) (d : DB) : string :=
  let rev := alembic_version d in
  let rows :=
    filter (λ m, Measure.id m >= MeasureBlock.start_id cmb
                 ∧ Measure.id m <= MeasureBlock.end_id cmb)
           (measures_of measure_cls d) in
  zip_deflate [("alembic_revision.txt", rev +:+ String "010"%char "");
               (csv_name, csv_excel K rows)].

(** The body of the loop of [write_measure_s3_backups]; the retained
    zip files are named by the basename of their key. *)
Definition write_block {K} (utcnow : Z) (zip_prefix csv_name : string)
    (measure_cls : measure_model K) (cleanup_zip : bool)
    (cmb : MeasureBlock.t) (st : World * list string)
  : World * list string :=
  let '(w, zips) := st in
  let s3_key :=
    s3_key_format (strftime_Ym utcnow) zip_prefix
      (MeasureBlock.start_id cmb) (MeasureBlock.end_id cmb) in
  let zip := block_zip csv_name measure_cls cmb (session w) in
  let cmb :=
    MeasureBlock.mk (MeasureBlock.id cmb) (MeasureBlock.measure_type cmb)
      (MeasureBlock.start_id cmb) (MeasureBlock.end_id cmb)
      (Some s3_key) (Some (compute_hash zip))
      (MeasureBlock.archive_date cmb) in
  let w := on_session (with_measure_block (flush_block cmb)) w in
  let zips := if cleanup_zip then zips else zips ++ [basename s3_key] in
  if backup_archive s3_key zip then (commit w, zips) else (w, zips).

(** [write_measure_s3_backups(self, measure_type, zip_prefix, csv_name,
    measure_cls, cleanup_zip)] at time [utcnow]. *)
Definition write_measure_s3_backups {K} (utcnow : Z) (measure_type : Z)
    (zip_prefix csv_name : string) (measure_cls : measure_model K)
    (cleanup_zip : bool) (w : World) : World * list string :=
  foldl (λ st cmb,
           write_block utcnow zip_prefix csv_name measure_cls cleanup_zip
             cmb st)
        (w, []) (blocks_to_write measure_type (session w)).


(** [write_wifimeasure_s3_backups(cleanup_zip)]. *)
Definition write_wifimeasure_s3_backups (utcnow : Z) (cleanup_zip : bool)
    (w : World) : World * list string :=
  write_measure_s3_backups utcnow (MEASURE_TYPE "wifi") "WifiMeasure"
    "wifi_measure.csv" WifiMeasure_model cleanup_zip w.

(** The blocks the reaper selects. *)
Definition blocks_to_reap (measure_type : Z) (d : DB) : list MeasureBlock.t :=
  filter (λ b, MeasureBlock.measure_type b = measure_type
               ∧ MeasureBlock.s3_key b ≠ None
               ∧ MeasureBlock.archive_date b = None)
         (t_measure_block d).

(** The body of the loop of [delete_measure_records]. *)
Definition reap_block {K} (measure_cls : measure_model K)
    (w : World) (cmb : MeasureBlock.t) : World :=
  let expected_sha := MeasureBlock.archive_sha cmb in
  if check_archive expected_sha (MeasureBlock.s3_key cmb) then
    commit (on_session (with_measures measure_cls
      (filter (λ m, ¬ (Measure.id m >= MeasureBlock.start_id cmb
                       ∧ Measure.id m <= MeasureBlock.end_id cmb)))) w)
  else w.

(** [delete_measure_records(self, measure_cls, measure_type,
    cleanup_zip)]. *)
Definition delete_measure_records {K} (measure_cls : measure_model K)
    (measure_type : Z) (cleanup_zip : bool) (w : World) : World :=
  foldl (reap_block measure_cls) w (blocks_to_reap measure_type (session w)).

(** [delete_cellmeasure_records(cleanup_zip)]. *)
Definition delete_cellmeasure_records (cleanup_zip : bool) (w : World)
  : World :=
  delete_measure_records CellMeasure_model (MEASURE_TYPE "cell")
    cleanup_zip w.

(** [delete_wifimeasure_records(cleanup_zip)]. *)
Definition delete_wifimeasure_records (cleanup_zip : bool) (w : World)
  : World :=
  delete_measure_records WifiMeasure_model (MEASURE_TYPE "wifi")
    cleanup_zip w.

(** * Properties *)

(** ** Python helpers *)

Lemma bind_Ok {A B} (a : A) (f : A → result B) : Ok a ≫= f = f a.
Proof. reflexivity. Qed.

Lemma bind_Ok_inv {A B} (m : result A) (f : A → result B) (b : B) :
  m ≫= f = Ok b → ∃ a, m = Ok a ∧ f a = Ok b.
Proof. destruct m as [a|e]; [eauto | discriminate]. Qed.

Lemma floordiv_Ok a b : b ≠ 0 → floordiv a b = Ok (a / b).
Proof. intros Hb. unfold floordiv. by rewrite decide_False. Qed.

Lemma len_nonempty {A} (l : list A) : l ≠ [] → len l ≠ 0.
Proof. destruct l; [done | unfold len; simpl; lia]. Qed.

Lemma len_nonneg {A} (l : list A) : 0 ≤ len l.
Proof. unfold len. lia. Qed.

Lemma truthy_Some z : z ≠ 0 → truthy (Some z) = true.
Proof. intros Hz. simpl. by apply bool_decide_eq_true. Qed.

Lemma builtin_list_Ok function vals :
  vals ≠ [] → ∃ v, builtin_list function vals = Ok v.
Proof. destruct vals, function; simpl; eauto; done. Qed.

Lemma extreme_Ok vals old function :
  vals ≠ [] → ∃ v, extreme vals old function = Ok v.
Proof.
  intros Hv. unfold extreme.
  destruct (builtin_list_Ok function vals Hv) as [v ->].
  rewrite bind_Ok. destruct old; eauto.
Qed.

(** ** Position aggregator *)

(** The bounding box of a non-empty batch is always defined. *)
Lemma extremes_Ok {K} (station : Station.t K) latitudes longitudes :
  latitudes ≠ [] → longitudes ≠ [] →
  ∃ box, extremes station latitudes longitudes = Ok box.
Proof.
  intros Hlat Hlon. unfold extremes.
  destruct (extreme_Ok latitudes (Station.min_lat station) Min Hlat) as [a ->].
  destruct (extreme_Ok longitudes (Station.min_lon station) Min Hlon) as [b ->].
  destruct (extreme_Ok latitudes (Station.max_lat station) Max Hlat) as [c ->].
  destruct (extreme_Ok longitudes (Station.max_lon station) Max Hlon) as [d ->].
  rewrite !bind_Ok. eauto.
Qed.

(** With a station that has an estimate, the aggregator computes both
    batch means and then decides on the box that includes the
    station's own position. *)
Lemma calculate_new_position_existing {K} (station : Station.t K)
    measures moving_stations max_dist_km backfill lat lon :
  measures ≠ [] →
  Station.lat station = Some lat → lat ≠ 0 →
  Station.lon station = Some lon → lon ≠ 0 →
  calculate_new_position station measures moving_stations max_dist_km backfill
  = box ← extremes station (measures.*1 ++ [lat]) (measures.*2 ++ [lon]);
    if float_gt_int (box_dist box) max_dist_km then
      mret (station, {[ Station.id station ]} ∪ moving_stations)
    else
      let length := len measures in
      let new_total :=
        if backfill then Station.total_measures station + length
        else Station.total_measures station in
      let old_length :=
        if backfill then Station.total_measures station
        else new_total - length in
      lat' ← floordiv (lat * old_length
                       + sum (measures.*1) / length * length) new_total;
      lon' ← floordiv (lon * old_length
                       + sum (measures.*2) / length * length) new_total;
      mret (store_box station length box backfill lat' lon' new_total,
            moving_stations).
Proof.
  intros Hm Hlat Hlat0 Hlon Hlon0. unfold calculate_new_position.
  rewrite !floordiv_Ok by by apply len_nonempty.
  rewrite !bind_Ok, Hlat, Hlon, !truthy_Some by done.
  reflexivity.
Qed.

(** C5: a station that had an estimate and whose extended bounding box
    spans more than the cap is added to the caller's moving set and is
    returned with every stored field as it was; the caps are 150 km for
    cells and 5 km for Wi-Fi. *)
Theorem calculate_new_position_moving_unchanged {K} (station : Station.t K)
    measures moving_stations max_dist_km backfill lat lon box :
  measures ≠ [] →
  Station.lat station = Some lat → lat ≠ 0 →
  Station.lon station = Some lon → lon ≠ 0 →
  extremes station (measures.*1 ++ [lat]) (measures.*2 ++ [lon]) = Ok box →
  float_gt_int (box_dist box) max_dist_km = true →
  calculate_new_position station measures moving_stations max_dist_km backfill
  = Ok (station, {[ Station.id station ]} ∪ moving_stations)
  ∧ CELL_MAX_DIST_KM = 150 ∧ WIFI_MAX_DIST_KM = 5.
Proof.
  intros Hm Hlat Hlat0 Hlon Hlon0 Hbox Hfar. split; [|done].
  rewrite (calculate_new_position_existing _ _ _ _ _ lat lon) by done.
  rewrite Hbox, bind_Ok, Hfar. reflexivity.
Qed.

(** C3: in incremental mode, a station with an estimate whose extended
    box stays within the cap gets the weighted mean of its old position
    and the batch mean, its new counter drops by the batch size and its
    total counter stays. *)
Theorem calculate_new_position_incremental {K} (station : Station.t K)
    measures moving_stations max_dist_km lat lon box :
  measures ≠ [] →
  Station.lat station = Some lat → lat ≠ 0 →
  Station.lon station = Some lon → lon ≠ 0 →
  extremes station (measures.*1 ++ [lat]) (measures.*2 ++ [lon]) = Ok box →
  float_gt_int (box_dist box) max_dist_km = false →
  Station.total_measures station ≠ 0 →
  let n := len measures in
  let total_measures := Station.total_measures station in
  ∃ station',
    calculate_new_position station measures moving_stations max_dist_km false
    = Ok (station', moving_stations)
    ∧ Station.lat station'
      = Some ((lat * (total_measures - n) + sum (measures.*1) / n * n)
              / total_measures)
    ∧ Station.lon station'
      = Some ((lon * (total_measures - n) + sum (measures.*2) / n * n)
              / total_measures)
    ∧ Station.new_measures station' = Station.new_measures station - n
    ∧ Station.total_measures station' = total_measures.
Proof.
  intros Hm Hlat Hlat0 Hlon Hlon0 Hbox Hnear Htotal n total_measures.
  rewrite (calculate_new_position_existing _ _ _ _ _ lat lon) by done.
  rewrite Hbox, bind_Ok, Hnear. cbv zeta.
  rewrite !floordiv_Ok, !bind_Ok by done.
  eexists. split; [reflexivity|].
  destruct box as [[[min_lat min_lon] max_lat] max_lon]. done.
Qed.



(** ** Station updater *)





(** ** LAC deriver *)

(** The points [update_lac] hands to [centroid] are the positions of
    the sibling cells in degrees. *)
Lemma for_all_points (cells : list Cell) points :
  for_all (λ c,
    lat ← required (Station.lat c);
    lon ← required (Station.lon c);
    mret (to_degrees lat, to_degrees lon)) cells = Ok points →
  Some <$> (points.*1) = (λ c, to_degrees <$> Station.lat c) <$> cells
  ∧ Some <$> (points.*2) = (λ c, to_degrees <$> Station.lon c) <$> cells.
Proof.
  revert points. induction cells as [|c cells IH]; intros points H.
  - by injection H as <-.
  - cbn in H.
    destruct (Station.lat c) as [lat|] eqn:Hlat; [|discriminate].
    destruct (Station.lon c) as [lon|] eqn:Hlon; [|discriminate]. cbn in H.
    destruct (for_all _ cells) as [rest|] eqn:Hrest; [|discriminate].
    injection H as <-. destruct (IH rest eq_refl) as [IH1 IH2].
    cbn. by rewrite IH1, IH2, Hlat, Hlon.
Qed.

(** With a virtual row present, [update_lac] rewrites that row: the
    centroid of the siblings, the rounded range in meters, and a new
    counter of zero. *)
Lemma update_lac_present_row radio mcc mnc lac w w' row rows :
  filter (λ c, in_lac radio mcc mnc lac c
               ∧ CellKey.cid (Station.key c) = CELLID_LAC)
         (t_cell (session w)) = row :: rows →
  update_lac radio mcc mnc lac w = Ok w' →
  ∃ row',
    w' = commit (on_session (with_cell (flush row')) w)
    ∧ Station.id row' = Station.id row
    ∧ Station.key row' = Station.key row
    ∧ Station.new_measures row' = 0
    ∧ ∃ points min_lat min_lon max_lat max_lon,
        let cells :=
          filter (λ c, in_lac radio mcc mnc lac c
                       ∧ CellKey.cid (Station.key c) ≠ CELLID_LAC)
                 (t_cell (session w)) in
        let ctr := centroid points in
        Some <$> (points.*1) = (λ c, to_degrees <$> Station.lat c) <$> cells
        ∧ Some <$> (points.*2) = (λ c, to_degrees <$> Station.lon c) <$> cells
        ∧ (for_all required (Station.min_lat <$> cells) ≫= min_list)
          = Ok min_lat
        ∧ (for_all required (Station.min_lon <$> cells) ≫= min_list)
          = Ok min_lon
        ∧ (for_all required (Station.max_lat <$> cells) ≫= max_list)
          = Ok max_lat
        ∧ (for_all required (Station.max_lon <$> cells) ≫= max_list)
          = Ok max_lon
        ∧ Station.lat row' = Some (from_degrees ctr.1)
        ∧ Station.lon row' = Some (from_degrees ctr.2)
        ∧ Station.range row'
          = Some (Int (int_round (PrimFloat.mul
              (range_to_points ctr
                 [(to_degrees min_lat, to_degrees min_lon);
                  (to_degrees min_lat, to_degrees max_lon);
                  (to_degrees max_lat, to_degrees min_lon);
                  (to_degrees max_lat, to_degrees max_lon)])
              1000%float))).
Proof.
  intros Hrow. unfold update_lac. rewrite Hrow. intros H.
  apply bind_Ok_inv in H as (points & Hpoints & H).
  apply bind_Ok_inv in H as (min_lat & Hmin_lat & H).
  apply bind_Ok_inv in H as (min_lon & Hmin_lon & H).
  apply bind_Ok_inv in H as (max_lat & Hmax_lat & H).
  apply bind_Ok_inv in H as (max_lon & Hmax_lon & H).
  unfold mret, result_ret in H. simplify_eq.
  eexists. split; [reflexivity|]. simpl. do 3 (split; [done|]).
  exists points, min_lat, min_lon, max_lat, max_lon. cbv zeta.
  destruct (for_all_points _ _ Hpoints) as [? ?]. repeat split; done.
Qed.

(** C7: with no virtual row for the area, [update_lac] builds the row
    but never adds it to the session, so the task ends with the station
    table as it was and without a virtual row. *)
Theorem update_lac_absent_row radio mcc mnc lac w w' :
  filter (λ c, in_lac radio mcc mnc lac c
               ∧ CellKey.cid (Station.key c) = CELLID_LAC)
         (t_cell (session w)) = [] →
  update_lac radio mcc mnc lac w = Ok w' →
  w' = commit w
  ∧ ¬ Exists (λ c, in_lac radio mcc mnc lac c
                   ∧ CellKey.cid (Station.key c) = CELLID_LAC)
        (t_cell (session w')).
Proof.
  intros Hrow. unfold update_lac. rewrite Hrow. intros H.
  repeat (apply bind_Ok_inv in H as (? & _ & H)).
  unfold mret, result_ret in H. simplify_eq. split; [done|].
  simpl. intros Hex. apply Exists_exists in Hex as (c & Hin & Hc).
  assert (c ∈ filter (λ c, in_lac radio mcc mnc lac c
                           ∧ CellKey.cid (Station.key c) = CELLID_LAC)
                (t_cell (session w))) as Hc'.
  { by apply list_elem_of_filter. }
  rewrite Hrow in Hc'. by apply not_elem_of_nil in Hc'.
Qed.

(** ** Archival planner *)

#[local] Instance Zge_total : Total Z.ge.
Proof. intros x y. lia. Qed.

#[local] Instance Zge_trans : Transitive Z.ge.
Proof. intros x y z. lia. Qed.

#[local] Instance Zge_antisymm : AntiSymm (=) Z.ge.
Proof. intros x y. lia. Qed.

#[local] Instance Zge_refl : Reflexive Z.ge.
Proof. intros x. lia. Qed.

(** [order_by(...).first()] picks an extreme value of the column. *)
Lemma first_of_sorted (R : relation Z) `{∀ x y, Decision (R x y)}
    `{!Transitive R, !Total R, !AntiSymm (=) R, !Reflexive R} vals v :
  v ∈ vals → (∀ i, i ∈ vals → R v i) →
  first_of (merge_sort R vals) = Ok v.
Proof.
  intros Hv Hall.
  pose proof (StronglySorted_merge_sort R vals) as Hsorted.
  pose proof (merge_sort_Permutation R vals) as Hperm.
  destruct (merge_sort R vals) as [|h rest].
  - rewrite <- Hperm in Hv. by apply not_elem_of_nil in Hv.
  - simpl. f_equal. apply StronglySorted_inv in Hsorted as [_ Hh].
    assert (h ∈ vals) as Hin by (rewrite <- Hperm; left).
    rewrite <- Hperm in Hv. apply elem_of_cons in Hv as [->|Hv]; [done|].
    rewrite Forall_forall in Hh. apply (anti_symm R); [by apply Hh|].
    by apply Hall.
Qed.

Lemma append_no_blocks w :
  on_session (with_measure_block (λ table, table ++ [])) w = w.
Proof.
  destruct w as [[] ? ?]. unfold on_session, with_measure_block. simpl.
  by rewrite app_nil_r.
Qed.

Lemma append_blocks_twice w (row : list MeasureBlock.t → MeasureBlock.t) rows :
  on_session (with_measure_block (λ table, table ++ rows))
    (on_session (with_measure_block (λ table, table ++ [row table])) w)
  = on_session (with_measure_block (λ table,
      table ++ row (t_measure_block (session w)) :: rows)) w.
Proof.
  destruct w as [[] ? ?]. unfold on_session, with_measure_block. simpl.
  by rewrite <- app_assoc.
Qed.

Lemma block_ranges_S min_id count :
  block_ranges min_id (S count)
  = (min_id, min_id + batch_size - 1)
    :: block_ranges (min_id + batch_size - 1 + 1) count.
Proof.
  unfold block_ranges. rewrite <- cons_seq, fmap_cons. f_equal.
  - f_equal; lia.
  - rewrite <- fmap_S_seq, <- list_fmap_compose.
    apply list_fmap_ext. intros _ k _. simpl. f_equal; lia.
Qed.

(** The loop of the planner, entered with [this_max_id] clipped to
    [max_id], carves as many full blocks as fit below [max_id] and
    returns as soon as the fuel covers them. *)
Lemma carve_spec (count : nat) :
  ∀ fuel measure_type max_id min_id w blocks,
    0 < batch_size →
    count = Z.to_nat ((max_id - min_id + 1) / batch_size) →
    (count ≤ fuel)%nat →
    ∃ rows,
      carve fuel measure_type max_id min_id
        (Z.min (min_id + batch_size - 1) max_id) (w, blocks)
      = Some (on_session (with_measure_block (λ table, table ++ rows)) w,
              blocks ++ block_ranges min_id count)
      ∧ (λ r, (MeasureBlock.start_id r, MeasureBlock.end_id r)) <$> rows
        = block_ranges min_id count
      ∧ Forall (λ r, MeasureBlock.measure_type r = measure_type
                     ∧ MeasureBlock.s3_key r = None
                     ∧ MeasureBlock.archive_sha r = None
                     ∧ MeasureBlock.archive_date r = None) rows.
Proof.
  induction count as [|count IH];
    intros fuel measure_type max_id min_id w blocks Hbs Hcount Hfuel.
  - exists []. assert (max_id - min_id + 1 < batch_size) as Hshort.
    { pose proof (Z.div_mod (max_id - min_id + 1) batch_size).
      pose proof (Z.mod_pos_bound (max_id - min_id + 1) batch_size). nia. }
    split; [|by split]. unfold block_ranges. simpl. rewrite app_nil_r.
    destruct fuel; simpl; rewrite decide_False by lia;
      by rewrite append_no_blocks.
  - assert (batch_size ≤ max_id - min_id + 1) as Hfull.
    { pose proof (Z.div_mod (max_id - min_id + 1) batch_size).
      pose proof (Z.mod_pos_bound (max_id - min_id + 1) batch_size). nia. }
    destruct fuel as [|fuel]; [lia|]. rewrite block_ranges_S.
    cbn [carve]. rewrite decide_True by lia.
    replace (Z.min (min_id + batch_size - 1) max_id)
      with (min_id + batch_size - 1) by lia.
    rewrite decide_False by lia.
    replace (Z.min (batch_size + (min_id + batch_size - 1)) max_id)
      with (Z.min ((min_id + batch_size - 1 + 1) + batch_size - 1) max_id)
      by (f_equal; lia).
    edestruct (IH fuel measure_type max_id (min_id + batch_size - 1 + 1))
      as (rows & -> & Hrows & Hfresh); [done| |lia|].
    { replace (max_id - (min_id + batch_size - 1 + 1) + 1)
        with (max_id - min_id + 1 + (-1) * batch_size) by lia.
      rewrite Z.div_add by lia. lia. }
    exists (MeasureBlock.mk (next_block_id (t_measure_block (session w)))
              measure_type min_id (min_id + batch_size - 1) None None None
            :: rows).
    split; [|split].
    + by rewrite (append_blocks_twice w (λ table,
        MeasureBlock.mk (next_block_id table) measure_type min_id
          (min_id + batch_size - 1) None None None)), <- app_assoc.
    + by rewrite fmap_cons, Hrows.
    + by constructor.
Qed.

(** With a block size of zero the loop never ends: each turn emits an
    empty range and leaves [min_id] where it was. *)
Lemma carve_zero_batch fuel measure_type max_id min_id st :
  batch_size = 0 → min_id - 1 ≤ max_id →
  carve fuel measure_type max_id min_id (min_id - 1) st = None.
Proof.
  intros Hzero Hmax. revert st.
  induction fuel as [|fuel IH]; intros [w blocks]; simpl;
    rewrite decide_True by lia; [done|].
  rewrite decide_False by lia.
  replace (Z.min (batch_size + (min_id - 1)) max_id) with (min_id - 1) by lia.
  replace (min_id - 1 + 1) with min_id by lia. apply IH.
Qed.

Lemma block_ranges_lookup min_id count (k : nat) :
  (k < count)%nat →
  block_ranges min_id count !! k
  = Some (min_id + Z.of_nat k * batch_size,
          min_id + (Z.of_nat k + 1) * batch_size - 1).
Proof.
  intros Hk. unfold block_ranges.
  by rewrite list_lookup_fmap, lookup_seq_lt.
Qed.

Lemma block_ranges_lookup_inv min_id count (k : nat) b :
  block_ranges min_id count !! k = Some b →
  (k < count)%nat
  ∧ b = (min_id + Z.of_nat k * batch_size,
         min_id + (Z.of_nat k + 1) * batch_size - 1).
Proof.
  intros Hb. assert (k < count)%nat as Hk.
  { apply lookup_lt_Some in Hb. unfold block_ranges in Hb.
    by rewrite length_fmap, length_seq in Hb. }
  rewrite block_ranges_lookup in Hb by done. by simplify_eq.
Qed.

(** C8: the planner starts after the last block of the kind, or at the
    smallest measurement id when there is none; it emits nothing when
    fewer than [batch_size] ids remain, and otherwise consecutive blocks
    of exactly [batch_size] ids, leaving a tail shorter than
    [batch_size]. *)
Theorem schedule_measure_archival_blocks {K} measure_type
    (measure_cls : measure_model K) w max_id min_id :
  0 < batch_size →
  let ids := Measure.id <$> measures_of measure_cls (session w) in
  let ends :=
    MeasureBlock.end_id <$>
    filter (λ b, MeasureBlock.measure_type b = measure_type)
           (t_measure_block (session w)) in
  max_id ∈ ids → (∀ i, i ∈ ids → i ≤ max_id) →
  (if decide (ends = []) then min_id ∈ ids ∧ ∀ i, i ∈ ids → min_id ≤ i
   else min_id - 1 ∈ ends ∧ ∀ e, e ∈ ends → e ≤ min_id - 1) →
  let count := Z.to_nat ((max_id - min_id + 1) / batch_size) in
  let blocks := block_ranges min_id count in
  ∀ fuel, (count ≤ fuel)%nat →
  ∃ w' rows,
    schedule_measure_archival fuel measure_type measure_cls w
    = Some (Ok (w', blocks))
    ∧ session w'
      = with_measure_block (λ table, table ++ rows) (session w)
    ∧ (λ r, (MeasureBlock.start_id r, MeasureBlock.end_id r)) <$> rows
      = blocks
    ∧ Forall (λ r, MeasureBlock.measure_type r = measure_type
                   ∧ MeasureBlock.s3_key r = None
                   ∧ MeasureBlock.archive_sha r = None
                   ∧ MeasureBlock.archive_date r = None) rows
    ∧ (max_id - min_id + 1 < batch_size → blocks = [] ∧ w' = w)
    ∧ (batch_size ≤ max_id - min_id + 1 →
       blocks !! 0%nat = Some (min_id, min_id + batch_size - 1)
       ∧ database w' = session w')
    ∧ (∀ b, b ∈ blocks → b.2 - b.1 + 1 = batch_size ∧ b.2 ≤ max_id)
    ∧ (∀ (k : nat) b b',
         blocks !! k = Some b → blocks !! S k = Some b' → b'.1 = b.2 + 1)
    ∧ (0 ≤ max_id - min_id + 1 →
       0 ≤ max_id - (min_id + Z.of_nat count * batch_size) + 1
         < batch_size).
Proof.
  intros Hbs ids ends Hmax_in Hmax Hmin count blocks fuel Hfuel.
  pose proof (Z.div_mod (max_id - min_id + 1) batch_size) as Hdiv.
  pose proof (Z.mod_pos_bound (max_id - min_id + 1) batch_size) as Hmod.
  assert (max_id - min_id + 1 < batch_size → count = 0%nat) as Hnone.
  { intros. subst count. nia. }
  destruct (carve_spec count fuel measure_type max_id min_id w [])
    as (rows & Hcarve & Hrows & Hfresh); [done..|].
  assert (schedule_measure_archival fuel measure_type measure_cls w
          = if decide (max_id - min_id + 1 < batch_size)
            then Some (Ok (w, []))
            else '(w, blocks) ←
                   carve fuel measure_type max_id min_id
                     (min_id + batch_size - 1) (w, []);
                 Some (Ok (commit w, blocks))) as ->.
  { unfold schedule_measure_archival. fold ids.
    rewrite (first_of_sorted Z.ge ids max_id) by (done || intros; apply Z.le_ge; auto).
    fold ends. destruct (decide (ends = [])) as [Hends|Hends].
    - rewrite Hends. destruct Hmin as [Hmin_in Hmin].
      change (merge_sort Z.ge []) with (@nil Z).
      by rewrite (first_of_sorted Z.le ids min_id).
    - destruct Hmin as [Hlast_in Hlast].
      pose proof (first_of_sorted Z.ge ends (min_id - 1) Hlast_in) as Hfirst.
      destruct (merge_sort Z.ge ends) as [|last_end ?].
      + discriminate Hfirst. intros. apply Z.le_ge. auto.
      + simpl in Hfirst. assert (last_end = min_id - 1) as ->.
        { cut (Ok last_end = Ok (min_id - 1)); [congruence|].
          apply Hfirst. intros. apply Z.le_ge. auto. }
        simpl. by replace (min_id - 1 + 1) with min_id by lia. }
  destruct (decide (max_id - min_id + 1 < batch_size)) as [Hshort|Hfull].
  - assert (blocks = []) as Hblocks.
    { subst blocks. by rewrite Hnone. }
    exists w, []. rewrite Hblocks in *.
    split; [done|].
    split; [unfold with_measure_block; rewrite app_nil_r;
            by destruct w as [[] ? ?]|].
    split; [done|]. split; [by constructor|]. split; [done|].
    split; [lia|]. split; [|split].
    + intros b Hb. by apply not_elem_of_nil in Hb.
    + intros k b b' Hb. by rewrite lookup_nil in Hb.
    + rewrite (Hnone Hshort). lia.
  - replace (min_id + batch_size - 1)
      with (Z.min (min_id + batch_size - 1) max_id) by lia.
    rewrite Hcarve. cbn. eexists _, rows. split; [done|].
    split; [done|]. split; [done|]. split; [done|].
    assert (0 < count)%nat as Hcount by (subst count; nia).
    split; [lia|]. split.
    { intros _. split; [|done]. subst blocks.
      rewrite block_ranges_lookup by done. f_equal. f_equal; lia. }
    split; [|split].
    + intros b Hb. apply list_elem_of_lookup in Hb as [k Hb].
      apply block_ranges_lookup_inv in Hb as [Hk ->]. simpl.
      split; [lia|]. subst count. nia.
    + intros k b b' Hb Hb'.
      apply block_ranges_lookup_inv in Hb as [_ ->].
      apply block_ranges_lookup_inv in Hb' as [_ ->]. simpl. lia.
    + intros _. subst count. nia.
Qed.

(** ** Retention trimmer *)

Lemma Cell_tables : separate_tables Cell_model CellMeasure_model.
Proof. by split. Qed.

Lemma Wifi_tables : separate_tables Wifi_model WifiMeasure_model.
Proof. by split. Qed.

Lemma for_each_invariant {A S} (P : S → Prop) (body : A → S → result S)
    items st st' :
  (∀ x s s', x ∈ items → P s → body x s = Ok s' → P s') →
  P st → for_each body items st = Ok st' → P st'.
Proof.
  revert st. induction items as [|x items IH]; intros st Hbody HP Hrun.
  - by injection Hrun as <-.
  - simpl in Hrun. apply bind_Ok_inv in Hrun as (s & Hx & Hrun).
    apply (IH s); [|by eapply Hbody; [left|..]|done].
    intros y ? ? Hy. apply Hbody. by right.
Qed.

(** What one turn of the trimming loop does for a kept station. *)
Lemma trim_unique_spec {K} (unique : unique_model K)
    (measure : measure_model K) join_measure delstat max_measures
    age_threshold (u : Station.t K) count d n0 d' n :
  separate_tables unique measure →
  trim_unique unique measure join_measure delstat max_measures
    age_threshold (u, count) (d, n0) = Ok (d', n) →
  ∃ keep,
    merge_sort by_time_id
      (old_window join_measure age_threshold u (measures_of measure d))
    !! Z.to_nat (count - max_measures) = Some keep
    ∧ let doomed (m : Measure.t K) :=
        (join_measure u m = true ∧ Measure.created m < age_threshold)
        ∧ Measure.time m ≤ Measure.time keep
        ∧ Measure.id m < Measure.id keep in
      measures_of measure d' = filter (λ m, ¬ doomed m) (measures_of measure d)
      ∧ n = len (filter doomed (measures_of measure d))
      ∧ ∃ u',
          uniques_of unique d' = flush u' (uniques_of unique d)
          ∧ Station.id u' = Station.id u
          ∧ Station.total_measures u' = Station.total_measures u - n
          ∧ Station.new_measures u'
            = (if decide (Station.new_measures u
                          > Station.total_measures u - n)
               then Station.total_measures u - n
               else Station.new_measures u)
          ∧ Station.new_measures u' ≤ Station.total_measures u'.
Proof.
  intros Htables. unfold trim_unique. simpl.
  destruct (merge_sort _ _ !! _) as [keep|]; [|discriminate].
  case_decide; [|discriminate]. intros Hret.
  unfold mret, result_ret in Hret. simplify_eq.
  exists keep. split; [done|]. cbv zeta. unfold incr_stat.
  rewrite (measures_with_stat _ _ Htables),
    (measures_with_uniques _ _ Htables),
    (measures_with_measures _ _ Htables).
  split; [done|]. split; [done|]. eexists.
  rewrite (uniques_with_stat _ _ Htables),
    (uniques_with_uniques _ _ Htables),
    (uniques_with_measures _ _ Htables).
  split; [done|]. simpl. repeat split. case_decide; lia.
Qed.

Lemma over_measured_spec {K} (unique : unique_model K)
    (measure : measure_model K) join_measure max_measures age_threshold
    batch d u count :
  (u, count) ∈ over_measured unique measure join_measure max_measures
                 age_threshold batch d →
  u ∈ uniques_of unique d
  ∧ Station.total_measures u > max_measures
  ∧ count = len (old_window join_measure age_threshold u
                   (measures_of measure d))
  ∧ count > max_measures.
Proof.
  unfold over_measured. intros Hin.
  apply list_elem_of_filter in Hin as [Hcount Hin].
  apply list_elem_of_fmap in Hin as (u' & Heq & Hin). simplify_eq.
  apply subseteq_take, list_elem_of_filter in Hin as [? ?].
  done.
Qed.



(** ** Archival reaper *)

Lemma CellMeasure_table : measure_table CellMeasure_model.
Proof. by split. Qed.

Lemma WifiMeasure_table : measure_table WifiMeasure_model.
Proof. by split. Qed.

Lemma filter_all {A} (P : A → Prop) `{∀ x, Decision (P x)} (l : list A) :
  (∀ x, P x) → filter P l = l.
Proof.
  intros HP. induction l as [|x l IH]; [done|].
  by rewrite filter_cons_True, IH.
Qed.

(** The loop of the reaper over any list of blocks: the block table is
    not written, the rows in the range of a confirmed block are
    deleted, and each such delete is committed. *)
Lemma reap_blocks_spec {K} (measure_cls : measure_model K) blocks :
  measure_table measure_cls →
  ∀ w,
    let confirmed (b : MeasureBlock.t) :=
      check_archive (MeasureBlock.archive_sha b) (MeasureBlock.s3_key b)
      = true in
    let w' := foldl (reap_block measure_cls) w blocks in
    t_measure_block (session w') = t_measure_block (session w)
    ∧ measures_of measure_cls (session w')
      = filter (λ m, ¬ Exists (λ b, MeasureBlock.start_id b ≤ Measure.id m
                                    ∧ Measure.id m ≤ MeasureBlock.end_id b)
                       (filter confirmed blocks))
               (measures_of measure_cls (session w))
    ∧ (filter confirmed blocks ≠ [] → database w' = session w')
    ∧ (filter confirmed blocks = [] → w' = w).
Proof.
  intros Htable. induction blocks as [|b blocks IH]; intros w confirmed.
  - simpl. split; [done|]. split; [|done].
    symmetry. apply filter_all. intros m Hex. by apply Exists_nil in Hex.
  - simpl. destruct (check_archive (MeasureBlock.archive_sha b)
                       (MeasureBlock.s3_key b)) eqn:Hcheck.
    + assert (reap_block measure_cls w b
              = commit (on_session (with_measures measure_cls
                  (filter (λ m, ¬ (Measure.id m >= MeasureBlock.start_id b
                                   ∧ Measure.id m <= MeasureBlock.end_id b))))
                  w)) as ->.
      { unfold reap_block. by rewrite Hcheck. }
      destruct (IH (commit (on_session (with_measures measure_cls
                  (filter (λ m, ¬ (Measure.id m >= MeasureBlock.start_id b
                                   ∧ Measure.id m <= MeasureBlock.end_id b))))
                  w))) as (Hblocks & Hrows & Hcommit & Hsame).
      fold confirmed in Hrows, Hcommit, Hsame.
      rewrite Hblocks, Hrows, filter_cons_True by done. simpl.
      rewrite (measure_block_with_measures _ Htable),
        (rows_with_measures _ Htable), list_filter_filter.
      split; [done|]. split.
      * apply list_filter_iff. intros m. rewrite Exists_cons. split.
        -- intros [Hrest Hb] [?|?]; [|done]. apply Hb. lia.
        -- intros Hno. split; [by intros ?; apply Hno; right|].
           intros ?. apply Hno. left. lia.
      * split; [|done]. intros _.
        destruct (decide (filter confirmed blocks = [])) as [Hnone|Hsome].
        -- by rewrite (Hsame Hnone).
        -- by apply Hcommit.
    + assert (reap_block measure_cls w b = w) as ->.
      { unfold reap_block. by rewrite Hcheck. }
      rewrite filter_cons_False; [apply IH|].
      unfold confirmed. by rewrite Hcheck.
Qed.

(** What a run of the reaper does: for the blocks of the kind with a
    key and no archive date that the object store confirms, it deletes
    exactly the measurement rows in their id ranges and commits; it
    writes no block row, and an unconfirmed block costs no row. *)
Lemma delete_measure_records_reaps {K} (measure_cls : measure_model K)
    measure_type cleanup_zip w :
  measure_table measure_cls →
  let confirmed (b : MeasureBlock.t) :=
    check_archive (MeasureBlock.archive_sha b) (MeasureBlock.s3_key b)
    = true in
  let reaped := filter confirmed (blocks_to_reap measure_type (session w)) in
  let w' := delete_measure_records measure_cls measure_type cleanup_zip w in
  t_measure_block (session w') = t_measure_block (session w)
  ∧ measures_of measure_cls (session w')
    = filter (λ m, ¬ Exists (λ b, MeasureBlock.start_id b ≤ Measure.id m
                                  ∧ Measure.id m ≤ MeasureBlock.end_id b)
                     reaped)
             (measures_of measure_cls (session w))
  ∧ (reaped ≠ [] → database w' = session w')
  ∧ (reaped = [] → w' = w).
Proof.
  intros Htable confirmed reaped w'.
  by apply (reap_blocks_spec measure_cls _ Htable w).
Qed.

(** ** Archival writer *)

#[local] Instance by_end_id_total : Total by_end_id.
Proof. intros a b. unfold by_end_id. lia. Qed.

#[local] Instance by_end_id_trans : Transitive by_end_id.
Proof. intros a b c. unfold by_end_id. lia. Qed.

Lemma NoDup_fmap_eq {A B} (f : A → B) (l : list A) x y :
  NoDup (f <$> l) → x ∈ l → y ∈ l → f x = f y → x = y.
Proof.
  intros Hnd [i Hi]%list_elem_of_lookup [j Hj]%list_elem_of_lookup Hf.
  assert (i = j) as ->; [|congruence].
  apply (NoDup_lookup (f <$> l) i j (f x)); [done|..].
  - by rewrite list_lookup_fmap, Hi.
  - by rewrite list_lookup_fmap, Hj, Hf.
Qed.

(** The key and the hash the writer puts on a block, for the tables
    of [d]. *)
Lemma write_block_session {K} utcnow zip_prefix csv_name
    (measure_cls : measure_model K) cleanup_zip cmb w zips :
  session (write_block utcnow zip_prefix csv_name measure_cls cleanup_zip
             cmb (w, zips)).1
  = with_measure_block (flush_block
      (MeasureBlock.mk (MeasureBlock.id cmb) (MeasureBlock.measure_type cmb)
         (MeasureBlock.start_id cmb) (MeasureBlock.end_id cmb)
         (Some (s3_key_format (strftime_Ym utcnow) zip_prefix
                  (MeasureBlock.start_id cmb) (MeasureBlock.end_id cmb)))
         (Some (compute_hash
                  (block_zip csv_name measure_cls cmb (session w))))
         (MeasureBlock.archive_date cmb)))
      (session w).
Proof. unfold write_block. by destruct (backup_archive _ _). Qed.

(** The loop of the writer over blocks of the table: each block met is
    replaced by its stamped copy, and no other table is written. *)
Lemma write_blocks_spec {K} utcnow zip_prefix csv_name
    (measure_cls : measure_model K) cleanup_zip d0 blocks :
  measure_table measure_cls →
  NoDup (MeasureBlock.id <$> t_measure_block d0) →
  let stamped (b : MeasureBlock.t) :=
    MeasureBlock.mk (MeasureBlock.id b) (MeasureBlock.measure_type b)
      (MeasureBlock.start_id b) (MeasureBlock.end_id b)
      (Some (s3_key_format (strftime_Ym utcnow) zip_prefix
               (MeasureBlock.start_id b) (MeasureBlock.end_id b)))
      (Some (compute_hash (block_zip csv_name measure_cls b d0)))
      (MeasureBlock.archive_date b) in
  let stamp_ids (ids : list Z) (b : MeasureBlock.t) :=
    if decide (MeasureBlock.id b ∈ ids) then stamped b else b in
  (∀ b, b ∈ blocks → b ∈ t_measure_block d0) →
  ∀ w zips ids,
    t_measure_block (session w) = stamp_ids ids <$> t_measure_block d0 →
    measures_of measure_cls (session w) = measures_of measure_cls d0 →
    alembic_version (session w) = alembic_version d0 →
    let w' :=
      (foldl (λ st cmb,
                write_block utcnow zip_prefix csv_name measure_cls
                  cleanup_zip cmb st) (w, zips) blocks).1 in
    t_measure_block (session w')
    = stamp_ids (ids ++ (MeasureBlock.id <$> blocks)) <$> t_measure_block d0
    ∧ measures_of measure_cls (session w') = measures_of measure_cls d0
    ∧ alembic_version (session w') = alembic_version d0.
Proof.
  intros Htable Hnodup stamped stamp_ids.
  induction blocks as [|cmb blocks IH]; intros Hin w zips ids Hblocks Hrows Hrev.
  - simpl. by rewrite app_nil_r.
  - cbn [foldl]. rewrite fmap_cons.
    destruct (write_block utcnow zip_prefix csv_name measure_cls cleanup_zip
                cmb (w, zips)) as [w1 zips1] eqn:Hstep.
    pose proof (write_block_session utcnow zip_prefix csv_name measure_cls
                  cleanup_zip cmb w zips) as Hsession.
    rewrite Hstep in Hsession. simpl in Hsession.
    assert (block_zip csv_name measure_cls cmb (session w)
            = block_zip csv_name measure_cls cmb d0) as Hzip.
    { unfold block_zip. by rewrite Hrows, Hrev. }
    rewrite Hzip in Hsession. fold (stamped cmb) in Hsession.
    replace (ids ++ MeasureBlock.id cmb :: (MeasureBlock.id <$> blocks))
      with ((ids ++ [MeasureBlock.id cmb]) ++ (MeasureBlock.id <$> blocks))
      by by rewrite <- app_assoc.
    apply IH.
    + intros b Hb. apply Hin. by right.
    + rewrite Hsession. change (t_measure_block (with_measure_block ?f ?d))
        with (f (t_measure_block d)).
      rewrite Hblocks. unfold flush_block.
      rewrite <- list_fmap_compose. apply list_fmap_ext.
      intros i r Hr. apply list_elem_of_lookup_2 in Hr. simpl.
      assert (MeasureBlock.id (stamp_ids ids r) = MeasureBlock.id r) as ->.
      { unfold stamp_ids. by case_decide. }
      unfold stamp_ids. destruct (decide (MeasureBlock.id r
                                          = MeasureBlock.id cmb)) as [Hid|Hid].
      * assert (r = cmb) as ->.
        { apply (NoDup_fmap_eq MeasureBlock.id (t_measure_block d0));
            [done..| |done]. apply Hin. by left. }
        rewrite (decide_True (P := _ ∈ _ ++ _)); [done|].
        apply elem_of_app. right. by left.
      * apply decide_ext. rewrite elem_of_app, list_elem_of_singleton.
        split; [by left | by intros [?|?]].
    + rewrite Hsession. by rewrite (rows_with_measure_block _ Htable).
    + by rewrite Hsession.
Qed.


(** ** Backfill *)



(** * Further properties *)

(** ** Position aggregator: errors, backfill, bounding box *)

Lemma min_list_spec vals v :
  min_list vals = Ok v → v ∈ vals ∧ ∀ x, x ∈ vals → v ≤ x.
Proof.
  destruct vals as [|a vals]; [discriminate|]. simpl. intros [= <-].
  revert a. induction vals as [|b vals IH]; intros a; simpl.
  - split; [left|]. intros x ->%list_elem_of_singleton. lia.
  - destruct (IH (a `min` b)) as [Hin Hle]. split.
    + apply elem_of_cons in Hin as [Heq|Hin]; [|by right; right].
      rewrite Heq. destruct (Z.min_spec a b) as [[_ ->]|[_ ->]];
        [left | right; left].
    + intros x Hx. apply elem_of_cons in Hx as [->|Hx].
      * specialize (Hle (a `min` b) ltac:(left)). lia.
      * apply elem_of_cons in Hx as [->|Hx].
        -- specialize (Hle (a `min` b) ltac:(left)). lia.
        -- apply Hle. by right.
Qed.

Lemma max_list_spec vals v :
  max_list vals = Ok v → v ∈ vals ∧ ∀ x, x ∈ vals → x ≤ v.
Proof.
  destruct vals as [|a vals]; [discriminate|]. simpl. intros [= <-].
  revert a. induction vals as [|b vals IH]; intros a; simpl.
  - split; [left|]. intros x ->%list_elem_of_singleton. lia.
  - destruct (IH (a `max` b)) as [Hin Hle]. split.
    + apply elem_of_cons in Hin as [Heq|Hin]; [|by right; right].
      rewrite Heq. destruct (Z.max_spec a b) as [[_ ->]|[_ ->]];
        [right; left | left].
    + intros x Hx. apply elem_of_cons in Hx as [->|Hx].
      * specialize (Hle (a `max` b) ltac:(left)). lia.
      * apply elem_of_cons in Hx as [->|Hx].
        -- specialize (Hle (a `max` b) ltac:(left)). lia.
        -- apply Hle. by right.
Qed.

Lemma extreme_Min_spec vals old v :
  extreme vals old Min = Ok v →
  (∀ x, x ∈ vals → v ≤ x) ∧ (∀ o, old = Some o → v ≤ o).
Proof.
  unfold extreme. intros H. apply bind_Ok_inv in H as (new & Hnew & H).
  apply min_list_spec in Hnew as [_ Hle].
  destruct old as [o|]; injection H as <-; simpl.
  - split; [|intros ? [= <-]; lia]. intros x Hx. specialize (Hle x Hx). lia.
  - split; [done | discriminate].
Qed.

Lemma extreme_Max_spec vals old v :
  extreme vals old Max = Ok v →
  (∀ x, x ∈ vals → x ≤ v) ∧ (∀ o, old = Some o → o ≤ v).
Proof.
  unfold extreme. intros H. apply bind_Ok_inv in H as (new & Hnew & H).
  apply max_list_spec in Hnew as [_ Hle].
  destruct old as [o|]; injection H as <-; simpl.
  - split; [|intros ? [= <-]; lia]. intros x Hx. specialize (Hle x Hx). lia.
  - split; [done | discriminate].
Qed.

Lemma sum_lower vals a : (∀ x, x ∈ vals → a ≤ x) → a * len vals ≤ sum vals.
Proof.
  unfold len. induction vals as [|v vals IH]; intros Hall; simpl; [lia|].
  specialize (Hall v ltac:(left)) as Hv.
  specialize (IH (λ x Hx, Hall x ltac:(by right))). lia.
Qed.

Lemma sum_upper vals b : (∀ x, x ∈ vals → x ≤ b) → sum vals ≤ b * len vals.
Proof.
  unfold len. induction vals as [|v vals IH]; intros Hall; simpl; [lia|].
  specialize (Hall v ltac:(left)) as Hv.
  specialize (IH (λ x Hx, Hall x ltac:(by right))). lia.
Qed.

(** The floored mean of a non-empty list lies between its bounds. *)
Lemma mean_bounds vals a b :
  vals ≠ [] → (∀ x, x ∈ vals → a ≤ x ≤ b) →
  a ≤ sum vals / len vals ≤ b.
Proof.
  intros Hne Hall. pose proof (len_nonempty vals Hne).
  pose proof (len_nonneg vals).
  pose proof (sum_lower vals a (λ x Hx, proj1 (Hall x Hx))).
  pose proof (sum_upper vals b (λ x Hx, proj2 (Hall x Hx))). split.
  - apply Z.div_le_lower_bound; lia.
  - apply Z.div_le_upper_bound; lia.
Qed.

(** A floored weighted mean with non-negative weights lies between
    bounds of its two terms. *)
Lemma weighted_mean_bounds x y w1 w2 W a b :
  0 ≤ w1 → 0 ≤ w2 → W = w1 + w2 → 0 < W → a ≤ x ≤ b → a ≤ y ≤ b →
  a ≤ (x * w1 + y * w2) / W ≤ b.
Proof.
  intros ? ? -> ? ? ?. split.
  - apply Z.div_le_lower_bound; nia.
  - apply Z.div_le_upper_bound; nia.
Qed.

Lemma floordiv_Ok_inv a b q : floordiv a b = Ok q → b ≠ 0 ∧ q = a / b.
Proof. unfold floordiv. case_decide; [discriminate|]. by intros [= <-]. Qed.

(** The three ways in which the aggregator returns: the station is
    moving; the station had an estimate and gets the weighted mean; the
    station had none and gets the batch mean. *)
Lemma calculate_new_position_cases {K} (station station' : Station.t K)
    measures moving_stations moving_stations' max_dist_km backfill :
  calculate_new_position station measures moving_stations max_dist_km backfill
  = Ok (station', moving_stations') →
  let n := len measures in
  let new_total :=
    if backfill then Station.total_measures station + n
    else Station.total_measures station in
  let old_length :=
    if backfill then Station.total_measures station else new_total - n in
  measures ≠ []
  ∧ ((∃ lat lon box,
        Station.lat station = Some lat ∧ lat ≠ 0
        ∧ Station.lon station = Some lon ∧ lon ≠ 0
        ∧ extremes station (measures.*1 ++ [lat]) (measures.*2 ++ [lon])
          = Ok box
        ∧ ((float_gt_int (box_dist box) max_dist_km = true
            ∧ station' = station
            ∧ moving_stations' = {[ Station.id station ]} ∪ moving_stations)
           ∨ (float_gt_int (box_dist box) max_dist_km = false
              ∧ new_total ≠ 0
              ∧ station'
                = store_box station n box backfill
                    ((lat * old_length + sum (measures.*1) / n * n)
                     / new_total)
                    ((lon * old_length + sum (measures.*2) / n * n)
                     / new_total)
                    new_total
              ∧ moving_stations' = moving_stations)))
     ∨ (∃ box,
          truthy (Station.lat station) && truthy (Station.lon station)
          = false
          ∧ extremes station (measures.*1) (measures.*2) = Ok box
          ∧ station'
            = store_box station n box backfill
                (sum (measures.*1) / n) (sum (measures.*2) / n)
                (Station.total_measures station)
          ∧ moving_stations' = moving_stations)).
Proof.
  intros Hcalc n new_total old_length.
  assert (measures ≠ []) as Hne.
  { intros ->. discriminate Hcalc. }
  split; [done|]. revert Hcalc. unfold calculate_new_position.
  rewrite !floordiv_Ok, !bind_Ok by by apply len_nonempty.
  destruct (Station.lat station) as [lat|] eqn:Hlat,
           (Station.lon station) as [lon|] eqn:Hlon.
  - destruct (truthy (Some lat) && truthy (Some lon)) eqn:Htruthy.
    + apply andb_true_iff in Htruthy as [Hlat0 Hlon0].
      apply bool_decide_eq_true in Hlat0, Hlon0.
      intros H. apply bind_Ok_inv in H as (box & Hbox & H).
      left. exists lat, lon, box. do 5 (split; [done|]).
      destruct (float_gt_int (box_dist box) max_dist_km).
      * left. injection H as <- <-. done.
      * right. cbv zeta in H.
        apply bind_Ok_inv in H as (lat' & [Htotal ->]%floordiv_Ok_inv & H).
        apply bind_Ok_inv in H as (lon' & [_ ->]%floordiv_Ok_inv & H).
        injection H as <- <-. done.
    + intros H. apply bind_Ok_inv in H as (box & Hbox & H).
      injection H as <- <-. right. by exists box.
  - intros H. apply bind_Ok_inv in H as (box & Hbox & H).
    injection H as <- <-. right. exists box. by rewrite andb_false_r.
  - intros H. apply bind_Ok_inv in H as (box & Hbox & H).
    injection H as <- <-. right. by exists box.
  - intros H. apply bind_Ok_inv in H as (box & Hbox & H).
    injection H as <- <-. right. by exists box.
Qed.

(** X1: in backfill mode a station with an estimate whose extended box
    stays within the cap gets the mean weighted by its old total and
    the batch size; the total grows by the batch size and the new
    counter stays. *)
Theorem calculate_new_position_backfill {K} (station : Station.t K)
    measures moving_stations max_dist_km lat lon box :
  measures ≠ [] →
  Station.lat station = Some lat → lat ≠ 0 →
  Station.lon station = Some lon → lon ≠ 0 →
  extremes station (measures.*1 ++ [lat]) (measures.*2 ++ [lon]) = Ok box →
  float_gt_int (box_dist box) max_dist_km = false →
  Station.total_measures station + len measures ≠ 0 →
  let n := len measures in
  let total_measures := Station.total_measures station in
  ∃ station',
    calculate_new_position station measures moving_stations max_dist_km true
    = Ok (station', moving_stations)
    ∧ Station.lat station'
      = Some ((lat * total_measures + sum (measures.*1) / n * n)
              / (total_measures + n))
    ∧ Station.lon station'
      = Some ((lon * total_measures + sum (measures.*2) / n * n)
              / (total_measures + n))
    ∧ Station.new_measures station' = Station.new_measures station
    ∧ Station.total_measures station' = total_measures + n.
Proof.
  intros Hm Hlat Hlat0 Hlon Hlon0 Hbox Hnear Htotal n total_measures.
  rewrite (calculate_new_position_existing _ _ _ _ _ lat lon) by done.
  rewrite Hbox, bind_Ok, Hnear. cbv zeta.
  rewrite !floordiv_Ok, !bind_Ok by done.
  eexists. split; [reflexivity|].
  destruct box as [[[min_lat min_lon] max_lat] max_lon]. done.
Qed.

(** X2: the aggregator raises on an empty batch, returns whenever the batch
    is not empty and the new total is not zero, and raises nothing but
    [ZeroDivisionError]. *)
Theorem calculate_new_position_raises {K} (station : Station.t K)
    measures moving_stations max_dist_km backfill :
  (measures = [] →
   calculate_new_position station measures moving_stations max_dist_km
     backfill = Raise ZeroDivisionError)
  ∧ (measures ≠ [] →
     (if backfill then Station.total_measures station + len measures
      else Station.total_measures station) ≠ 0 →
     ∃ r, calculate_new_position station measures moving_stations
            max_dist_km backfill = Ok r)
  ∧ (∀ e, calculate_new_position station measures moving_stations
            max_dist_km backfill = Raise e →
          e = ZeroDivisionError).
Proof.
  split; [by intros ->|]. split.
  - intros Hne Htotal. unfold calculate_new_position.
    rewrite !floordiv_Ok, !bind_Ok by by apply len_nonempty.
    destruct (extremes_Ok station (measures.*1) (measures.*2))
      as [box Hbox]; [by destruct measures..|].
    destruct (Station.lat station) as [lat|],
             (Station.lon station) as [lon|];
      rewrite ?Hbox, ?bind_Ok; eauto.
    destruct (extremes_Ok station (measures.*1 ++ [lat])
                (measures.*2 ++ [lon])) as [box' Hbox'];
      [by destruct measures..|].
    rewrite Hbox'. destruct (_ && _); rewrite ?bind_Ok; [|by eauto].
    destruct (float_gt_int _ _); [by eauto|]. cbv zeta.
    rewrite !floordiv_Ok, !bind_Ok by done. eauto.
  - intros e. destruct (decide (measures = [])) as [->|Hne].
    { by intros [= <-]. }
    unfold calculate_new_position.
    rewrite !floordiv_Ok, !bind_Ok by by apply len_nonempty.
    destruct (extremes_Ok station (measures.*1) (measures.*2))
      as [box Hbox]; [by destruct measures..|].
    destruct (Station.lat station) as [lat|],
             (Station.lon station) as [lon|];
      rewrite ?Hbox, ?bind_Ok; try done.
    destruct (extremes_Ok station (measures.*1 ++ [lat])
                (measures.*2 ++ [lon])) as [box' Hbox'];
      [by destruct measures..|].
    rewrite Hbox'. destruct (_ && _); rewrite ?bind_Ok; [|done].
    destruct (float_gt_int _ _); [done|]. cbv zeta.
    unfold floordiv. case_decide; [by intros [= <-]|].
    by rewrite !bind_Ok.
Qed.

Lemma extremes_spec {K} (station : Station.t K) latitudes longitudes
    min_lat min_lon max_lat max_lon :
  extremes station latitudes longitudes
  = Ok (min_lat, min_lon, max_lat, max_lon) →
  (∀ x, x ∈ latitudes → min_lat ≤ x ≤ max_lat)
  ∧ (∀ y, y ∈ longitudes → min_lon ≤ y ≤ max_lon)
  ∧ (∀ o, Station.min_lat station = Some o → min_lat ≤ o)
  ∧ (∀ o, Station.min_lon station = Some o → min_lon ≤ o)
  ∧ (∀ o, Station.max_lat station = Some o → o ≤ max_lat)
  ∧ (∀ o, Station.max_lon station = Some o → o ≤ max_lon).
Proof.
  unfold extremes. intros H.
  apply bind_Ok_inv in H as (a & [Ha Ha']%extreme_Min_spec & H).
  apply bind_Ok_inv in H as (b & [Hb Hb']%extreme_Min_spec & H).
  apply bind_Ok_inv in H as (c & [Hc Hc']%extreme_Max_spec & H).
  apply bind_Ok_inv in H as (d & [Hd Hd']%extreme_Max_spec & H).
  injection H as <- <- <- <-. repeat split; auto.
Qed.

(** X3: the box a station gets from an update covers every measure of the
    batch and the box the station had; a moving station keeps its box. *)
Theorem calculate_new_position_box_grows {K} (station station' : Station.t K)
    measures moving_stations moving_stations' max_dist_km backfill :
  calculate_new_position station measures moving_stations max_dist_km backfill
  = Ok (station', moving_stations') →
  (station' = station
   ∧ moving_stations' = {[ Station.id station ]} ∪ moving_stations)
  ∨ (moving_stations' = moving_stations
     ∧ ∃ min_lat min_lon max_lat max_lon,
         Station.min_lat station' = Some min_lat
         ∧ Station.min_lon station' = Some min_lon
         ∧ Station.max_lat station' = Some max_lat
         ∧ Station.max_lon station' = Some max_lon
         ∧ (∀ m, m ∈ measures →
                 min_lat ≤ m.1 ≤ max_lat ∧ min_lon ≤ m.2 ≤ max_lon)
         ∧ (∀ o, Station.min_lat station = Some o → min_lat ≤ o)
         ∧ (∀ o, Station.min_lon station = Some o → min_lon ≤ o)
         ∧ (∀ o, Station.max_lat station = Some o → o ≤ max_lat)
         ∧ (∀ o, Station.max_lon station = Some o → o ≤ max_lon)).
Proof.
  intros Hcalc.
  apply calculate_new_position_cases in Hcalc as [Hne Hcases].
  cbv zeta in Hcases.
  assert (∀ (latitudes longitudes : list Z) box lat lon total,
    (∀ m : Z * Z, m ∈ measures → m.1 ∈ latitudes ∧ m.2 ∈ longitudes) →
    extremes station latitudes longitudes = Ok box →
    ∃ min_lat min_lon max_lat max_lon,
      Station.min_lat (store_box station (len measures) box backfill
                         lat lon total) = Some min_lat
      ∧ Station.min_lon (store_box station (len measures) box backfill
                           lat lon total) = Some min_lon
      ∧ Station.max_lat (store_box station (len measures) box backfill
                           lat lon total) = Some max_lat
      ∧ Station.max_lon (store_box station (len measures) box backfill
                           lat lon total) = Some max_lon
      ∧ (∀ m, m ∈ measures →
              min_lat ≤ m.1 ≤ max_lat ∧ min_lon ≤ m.2 ≤ max_lon)
      ∧ (∀ o, Station.min_lat station = Some o → min_lat ≤ o)
      ∧ (∀ o, Station.min_lon station = Some o → min_lon ≤ o)
      ∧ (∀ o, Station.max_lat station = Some o → o ≤ max_lat)
      ∧ (∀ o, Station.max_lon station = Some o → o ≤ max_lon)) as Hbox.
  { intros latitudes longitudes [[[a b] c] d] lat lon total Hin Hbox.
    apply extremes_spec in Hbox as (Hlat & Hlon & ? & ? & ? & ?).
    exists a, b, c, d. simpl. do 4 (split; [done|]). split; [|done].
    intros m Hm. destruct (Hin m Hm). auto. }
  destruct Hcases as [(lat & lon & box & _ & _ & _ & _ & Hext & Hcase)
                     |(box & _ & Hext & -> & ->)].
  - destruct Hcase as [(_ & -> & ->)|(_ & _ & -> & ->)]; [by left|].
    right. split; [done|]. eapply Hbox; [|done].
    intros m Hm. split; apply elem_of_app; left;
      apply list_elem_of_fmap; eauto.
  - right. split; [done|]. eapply Hbox; [|done].
    intros m Hm. split; apply list_elem_of_fmap; eauto.
Qed.

(** X4: after an update the position of the station lies inside its box,
    when the weight of the old position is not negative: in backfill
    mode [total_measures >= 0], in incremental mode a batch of at most
    [total_measures] measures. *)
Theorem calculate_new_position_inside_box {K} (station station' : Station.t K)
    measures moving_stations moving_stations' max_dist_km (backfill : bool) :
  0 ≤ (if backfill then Station.total_measures station
       else Station.total_measures station - len measures) →
  calculate_new_position station measures moving_stations max_dist_km backfill
  = Ok (station', moving_stations') →
  (station' = station
   ∧ moving_stations' = {[ Station.id station ]} ∪ moving_stations)
  ∨ (∃ lat lon min_lat min_lon max_lat max_lon,
       Station.lat station' = Some lat
       ∧ Station.lon station' = Some lon
       ∧ Station.min_lat station' = Some min_lat
       ∧ Station.min_lon station' = Some min_lon
       ∧ Station.max_lat station' = Some max_lat
       ∧ Station.max_lon station' = Some max_lon
       ∧ min_lat ≤ lat ≤ max_lat
       ∧ min_lon ≤ lon ≤ max_lon).
Proof.
  intros Hweight Hcalc.
  apply calculate_new_position_cases in Hcalc as [Hne Hcases].
  cbv zeta in Hcases.
  pose proof (len_nonempty measures Hne) as Hn.
  pose proof (len_nonneg measures) as Hn'.
  assert (measures.*1 ≠ [] ∧ measures.*2 ≠ []) as [Hne1 Hne2]
    by by destruct measures.
  assert (len measures = len (measures.*1)) as Hlen1
    by (unfold len; by rewrite length_fmap).
  assert (len measures = len (measures.*2)) as Hlen2
    by (unfold len; by rewrite length_fmap).
  destruct Hcases as [(lat & lon & [[[a b] c] d] & _ & _ & _ & _ & Hext
                       & Hcase)
                     |([[[a b] c] d] & _ & Hext & -> & ->)].
  - destruct Hcase as [(_ & -> & ->)|(_ & Htotal & -> & ->)]; [by left|].
    right. apply extremes_spec in Hext as (Hlat & Hlon & _).
    eexists _, _, a, b, c, d. simpl. do 6 (split; [done|]).
    split; apply weighted_mean_bounds; try (destruct backfill; lia).
    + apply Hlat, elem_of_app. right. left.
    + rewrite Hlen1. apply mean_bounds; [done|]. intros x Hx.
      apply Hlat, elem_of_app. by left.
    + apply Hlon, elem_of_app. right. left.
    + rewrite Hlen2. apply mean_bounds; [done|]. intros x Hx.
      apply Hlon, elem_of_app. by left.
  - right. apply extremes_spec in Hext as (Hlat & Hlon & _).
    eexists _, _, a, b, c, d. simpl. do 6 (split; [done|]).
    split; [rewrite Hlen1 | rewrite Hlen2]; by apply mean_bounds.
Qed.

(** ** LAC deriver: scan, errors, the dirty flag *)

Lemma scan_lacs_queue (lacs : list Cell) w :
  foldl (λ w lac,
           let k := Station.key lac in
           delay (update_lac_task (CellKey.radio k) (CellKey.mcc k)
                    (CellKey.mnc k) (CellKey.lac k)) w) w lacs
  = mkWorld (session w) (database w)
      (queue w ++
       ((λ lac, update_lac_task (CellKey.radio (Station.key lac))
                  (CellKey.mcc (Station.key lac))
                  (CellKey.mnc (Station.key lac))
                  (CellKey.lac (Station.key lac))) <$> lacs)).
Proof.
  revert w. induction lacs as [|lac lacs IH]; intros w; simpl.
  - rewrite app_nil_r. by destruct w.
  - rewrite IH. unfold delay. simpl. by rewrite <- app_assoc.
Qed.

(** X5: [scan_lacs] writes no table; it appends to the queue one
    [update_lac] task per selected row, at most [batch] of them, each
    for an area whose virtual row has [new_measures > 0]; it returns
    their number, and with room in the batch no such row is left out. *)
Theorem scan_lacs_enqueues batch w :
  let w' := (scan_lacs batch w).1 in
  let n := (scan_lacs batch w).2 in
  let dirty :=
    filter (λ c, CellKey.cid (Station.key c) = CELLID_LAC
                 ∧ Station.new_measures c > 0)
           (t_cell (session w)) in
  ∃ tasks,
    session w' = session w
    ∧ database w' = session w
    ∧ queue w' = queue w ++ tasks
    ∧ n = len tasks
    ∧ (length tasks ≤ batch)%nat
    ∧ (∀ t, t ∈ tasks →
         ∃ lac, lac ∈ t_cell (session w)
                ∧ CellKey.cid (Station.key lac) = CELLID_LAC
                ∧ Station.new_measures lac > 0
                ∧ t = update_lac_task (CellKey.radio (Station.key lac))
                        (CellKey.mcc (Station.key lac))
                        (CellKey.mnc (Station.key lac))
                        (CellKey.lac (Station.key lac)))
    ∧ ((length dirty ≤ batch)%nat →
       ∀ lac, lac ∈ t_cell (session w) →
              CellKey.cid (Station.key lac) = CELLID_LAC →
              Station.new_measures lac > 0 →
              update_lac_task (CellKey.radio (Station.key lac))
                (CellKey.mcc (Station.key lac))
                (CellKey.mnc (Station.key lac))
                (CellKey.lac (Station.key lac)) ∈ tasks).
Proof.
  unfold scan_lacs. cbv zeta. simpl. rewrite scan_lacs_queue. simpl.
  eexists. do 3 (split; [reflexivity|]).
  split; [unfold len; by rewrite length_fmap|].
  split; [rewrite length_fmap, length_take; lia|]. split.
  - intros t (lac & -> & Hlac)%list_elem_of_fmap.
    apply subseteq_take, list_elem_of_filter in Hlac as [[? ?] ?].
    by exists lac.
  - intros Hroom lac Hin Hcid Hnew. apply list_elem_of_fmap.
    exists lac. split; [done|]. rewrite take_ge by done.
    by apply list_elem_of_filter.
Qed.

(** X6: [update_lac] raises [ValueError] for an area without a cell other
    than the virtual one, and [TypeError] for an area with a cell that
    has no position. *)
Theorem update_lac_raises radio mcc mnc lac w :
  let cells :=
    filter (λ c, in_lac radio mcc mnc lac c
                 ∧ CellKey.cid (Station.key c) ≠ CELLID_LAC)
           (t_cell (session w)) in
  (cells = [] → update_lac radio mcc mnc lac w = Raise ValueError)
  ∧ (Exists (λ c, Station.lat c = None ∨ Station.lon c = None) cells →
     update_lac radio mcc mnc lac w = Raise TypeError).
Proof.
  intros cells. split.
  - intros Hcells. unfold update_lac. fold cells. by rewrite Hcells.
  - intros Hnone. unfold update_lac. fold cells.
    assert (for_all (λ c : Cell,
              lat ← required (Station.lat c);
              lon ← required (Station.lon c);
              mret (to_degrees lat, to_degrees lon)) cells
            = Raise TypeError) as ->; [|done].
    induction Hnone as [c rest [Hc|Hc]|c rest Hrest IH]; simpl.
    + by rewrite Hc.
    + rewrite Hc. by destruct (Station.lat c).
    + rewrite IH. by destruct (Station.lat c), (Station.lon c).
Qed.

(** X7: after [update_lac] has rewritten the only virtual row of an area,
    no virtual row of the area has [new_measures > 0], so a following
    [scan_lacs] does not enqueue the area again. *)
Theorem update_lac_clears_flag radio mcc mnc lac w w' row batch :
  filter (λ c, in_lac radio mcc mnc lac c
               ∧ CellKey.cid (Station.key c) = CELLID_LAC)
         (t_cell (session w)) = [row] →
  update_lac radio mcc mnc lac w = Ok w' →
  (∀ c, c ∈ t_cell (session w') →
        in_lac radio mcc mnc lac c →
        CellKey.cid (Station.key c) = CELLID_LAC →
        Station.new_measures c = 0)
  ∧ update_lac_task radio mcc mnc lac
    ∉ drop (length (queue w')) (queue (scan_lacs batch w').1).
Proof.
  intros Hrow Hrun.
  assert (∀ c, c ∈ t_cell (session w') →
               in_lac radio mcc mnc lac c →
               CellKey.cid (Station.key c) = CELLID_LAC →
               Station.new_measures c = 0) as Hclean.
  { destruct (update_lac_present_row _ _ _ _ _ _ _ _ Hrow Hrun)
      as (row' & -> & Hid & Hkey & Hnew & _).
    intros c Hc Harea Hcid. simpl in Hc. unfold flush in Hc.
    apply list_elem_of_fmap in Hc as (c0 & -> & Hc0).
    case_decide as Hsame; [done|].
    assert (c0 ∈ [row]) as Hin.
    { rewrite <- Hrow. by apply list_elem_of_filter. }
    apply list_elem_of_singleton in Hin as ->. done. }
  split; [done|]. unfold scan_lacs. cbv zeta. simpl.
  rewrite scan_lacs_queue. simpl. rewrite drop_app_length.
  intros (c & Heq & Hc)%list_elem_of_fmap.
  apply subseteq_take, list_elem_of_filter in Hc as [[Hcid Hnew] Hc].
  injection Heq as -> -> -> ->.
  rewrite (Hclean c) in Hnew; [lia|done| |done]. by unfold in_lac.
Qed.

(** ** The removers and the blacklist *)

Lemma with_wifi_id f d : f (t_wifi d) = t_wifi d → with_wifi f d = d.
Proof. destruct d; unfold with_wifi; simpl; intros ->; done. Qed.

Lemma len_filter_split {A} (P Q : A → Prop) `{∀ x, Decision (P x)}
    `{∀ x, Decision (Q x)} (l : list A) :
  (∀ x, Q x ↔ ¬ P x) →
  len (filter P l) + len (filter Q l) = len l.
Proof.
  intros HQ. unfold len. induction l as [|x l IH]; [done|].
  rewrite !filter_cons.
  destruct (decide (P x)) as [HP|HP], (decide (Q x)) as [Hq|Hq];
    cbn [length]; try lia.
  - by apply HQ in Hq.
  - by apply HQ in HP.
Qed.

(** X8: [remove_wifi] deletes the rows whose key is one of the keys and no
    other, returns their number and commits; run again on its result
    it deletes nothing and returns 0. *)
Theorem remove_wifi_removes wifi_keys w :
  let w' := (Remover.remove_wifi wifi_keys w).1 in
  let wifis := (Remover.remove_wifi wifi_keys w).2 in
  (∀ r, r ∈ t_wifi (session w')
        ↔ r ∈ t_wifi (session w) ∧ Station.key r ∉ wifi_keys)
  ∧ wifis = len (t_wifi (session w)) - len (t_wifi (session w'))
  ∧ database w' = session w'
  ∧ Remover.remove_wifi wifi_keys w' = (w', 0).
Proof.
  cbn zeta. unfold Remover.remove_wifi. cbn [fst snd].
  split_and!.
  - intros r. cbn. destruct (session w); cbn. rewrite list_elem_of_filter. rewrite (elem_of_list_to_set (C:=gset string)). split; intros [? ?]; done.
  - cbn. destruct (session w) as [? wf ? ? ? ? ? ? ?]; cbn.
    rewrite <- (len_filter_split
      (λ r : Wifi, Station.key r ∈ (list_to_set wifi_keys : gset string))
      (λ r : Wifi, Station.key r ∉ (list_to_set wifi_keys : gset string))
      wf) by done.
    lia.
  - done.
  - f_equal.
    + unfold commit, on_session; cbn. destruct (session w) as [? wf ? ? ? ? ? ? ?]; cbn.
      unfold with_wifi; cbn. rewrite list_filter_filter.
      assert (Hf : filter (λ a : Wifi, (Station.key a ∉ (list_to_set wifi_keys : gset string)) ∧ Station.key a ∉ (list_to_set wifi_keys : gset string)) wf = filter (λ r : Wifi, Station.key r ∉ (list_to_set wifi_keys : gset string)) wf) by (apply list_filter_iff; intros x; split; [by intros [? _]|by intros ?]).
      by rewrite Hf.
    + cbn. destruct (session w) as [? wf ? ? ? ? ? ? ?]; cbn.
      rewrite list_filter_filter.
      replace (filter _ wf) with (@nil Wifi); [done|].
      symmetry. induction wf as [|x wf IH]; [done|].
      rewrite filter_cons. destruct (decide _) as [[? ?]|]; [done|]. apply IH.
Qed.

Lemma same_area_area key (c : Cell) :
  Remover.same_area key c ↔ Remover.area (Station.key c) = Remover.area key.
Proof.
  unfold Remover.same_area, Remover.area. split.
  - intros (-> & -> & -> & ->). done.
  - intros [= -> -> -> ->]. done.
Qed.

Lemma remove_cell_key_from d n key c' :
  c' ∈ t_cell (Remover.remove_cell_key CELLID_LAC (d, n) key).1 →
  ∃ c, c ∈ t_cell d ∧ Station.key c ≠ key
       ∧ (c' = c
          ∨ (Remover.same_area key c
             ∧ CellKey.cid (Station.key c) = CELLID_LAC
             ∧ c' = Remover.dirty c)).
Proof.
  unfold Remover.remove_cell_key. cbn [fst].
  destruct d as [cells ? ? ? ? ? ? ? ?]. cbn [with_cell t_cell].
  destruct (decide _) as [Hn|Hn]; cbn [with_cell t_cell].
  - rewrite !list_elem_of_filter. intros (_ & Hk & Hc).
    exists c'. split_and!; [done|done|by left].
  - rewrite list_elem_of_fmap. intros (c & -> & Hc).
    apply list_elem_of_filter in Hc as [Hk Hc].
    exists c. split_and!; [done|done|].
    destruct (decide _) as [[? ?]|]; [right|left]; done.
Qed.

Lemma remove_cell_key_keeps d n key c :
  c ∈ t_cell d → Station.key c ≠ key →
  ¬ (Remover.same_area key c ∧ CellKey.cid (Station.key c) = CELLID_LAC) →
  c ∈ t_cell (Remover.remove_cell_key CELLID_LAC (d, n) key).1.
Proof.
  intros Hc Hk Hv.
  unfold Remover.remove_cell_key. cbn [fst].
  destruct d as [cells ? ? ? ? ? ? ? ?]. cbn [with_cell t_cell] in *.
  destruct (decide _) as [Hn|Hn]; cbn [with_cell t_cell].
  - rewrite !list_elem_of_filter. done.
  - rewrite list_elem_of_fmap. exists c. split.
    + by rewrite decide_False.
    + by apply list_elem_of_filter.
Qed.

Lemma remove_cell_key_last d n key :
  (∀ c, c ∈ t_cell d → Remover.same_area key c →
        CellKey.cid (Station.key c) ≠ CELLID_LAC → Station.key c = key) →
  ∀ c', c' ∈ t_cell (Remover.remove_cell_key CELLID_LAC (d, n) key).1 →
        ¬ Remover.same_area key c'.
Proof.
  intros Hall c'.
  unfold Remover.remove_cell_key. cbn [fst].
  destruct d as [cells ? ? ? ? ? ? ? ?]. cbn [with_cell t_cell] in *.
  destruct (decide _) as [Hn|Hn]; cbn [with_cell t_cell].
  - rewrite !list_elem_of_filter. intros (Hv & Hk & Hc) Ha.
    destruct (decide (CellKey.cid (Station.key c') = CELLID_LAC)) as [?|Hr].
    + by apply Hv.
    + by apply Hk, Hall.
  - exfalso. apply Hn. clear Hn.
    replace (filter _ (filter _ cells)) with (@nil Cell); [unfold len; cbn [length]; lia|].
    symmetry. rewrite list_filter_filter.
    induction cells as [|x cells IH]; [done|].
    rewrite filter_cons. destruct (decide _) as [[[Ha Hr] Hk]|].
    + exfalso. apply Hk. apply Hall; [left|done|done].
    + apply IH. intros c Hc. apply Hall. by right.
Qed.

Lemma remove_cell_key_sibling d n key s :
  s ∈ t_cell d → Station.key s ≠ key → Remover.same_area key s →
  CellKey.cid (Station.key s) ≠ CELLID_LAC →
  ∀ c', c' ∈ t_cell (Remover.remove_cell_key CELLID_LAC (d, n) key).1 →
        Remover.same_area key c' →
        CellKey.cid (Station.key c') = CELLID_LAC →
        Station.new_measures c' = 1.
Proof.
  intros Hs Hk Ha Hr c'.
  unfold Remover.remove_cell_key. cbn [fst].
  destruct d as [cells ? ? ? ? ? ? ? ?]. cbn [with_cell t_cell] in *.
  destruct (decide _) as [Hn|Hn]; cbn [with_cell t_cell].
  - exfalso.
    assert (Hin : s ∈ filter (λ c : Cell, Remover.same_area key c
                     ∧ CellKey.cid (Station.key c) ≠ CELLID_LAC)
                    (filter (λ c, ¬ join_cellkey Station.key key c) cells)).
    { rewrite !list_elem_of_filter. done. }
    destruct (filter _ (filter _ cells)); [by apply elem_of_nil in Hin|].
    unfold len in Hn. cbn [length] in Hn. lia.
  - rewrite list_elem_of_fmap. intros (c & -> & Hc).
    destruct (decide _) as [?|Hv]; [done|].
    intros ? ?. by destruct Hv.
Qed.

Lemma remove_cell_key_count d n key :
  (Remover.remove_cell_key CELLID_LAC (d, n) key).2
  = n + len (filter (λ c : Cell, Station.key c = key) (t_cell d)).
Proof. unfold Remover.remove_cell_key. cbn [snd]. done. Qed.


Lemma remove_cell_session cell_keys w :
  session (Remover.remove_cell CELLID_LAC cell_keys w).1
  = (foldl (Remover.remove_cell_key CELLID_LAC) (session w, 0) cell_keys).1.
Proof.
  unfold Remover.remove_cell. by destruct (foldl _ _ _) as [d n].
Qed.

Lemma remove_cell_returned cell_keys w :
  (Remover.remove_cell CELLID_LAC cell_keys w).2
  = (foldl (Remover.remove_cell_key CELLID_LAC) (session w, 0) cell_keys).2.
Proof.
  unfold Remover.remove_cell. by destruct (foldl _ _ _) as [d n].
Qed.

Lemma remove_cell_keys_from cell_keys st c' :
  c' ∈ t_cell (foldl (Remover.remove_cell_key CELLID_LAC) st cell_keys).1 →
  ∃ c, c ∈ t_cell st.1 ∧ (Station.key c ∉ cell_keys)
       ∧ (c' = c
          ∨ (CellKey.cid (Station.key c) = CELLID_LAC ∧ c' = Remover.dirty c)).
Proof.
  revert st. induction cell_keys as [|k ks IH]; intros st; cbn [foldl].
  - intros Hc. exists c'. split_and!; [done|apply not_elem_of_nil|by left].
  - intros Hc. apply IH in Hc as (c1 & Hc1 & Hks & Hc').
    destruct st as [d n].
    apply remove_cell_key_from in Hc1 as (c & Hc & Hk & Hc1).
    exists c. cbn [fst].
    assert (Hkey : Station.key c1 = Station.key c).
    { destruct Hc1 as [->|(_ & _ & ->)]; done. }
    split_and!; [done| |].
    + rewrite <- Hkey. rewrite elem_of_cons. intros [Heq|?]; [|done].
      apply Hk. by rewrite <- Hkey.
    + destruct Hc' as [->|[Hv ->]], Hc1 as [->|(_ & Hv' & ->)];
        [by left|by right|by right|by right].
Qed.

Lemma remove_cell_keys_keeps cell_keys st c :
  c ∈ t_cell st.1 → Station.key c ∉ cell_keys →
  CellKey.cid (Station.key c) ≠ CELLID_LAC →
  c ∈ t_cell (foldl (Remover.remove_cell_key CELLID_LAC) st cell_keys).1.
Proof.
  revert st. induction cell_keys as [|k ks IH]; intros st; cbn [foldl];
    [done|].
  intros Hc Hk Hr. apply not_elem_of_cons in Hk as [Hk Hks].
  apply IH; [|done|done]. destruct st as [d n].
  apply remove_cell_key_keeps; [done|done|]. by intros [_ ?].
Qed.

(** X9: [remove_cell]: no row with one of the keys is left; a row that is
    left was there before, unchanged or, for a virtual row, with
    [new_measures] set to 1; a real cell with another key is kept; the
    result is committed. *)
Theorem remove_cell_removes cell_keys w :
  let w' := (Remover.remove_cell CELLID_LAC cell_keys w).1 in
  (∀ c', c' ∈ t_cell (session w') →
     (Station.key c' ∉ cell_keys)
     ∧ ∃ c, c ∈ t_cell (session w)
            ∧ (c' = c
               ∨ (CellKey.cid (Station.key c) = CELLID_LAC
                  ∧ c' = Remover.dirty c)))
  ∧ (∀ c, c ∈ t_cell (session w) → Station.key c ∉ cell_keys →
          CellKey.cid (Station.key c) ≠ CELLID_LAC →
          c ∈ t_cell (session w'))
  ∧ database w' = session w'.
Proof.
  cbn zeta. split_and!.
  - intros c'. rewrite remove_cell_session. intros Hc.
    apply remove_cell_keys_from in Hc as (c & Hc & Hk & Hc').
    split.
    + by destruct Hc' as [->|[_ ->]].
    + by exists c.
  - intros c Hc Hk Hr. rewrite remove_cell_session.
    by apply remove_cell_keys_keeps.
  - unfold Remover.remove_cell. by destruct (foldl _ _ _) as [d n].
Qed.

Lemma remove_cell_keys_other_area a cell_keys st c' :
  Forall (λ k, Remover.area k ≠ a) cell_keys →
  c' ∈ t_cell (foldl (Remover.remove_cell_key CELLID_LAC) st cell_keys).1 →
  Remover.area (Station.key c') = a →
  c' ∈ t_cell st.1.
Proof.
  revert st. induction cell_keys as [|k ks IH]; intros st; cbn [foldl];
    [done|].
  intros Hks Hc Ha. apply Forall_cons in Hks as [Hk Hks].
  specialize (IH _ Hks Hc Ha). destruct st as [d n].
  apply remove_cell_key_from in IH as (c & Hc0 & _ & [->|(Hs & _ & ->)]);
    [done|].
  apply same_area_area in Hs. cbn in Ha. congruence.
Qed.

Lemma remove_cell_keys_last a cell_keys st :
  Exists (λ k, Remover.area k = a) cell_keys →
  (∀ c, c ∈ t_cell st.1 → Remover.area (Station.key c) = a →
        CellKey.cid (Station.key c) ≠ CELLID_LAC →
        Station.key c ∈ cell_keys) →
  ∀ c', c' ∈ t_cell (foldl (Remover.remove_cell_key CELLID_LAC) st
                       cell_keys).1 →
        Remover.area (Station.key c') ≠ a.
Proof.
  revert st. induction cell_keys as [|k ks IH]; intros st; cbn [foldl].
  { intros H. by apply Exists_nil in H. }
  intros Hex Hall c' Hc'. destruct st as [d n].
  destruct (decide (Exists (λ k, Remover.area k = a) ks)) as [Hks|Hks].
  - eapply IH; [done| |done].
    intros c Hc Ha Hr.
    apply remove_cell_key_from in Hc as (c0 & Hc0 & Hk & [->|(_ & Hv & ->)]);
      [|done].
    specialize (Hall _ Hc0 Ha Hr). apply elem_of_cons in Hall as [?|?]; done.
  - apply Exists_cons in Hex as [Hk|?]; [|done].
    apply not_Exists_Forall in Hks; [|apply _].
    intros Ha.
    pose proof (remove_cell_keys_other_area a ks _ c'
                  ltac:(eapply Forall_impl; [exact Hks|done]) Hc' Ha) as Hin.
    revert Hin. cbn [fst]. intros Hin.
    eapply remove_cell_key_last in Hin.
    + apply Hin. apply same_area_area. congruence.
    + intros c Hc Hs Hr. apply same_area_area in Hs.
      assert (Hca : Remover.area (Station.key c) = a) by congruence.
      specialize (Hall _ Hc Hca Hr). apply elem_of_cons in Hall as [?|Hin']; [done|].
      exfalso. rewrite Forall_forall in Hks. by apply (Hks _ Hin').
Qed.

(** X11: [remove_cell], the last cells of an area: when every real cell of
    the area of one of the keys is removed, no row of the area is
    left, the virtual one included. *)
Theorem remove_cell_last_cell cell_keys key w :
  key ∈ cell_keys →
  (∀ c, c ∈ t_cell (session w) → Remover.same_area key c →
        CellKey.cid (Station.key c) ≠ CELLID_LAC →
        Station.key c ∈ cell_keys) →
  ∀ c', c' ∈ t_cell (session (Remover.remove_cell CELLID_LAC cell_keys w).1) →
        ¬ Remover.same_area key c'.
Proof.
  intros Hkey Hall c'. rewrite remove_cell_session. intros Hc' Hs.
  apply same_area_area in Hs. revert Hs.
  eapply (remove_cell_keys_last (Remover.area key) cell_keys (session w, 0));
    [|exact (λ c Hc Ha, Hall c Hc (proj2 (same_area_area key c) Ha))
     |exact Hc'].
  apply Exists_exists. by exists key.
Qed.

Lemma remove_cell_keys_sibling a cell_keys st s :
  Exists (λ k, Remover.area k = a) cell_keys →
  s ∈ t_cell st.1 → Remover.area (Station.key s) = a →
  CellKey.cid (Station.key s) ≠ CELLID_LAC →
  Station.key s ∉ cell_keys →
  ∀ c', c' ∈ t_cell (foldl (Remover.remove_cell_key CELLID_LAC) st
                       cell_keys).1 →
        Remover.area (Station.key c') = a →
        CellKey.cid (Station.key c') = CELLID_LAC →
        Station.new_measures c' = 1.
Proof.
  revert st. induction cell_keys as [|k ks IH]; intros st; cbn [foldl].
  { intros H. by apply Exists_nil in H. }
  intros Hex Hs Ha Hr Hk c' Hc' Ha' Hv. destruct st as [d n].
  apply not_elem_of_cons in Hk as [Hk Hks]. cbn [fst] in Hs.
  assert (Hs1 : s ∈ t_cell (Remover.remove_cell_key CELLID_LAC (d, n) k).1).
  { apply remove_cell_key_keeps; [done|done|]. by intros [_ ?]. }
  destruct (decide (Exists (λ k, Remover.area k = a) ks)) as [Hex'|Hex'].
  - by eapply (IH _ Hex' Hs1 Ha Hr Hks).
  - apply Exists_cons in Hex as [Hka|?]; [|done].
    apply not_Exists_Forall in Hex'; [|apply _].
    pose proof (remove_cell_keys_other_area a ks _ c'
                  ltac:(eapply Forall_impl; [exact Hex'|done]) Hc' Ha') as Hin.
    eapply (remove_cell_key_sibling d n k s); try done.
    + apply same_area_area. congruence.
    + apply same_area_area. congruence.
Qed.

(** X12: [remove_cell], an area that keeps a cell: a real cell of the area
    of one of the keys that has another key stays in the table, and
    every virtual row of that area that is left has [new_measures = 1],
    which makes [scan_lacs] pick it up. *)
Theorem remove_cell_sibling cell_keys key s w :
  key ∈ cell_keys →
  s ∈ t_cell (session w) → Remover.same_area key s →
  CellKey.cid (Station.key s) ≠ CELLID_LAC →
  Station.key s ∉ cell_keys →
  let w' := (Remover.remove_cell CELLID_LAC cell_keys w).1 in
  s ∈ t_cell (session w')
  ∧ ∀ c', c' ∈ t_cell (session w') → Remover.same_area key c' →
          CellKey.cid (Station.key c') = CELLID_LAC →
          Station.new_measures c' = 1.
Proof.
  intros Hkey Hs Ha Hr Hk. cbn zeta. rewrite remove_cell_session. split.
  - by apply remove_cell_keys_keeps.
  - intros c' Hc' Ha' Hv.
    eapply (remove_cell_keys_sibling (Remover.area key) cell_keys (session w, 0) s);
      [|exact Hs|by apply same_area_area|done|done|exact Hc'
       |by apply same_area_area|done].
    apply Exists_exists. by exists key.
Qed.


Lemma remove_cell_key_real d n key (ks : list CellKey.t) :
  Forall (λ k, CellKey.cid k ≠ CELLID_LAC) ks →
  filter (λ c : Cell, Station.key c ∈ ks)
         (t_cell (Remover.remove_cell_key CELLID_LAC (d, n) key).1)
  = filter (λ c : Cell, Station.key c ∈ ks)
           (filter (λ c : Cell, ¬ join_cellkey Station.key key c) (t_cell d)).
Proof.
  intros Hreal. rewrite Forall_forall in Hreal.
  unfold Remover.remove_cell_key. cbn [fst].
  destruct d as [cells ? ? ? ? ? ? ? ?]. cbn [with_cell t_cell].
  destruct (decide _) as [Hn|Hn]; cbn [with_cell t_cell].
  - rewrite list_filter_filter. apply list_filter_iff. intros c. split.
    + by intros [? _].
    + intros Hc. split; [done|]. intros [_ Hv]. by apply (Hreal _ Hc).
  - generalize (filter (λ c : Cell, ¬ join_cellkey Station.key key c) cells).
    intros l. induction l as [|c l IH]; [done|].
    rewrite fmap_cons, !filter_cons, IH.
    destruct (decide (Remover.same_area key c ∧ _)) as [[_ Hv]|_]; [|done].
    unfold Remover.dirty. cbn [Station.key].
    destruct (decide (Station.key c ∈ ks)) as [Hc|Hc]; [|done].
    by destruct (Hreal _ Hc).
Qed.

Lemma len_filter_cons_key (k : CellKey.t) ks (cells : list Cell) :
  len (filter (λ c : Cell, join_cellkey Station.key k c) cells)
  + len (filter (λ c : Cell, Station.key c ∈ ks)
           (filter (λ c : Cell, ¬ join_cellkey Station.key k c) cells))
  = len (filter (λ c : Cell, Station.key c ∈ k :: ks) cells).
Proof.
  unfold len, join_cellkey. induction cells as [|c cells IH]; [done|].
  rewrite !filter_cons.
  destruct (decide (Station.key c = k)) as [Hk|Hk].
  - rewrite (decide_True (P := Station.key c ∈ k :: ks)) by (rewrite Hk; left).
    rewrite decide_False by (by intros H; apply H).
    cbn [length]. lia.
  - rewrite (decide_True (P := ¬ Station.key c = k)) by done.
    rewrite filter_cons.
    destruct (decide (Station.key c ∈ ks)) as [Hc|Hc].
    + rewrite (decide_True (P := Station.key c ∈ k :: ks)) by (by right).
      cbn [length]. lia.
    + rewrite (decide_False (P := Station.key c ∈ k :: ks)); [lia|].
      intros [?|?]%elem_of_cons; done.
Qed.

Lemma remove_cell_keys_count cell_keys st :
  Forall (λ k, CellKey.cid k ≠ CELLID_LAC) cell_keys →
  (foldl (Remover.remove_cell_key CELLID_LAC) st cell_keys).2
  = st.2 + len (filter (λ c : Cell, Station.key c ∈ cell_keys) (t_cell st.1)).
Proof.
  revert st. induction cell_keys as [|k ks IH]; intros st Hreal; cbn [foldl].
  - replace (filter _ (t_cell st.1)) with (@nil Cell); [unfold len; cbn; lia|].
    symmetry. induction (t_cell st.1) as [|c l IHl]; [done|].
    rewrite filter_cons, decide_False; [done|apply not_elem_of_nil].
  - apply Forall_cons in Hreal as [Hk Hks]. rewrite IH by done.
    destruct st as [d n]. rewrite remove_cell_key_real by done.
    rewrite remove_cell_key_count. cbn [fst snd].
    rewrite <- len_filter_cons_key. unfold join_cellkey. lia.
Qed.

(** X10: [remove_cell], the value returned: when no key is that of a
    virtual row, it is the number of rows that carry one of the
    keys. *)
Theorem remove_cell_count cell_keys w :
  Forall (λ k, CellKey.cid k ≠ CELLID_LAC) cell_keys →
  (Remover.remove_cell CELLID_LAC cell_keys w).2
  = len (filter (λ c : Cell, Station.key c ∈ cell_keys) (t_cell (session w))).
Proof.
  intros Hreal. rewrite remove_cell_returned, remove_cell_keys_count by done.
  cbn [fst snd]. lia.
Qed.


Lemma remove_cell_key_frame d n key :
  let d' := (Remover.remove_cell_key CELLID_LAC (d, n) key).1 in
  t_cell_blacklist d' = t_cell_blacklist d ∧ t_wifi d' = t_wifi d
  ∧ t_wifi_blacklist d' = t_wifi_blacklist d
  ∧ t_cell_measure d' = t_cell_measure d
  ∧ t_wifi_measure d' = t_wifi_measure d
  ∧ t_measure_block d' = t_measure_block d.
Proof.
  cbn zeta. unfold Remover.remove_cell_key. cbn [fst].
  destruct d as [cells ? ? ? ? ? ? ? ?]; cbn [with_cell t_cell].
  by destruct (decide _).
Qed.

Lemma remove_cell_keys_frame cell_keys st :
  let d' := (foldl (Remover.remove_cell_key CELLID_LAC) st cell_keys).1 in
  t_cell_blacklist d' = t_cell_blacklist st.1 ∧ t_wifi d' = t_wifi st.1
  ∧ t_wifi_blacklist d' = t_wifi_blacklist st.1
  ∧ t_cell_measure d' = t_cell_measure st.1
  ∧ t_wifi_measure d' = t_wifi_measure st.1
  ∧ t_measure_block d' = t_measure_block st.1.
Proof.
  cbn zeta. revert st. induction cell_keys as [|k ks IH]; intros st;
    cbn [foldl]; [done|].
  destruct (IH (Remover.remove_cell_key CELLID_LAC st k))
    as (-> & -> & -> & -> & -> & ->).
  destruct st as [d n]. apply remove_cell_key_frame.
Qed.

(** X13: [mark_moving_cells] followed by the [remove_cell] task it hands to
    the worker: the key of every moving cell is on the blacklist; a
    moving cell whose key was not on the blacklist is gone from the
    cell table; a moving real cell whose key was on the blacklist
    already is not part of the task and stays. *)
Theorem mark_moving_cells_removes moving_cells w :
  let w1 := mark_moving_cells moving_cells w in
  ∃ moving_keys,
    queue w1 = queue w ++ [remove_cell moving_keys]
    ∧ t_cell (session w1) = t_cell (session w)
    ∧ database w1 = database w
    ∧ let w2 := (Remover.remove_cell CELLID_LAC moving_keys w1).1 in
      ∀ c, c ∈ t_cell (session w) → Station.id c ∈ moving_cells →
        Station.key c ∈ t_cell_blacklist (session w2)
        ∧ (Station.key c ∉ t_cell_blacklist (session w) →
           ∀ c', c' ∈ t_cell (session w2) → Station.key c' ≠ Station.key c)
        ∧ (Station.key c ∈ t_cell_blacklist (session w) →
           CellKey.cid (Station.key c) ≠ CELLID_LAC →
           c ∈ t_cell (session w2)).
Proof.
  cbn zeta. unfold mark_moving_cells.
  set (cells := filter (λ c : Cell, Station.id c ∈ moving_cells)
                  (t_cell (session w))).
  set (moving_keys := filter _ (Station.key <$> cells)).
  exists moving_keys.
  assert (Hkeys : ∀ k, k ∈ moving_keys ↔
            (∃ c, c ∈ t_cell (session w) ∧ Station.id c ∈ moving_cells
                  ∧ Station.key c = k)
            ∧ k ∉ t_cell_blacklist (session w)).
  { intros k. unfold moving_keys.
    rewrite list_elem_of_filter, list_elem_of_fmap, Exists_exists.
    unfold cells. setoid_rewrite list_elem_of_filter. split.
    - intros [Hb (c & -> & Hm & Hc)]. split; [by exists c|].
      intros Hin. apply Hb. by exists (Station.key c).
    - intros [(c & Hc & Hm & <-) Hb]. split; [|by exists c].
      intros (b & Hin & ->). done. }
  split_and!.
  - done.
  - cbn. by destruct (session w).
  - done.
  - intros c Hc Hm. rewrite !remove_cell_session.
    destruct (remove_cell_keys_frame moving_keys
      (session (delay (remove_cell moving_keys)
         (on_session (with_cell_blacklist (λ table, table ++ moving_keys)) w)),
       0)) as (Hbl & _).
    cbn zeta in Hbl. rewrite Hbl. clear Hbl. cbn [fst].
    assert (Hcell : t_cell (session (delay (remove_cell moving_keys)
              (on_session (with_cell_blacklist (λ table, table ++ moving_keys)) w)))
            = t_cell (session w)) by (cbn; by destruct (session w)).
    assert (Hblack : t_cell_blacklist (session (delay (remove_cell moving_keys)
              (on_session (with_cell_blacklist (λ table, table ++ moving_keys)) w)))
            = t_cell_blacklist (session w) ++ moving_keys)
      by (cbn; by destruct (session w)).
    rewrite Hblack. split_and!.
    + rewrite elem_of_app.
      destruct (decide (Station.key c ∈ t_cell_blacklist (session w)));
        [by left|right].
      apply Hkeys. split; [by exists c|done].
    + intros Hb c' Hc' Heq.
      apply remove_cell_keys_from in Hc' as (c0 & _ & Hk & Hc').
      apply Hk. replace (Station.key c0) with (Station.key c').
      * rewrite Heq. apply Hkeys. split; [by exists c|done].
      * by destruct Hc' as [->|[_ ->]].
    + intros Hb Hr. apply remove_cell_keys_keeps; [| |done].
      * cbn [fst]. by rewrite Hcell.
      * intros Hin. apply Hkeys in Hin as [_ ?]. done.
Qed.


Lemma with_wifi_blacklist_table f d :
  t_wifi_blacklist (with_wifi_blacklist f d) = f (t_wifi_blacklist d).
Proof. by destruct d. Qed.

(** X14: [mark_moving_wifis]: the key of every moving wifi is on the
    blacklist afterwards; the rows added are those of the moving keys
    that were not on it, each once, stamped with the current time,
    after the rows that were there; when there is none, nothing is
    written and no task is queued, else one [remove_wifi] task with
    exactly the added keys; keys that were distinct stay distinct. *)
Theorem mark_moving_wifis_blocks utcnow moving_wifis w :
  let w' := mark_moving_wifis utcnow moving_wifis w in
  let blocked := (t_wifi_blacklist (session w)).*1 in
  ∃ added,
    t_wifi_blacklist (session w')
    = t_wifi_blacklist (session w) ++ ((λ key, (key, utcnow)) <$> added)
    ∧ NoDup added
    ∧ (∀ k, k ∈ added ↔
         (∃ r, r ∈ t_wifi (session w) ∧ Station.id r ∈ moving_wifis
               ∧ Station.key r = k)
         ∧ k ∉ blocked)
    ∧ (added = [] → w' = w)
    ∧ (added ≠ [] → queue w' = queue w ++ [remove_wifi added])
    ∧ (NoDup blocked → NoDup (t_wifi_blacklist (session w')).*1).
Proof.
  cbn zeta. unfold mark_moving_wifis.
  set (moving_keys := (list_to_set (Station.key <$> _) : gset string)).
  set (already_blocked := (list_to_set (filter _ _) : gset string)).
  exists (elements (moving_keys ∖ already_blocked)).
  assert (Hadded : ∀ k, k ∈ elements (moving_keys ∖ already_blocked) ↔
            (∃ r, r ∈ t_wifi (session w) ∧ Station.id r ∈ moving_wifis
                  ∧ Station.key r = k)
            ∧ k ∉ (t_wifi_blacklist (session w)).*1).
  { intros k. rewrite elem_of_elements, elem_of_difference.
    unfold moving_keys, already_blocked.
    rewrite !elem_of_list_to_set.
    rewrite list_elem_of_filter, list_elem_of_fmap.
    setoid_rewrite list_elem_of_filter. split.
    - intros [(r & -> & Hm & Hr) Hb]. split; [by exists r|].
      intros Hin. apply Hb. split; [|done].
      unfold moving_keys. rewrite elem_of_list_to_set, list_elem_of_fmap.
      exists r. by rewrite list_elem_of_filter.
    - intros [(r & Hr & Hm & <-) Hb]. split; [by exists r|].
      by intros [_ ?]. }
  destruct (decide (moving_keys ∖ already_blocked = ∅)) as [He|He].
  - rewrite He, elements_empty. cbn [fmap list_fmap].
    rewrite app_nil_r. split_and!; try done.
    + apply NoDup_nil_2.
    + intros k. rewrite <- Hadded, He, elements_empty. done.
  - split_and!.
    + unfold delay, on_session; cbn [session].
      by rewrite with_wifi_blacklist_table.
    + apply NoDup_elements.
    + done.
    + intros Hnil. apply elements_empty_inv in Hnil.
      by apply leibniz_equiv in Hnil.
    + done.
    + intros Hnd. unfold delay, on_session; cbn [session].
      rewrite with_wifi_blacklist_table.
      rewrite fmap_app, <- list_fmap_compose.
      apply NoDup_app. split_and!; [done| |].
      * intros k Hk Hin. apply list_elem_of_fmap in Hin as (k' & -> & Hin).
        apply Hadded in Hin as [_ ?]. done.
      * replace (fst ∘ (λ key : string, (key, utcnow))) with (@id string)
          by done.
        rewrite list_fmap_id. apply NoDup_elements.
Qed.

(** ** The archival writer *)



Lemma block_zip_ext {K} csv_name (measure_cls : measure_model K) cmb d d' :
  measures_of measure_cls d = measures_of measure_cls d' →
  alembic_version d = alembic_version d' →
  block_zip csv_name measure_cls cmb d = block_zip csv_name measure_cls cmb d'.
Proof. unfold block_zip. by intros -> ->. Qed.

Lemma write_blocks_zips {K} utcnow zip_prefix csv_name
    (measure_cls : measure_model K) cleanup_zip blocks w zips :
  (foldl (λ st cmb,
            write_block utcnow zip_prefix csv_name measure_cls cleanup_zip
              cmb st)
         (w, zips) blocks).2
  = if cleanup_zip then zips
    else zips ++ ((λ b, basename (s3_key_format (strftime_Ym utcnow)
                                    zip_prefix (MeasureBlock.start_id b)
                                    (MeasureBlock.end_id b))) <$> blocks).
Proof.
  revert w zips. induction blocks as [|b blocks IH]; intros w zips;
    cbn [foldl].
  - destruct cleanup_zip; [done|]. by rewrite app_nil_r.
  - destruct (write_block _ _ _ _ _ b (w, zips)) as [w1 zips1] eqn:Hb.
    rewrite IH. unfold write_block in Hb.
    destruct cleanup_zip, (backup_archive _ _); simplify_eq;
      by rewrite ?fmap_cons, <- ?app_assoc.
Qed.

(** X15: the writer returns no path when it cleans up, and else one zip per
    selected block, in the order of the blocks, whether or not the
    upload of the block succeeded. *)
Theorem write_measure_s3_backups_zips {K} utcnow measure_type zip_prefix
    csv_name (measure_cls : measure_model K) cleanup_zip w :
  (write_measure_s3_backups utcnow measure_type zip_prefix csv_name
     measure_cls cleanup_zip w).2
  = if cleanup_zip then []
    else (λ b, basename (s3_key_format (strftime_Ym utcnow) zip_prefix
                           (MeasureBlock.start_id b) (MeasureBlock.end_id b)))
         <$> blocks_to_write measure_type (session w).
Proof.
  unfold write_measure_s3_backups. rewrite write_blocks_zips.
  by destruct cleanup_zip.
Qed.



(** X17: when the store takes the zip of the last selected block, everything
    the writer has put on the blocks is committed with it, also for the
    blocks whose own upload failed: each selected block is in the
    database with its key and its hash. *)
Theorem write_measure_s3_backups_commits {K} utcnow measure_type zip_prefix
    csv_name (measure_cls : measure_model K) cleanup_zip w earlier last :
  measure_table measure_cls →
  NoDup (MeasureBlock.id <$> t_measure_block (session w)) →
  blocks_to_write measure_type (session w) = earlier ++ [last] →
  backup_archive
    (s3_key_format (strftime_Ym utcnow) zip_prefix
       (MeasureBlock.start_id last) (MeasureBlock.end_id last))
    (block_zip csv_name measure_cls last (session w)) = true →
  let w' :=
    (write_measure_s3_backups utcnow measure_type zip_prefix csv_name
       measure_cls cleanup_zip w).1 in
  database w' = session w'
  ∧ ∀ b, b ∈ earlier ++ [last] →
      MeasureBlock.mk (MeasureBlock.id b) (MeasureBlock.measure_type b)
        (MeasureBlock.start_id b) (MeasureBlock.end_id b)
        (Some (s3_key_format (strftime_Ym utcnow) zip_prefix
                 (MeasureBlock.start_id b) (MeasureBlock.end_id b)))
        (Some (compute_hash (block_zip csv_name measure_cls b (session w))))
        (MeasureBlock.archive_date b)
      ∈ t_measure_block (database w').
Proof.
  intros Htable Hnodup Hsel Hlast. cbn zeta.
  assert (Hin : ∀ b, b ∈ earlier ++ [last] → b ∈ t_measure_block (session w)).
  { intros b Hb. rewrite <- Hsel in Hb. unfold blocks_to_write in Hb.
    rewrite merge_sort_Permutation in Hb.
    by apply list_elem_of_filter in Hb as [_ ?]. }
  destruct (write_blocks_spec utcnow zip_prefix csv_name measure_cls
              cleanup_zip (session w) (earlier ++ [last]) Htable Hnodup Hin
              w [] []) as (Hblocks & _).
  { symmetry. etrans; [|apply list_fmap_id].
    apply list_fmap_ext. intros i b _. rewrite decide_False; [done|].
    apply not_elem_of_nil. }
  { done. }
  { done. }
  cbn zeta in Hblocks. cbn [app] in Hblocks.
  assert (Hdb : database
            (write_measure_s3_backups utcnow measure_type zip_prefix csv_name
               measure_cls cleanup_zip w).1
          = session
              (write_measure_s3_backups utcnow measure_type zip_prefix
                 csv_name measure_cls cleanup_zip w).1).
  { unfold write_measure_s3_backups. rewrite Hsel, foldl_snoc.
    destruct (write_blocks_spec utcnow zip_prefix csv_name measure_cls
                cleanup_zip (session w) earlier Htable Hnodup
                (λ b Hb, Hin b (proj2 (elem_of_app _ _ _) (or_introl Hb)))
                w [] []) as (_ & Hrows & Hrev).
    { symmetry. etrans; [|apply list_fmap_id].
      apply list_fmap_ext. intros i b _. rewrite decide_False; [done|].
      apply not_elem_of_nil. }
    { done. }
    { done. }
    cbn zeta in Hrows, Hrev.
    destruct (foldl _ (w, []) earlier) as [w1 zips1]. cbn [fst] in *.
    unfold write_block.
    rewrite (block_zip_ext csv_name measure_cls last (session w1) (session w))
      by done.
    by rewrite Hlast. }
  split; [done|]. rewrite Hdb.
  intros b Hb. unfold write_measure_s3_backups. rewrite Hsel, Hblocks.
  apply list_elem_of_fmap. exists b. split; [|by apply Hin].
  rewrite decide_True; [done|]. apply list_elem_of_fmap. by exists b.
Qed.

(** ** The archival planner *)

Lemma first_of_sorted_inv (R : relation Z) `{∀ x y, Decision (R x y)}
    `{!Transitive R, !Total R, !Reflexive R} vals v :
  first_of (merge_sort R vals) = Ok v →
  v ∈ vals ∧ ∀ i, i ∈ vals → R v i.
Proof.
  intros Hfirst.
  pose proof (StronglySorted_merge_sort R vals) as Hsorted.
  pose proof (merge_sort_Permutation R vals) as Hperm.
  destruct (merge_sort R vals) as [|h rest]; [done|].
  injection Hfirst as ->.
  apply StronglySorted_inv in Hsorted as [_ Hh].
  rewrite Forall_forall in Hh. split.
  - rewrite <- Hperm. left.
  - intros i Hi. rewrite <- Hperm in Hi.
    apply elem_of_cons in Hi as [->|Hi]; [done|by apply Hh].
Qed.

Lemma first_of_nonempty (R : relation Z) `{∀ x y, Decision (R x y)} vals :
  vals ≠ [] → ∃ v, first_of (merge_sort R vals) = Ok v.
Proof.
  intros Hne. pose proof (merge_sort_Permutation R vals) as Hperm.
  destruct (merge_sort R vals) as [|h rest]; [|by exists h].
  by apply Permutation_nil_l in Hperm.
Qed.

(** X18: with an empty measurement table the planner raises: [record[0]] is
    taken of the [None] that [first()] returns, whether or not blocks
    of the kind exist. *)
Theorem schedule_measure_archival_empty_table {K} fuel measure_type
    (measure_cls : measure_model K) w :
  measures_of measure_cls (session w) = [] →
  schedule_measure_archival fuel measure_type measure_cls w
  = Some (Raise TypeError).
Proof.
  intros Hempty. unfold schedule_measure_archival. rewrite Hempty.
  cbn [fmap list_fmap].
  change (merge_sort Z.ge []) with (@nil Z).
  change (merge_sort Z.le []) with (@nil Z).
  by destruct (merge_sort Z.ge _).
Qed.

(** X19: with a block size of zero the planner does not return: whenever the
    table has a measurement and no block of the kind ends beyond the
    last id, the loop is still running after any number of turns. *)
Theorem schedule_measure_archival_zero_batch_loops {K} measure_type
    (measure_cls : measure_model K) w :
  batch_size = 0 →
  let ids := Measure.id <$> measures_of measure_cls (session w) in
  let ends :=
    MeasureBlock.end_id <$>
    filter (λ b, MeasureBlock.measure_type b = measure_type)
           (t_measure_block (session w)) in
  ids ≠ [] →
  (∀ e, e ∈ ends → ∃ i, i ∈ ids ∧ e ≤ i) →
  ∀ fuel,
    schedule_measure_archival fuel measure_type measure_cls w = None.
Proof.
  intros Hzero ids ends Hne Hends fuel.
  unfold schedule_measure_archival. fold ids. fold ends.
  destruct (first_of_nonempty Z.ge ids Hne) as [max_id Hmax].
  rewrite Hmax.
  destruct (first_of_sorted_inv Z.ge ids max_id Hmax) as [Hmax_in Hle].
  assert (∃ min_id,
            match merge_sort Z.ge ends with
            | [] => first_of (merge_sort Z.le ids)
            | last_end :: _ => mret (last_end + 1)
            end = Ok min_id ∧ min_id - 1 ≤ max_id) as (min_id & -> & Hmin).
  { destruct (merge_sort Z.ge ends) as [|last_end rest] eqn:Hsort.
    - destruct (first_of_nonempty Z.le ids Hne) as [min_id Hmin].
      exists min_id. split; [done|].
      destruct (first_of_sorted_inv Z.le ids min_id Hmin) as [Hmin_in _].
      specialize (Hle _ Hmin_in). lia.
    - exists (last_end + 1). split; [done|].
      assert (last_end ∈ ends) as Hin.
      { rewrite <- (merge_sort_Permutation Z.ge ends), Hsort. left. }
      destruct (Hends _ Hin) as (i & Hi & Hei).
      specialize (Hle _ Hi). lia. }
  rewrite decide_False by lia.
  replace (min_id + batch_size - 1) with (min_id - 1) by lia.
  by rewrite carve_zero_batch.
Qed.

Lemma schedule_measure_archival_run {K} fuel measure_type
    (measure_cls : measure_model K) w max_id min_id :
  let ids := Measure.id <$> measures_of measure_cls (session w) in
  let ends :=
    MeasureBlock.end_id <$>
    filter (λ b, MeasureBlock.measure_type b = measure_type)
           (t_measure_block (session w)) in
  max_id ∈ ids → (∀ i, i ∈ ids → i ≤ max_id) →
  (if decide (ends = []) then min_id ∈ ids ∧ ∀ i, i ∈ ids → min_id ≤ i
   else min_id - 1 ∈ ends ∧ ∀ e, e ∈ ends → e ≤ min_id - 1) →
  schedule_measure_archival fuel measure_type measure_cls w
  = if decide (max_id - min_id + 1 < batch_size) then Some (Ok (w, []))
    else '(w, blocks) ←
           carve fuel measure_type max_id min_id
             (min_id + batch_size - 1) (w, []);
         Some (Ok (commit w, blocks)).
Proof.
  intros ids ends Hmax_in Hmax Hmin.
  unfold schedule_measure_archival. fold ids.
  rewrite (first_of_sorted Z.ge ids max_id)
    by (done || intros; apply Z.le_ge; auto).
  fold ends. destruct (decide (ends = [])) as [Hends|Hends].
  - rewrite Hends. destruct Hmin as [Hmin_in Hmin].
    change (merge_sort Z.ge []) with (@nil Z).
    by rewrite (first_of_sorted Z.le ids min_id).
  - destruct Hmin as [Hlast_in Hlast].
    pose proof (first_of_sorted Z.ge ends (min_id - 1) Hlast_in) as Hfirst.
    destruct (merge_sort Z.ge ends) as [|last_end ?].
    + discriminate Hfirst. intros. apply Z.le_ge. auto.
    + simpl in Hfirst. assert (last_end = min_id - 1) as ->.
      { cut (Ok last_end = Ok (min_id - 1)); [congruence|].
        apply Hfirst. intros. apply Z.le_ge. auto. }
      simpl. by replace (min_id - 1 + 1) with min_id by lia.
Qed.

Lemma filter_Forall_id {A} (P : A → Prop) `{∀ x, Decision (P x)} (l : list A) :
  Forall P l → filter P l = l.
Proof.
  induction 1 as [|x l Hx Hl IH]; [done|].
  by rewrite filter_cons_True, IH.
Qed.

Lemma with_measure_block_table f d :
  t_measure_block (with_measure_block f d) = f (t_measure_block d).
Proof. by destruct d. Qed.

(** X20: a run of the planner leaves nothing for the next one: on the state
    it commits, a second run, with any fuel, emits no block and writes
    nothing. *)
Theorem schedule_measure_archival_second_run {K} measure_type
    (measure_cls : measure_model K) w max_id min_id :
  measure_table measure_cls →
  0 < batch_size →
  let ids := Measure.id <$> measures_of measure_cls (session w) in
  let ends :=
    MeasureBlock.end_id <$>
    filter (λ b, MeasureBlock.measure_type b = measure_type)
           (t_measure_block (session w)) in
  max_id ∈ ids → (∀ i, i ∈ ids → i ≤ max_id) →
  (if decide (ends = []) then min_id ∈ ids ∧ ∀ i, i ∈ ids → min_id ≤ i
   else min_id - 1 ∈ ends ∧ ∀ e, e ∈ ends → e ≤ min_id - 1) →
  let count := Z.to_nat ((max_id - min_id + 1) / batch_size) in
  ∀ fuel, (count ≤ fuel)%nat →
  ∃ w',
    schedule_measure_archival fuel measure_type measure_cls w
    = Some (Ok (w', block_ranges min_id count))
    ∧ ∀ fuel',
        schedule_measure_archival fuel' measure_type measure_cls w'
        = Some (Ok (w', [])).
Proof.
  intros Htable Hbs ids ends Hmax_in Hmax Hmin count fuel Hfuel.
  pose proof (Z.div_mod (max_id - min_id + 1) batch_size) as Hdiv.
  pose proof (Z.mod_pos_bound (max_id - min_id + 1) batch_size) as Hmod.
  rewrite (schedule_measure_archival_run fuel measure_type measure_cls w
             max_id min_id) by done.
  destruct (decide (max_id - min_id + 1 < batch_size)) as [Hshort|Hfull].
  - assert (count = 0%nat) as -> by (subst count; nia).
    exists w. split; [done|]. intros fuel'.
    rewrite (schedule_measure_archival_run fuel' measure_type measure_cls w
               max_id min_id) by done.
    by rewrite decide_True.
  - destruct (carve_spec count fuel measure_type max_id min_id w [])
      as (rows & Hcarve & Hrows & Hfresh); [done..|].
    replace (Z.min (min_id + batch_size - 1) max_id)
      with (min_id + batch_size - 1) in Hcarve by lia.
    rewrite Hcarve. cbn [mbind option_bind app].
    set (w' := commit (on_session
                 (with_measure_block (λ table, table ++ rows)) w)).
    exists w'. split; [done|]. intros fuel'.
    assert (count ≠ 0%nat) as Hcount by (subst count; nia).
    assert ((max_id - min_id + 1) `div` batch_size = Z.of_nat count)
      as Hq by (subst count; nia).
    assert (Hids : Measure.id <$> measures_of measure_cls (session w') = ids).
    { unfold w', commit, on_session. cbn [session].
      by rewrite (rows_with_measure_block _ Htable). }
    assert (Hends : MeasureBlock.end_id <$>
              filter (λ b, MeasureBlock.measure_type b = measure_type)
                     (t_measure_block (session w'))
            = ends ++ (block_ranges min_id count).*2).
    { unfold w', commit, on_session. cbn [session].
      rewrite with_measure_block_table, filter_app, fmap_app. f_equal.
      rewrite <- Hrows, <- list_fmap_compose.
      rewrite (filter_Forall_id _ rows); [done|].
      eapply Forall_impl; [exact Hfresh|]. by intros r [? _]. }
    rewrite (schedule_measure_archival_run fuel' measure_type measure_cls w'
               max_id (min_id + Z.of_nat count * batch_size)).
    + rewrite decide_True; [done|]. rewrite <- Hq. lia.
    + by rewrite Hids.
    + by rewrite Hids.
    + rewrite Hends, decide_False.
      2:{ intros Hnil. apply app_eq_nil in Hnil as [_ Hnil].
          apply fmap_nil_inv in Hnil. unfold block_ranges in Hnil.
          apply fmap_nil_inv in Hnil. destruct count; done. }
      split.
      * apply elem_of_app. right. apply list_elem_of_fmap.
        exists (min_id + Z.of_nat (count - 1) * batch_size,
                min_id + (Z.of_nat (count - 1) + 1) * batch_size - 1).
        split;
          [cbn [snd];
           replace (Z.of_nat (count - 1) + 1) with (Z.of_nat count) by lia;
           lia|].
        apply list_elem_of_lookup. exists (count - 1)%nat.
        apply block_ranges_lookup. lia.
      * intros e [He|He]%elem_of_app.
        -- fold ends in Hmin. destruct (decide (ends = [])) as [Hnil|Hnil].
           ++ rewrite Hnil in He. by apply not_elem_of_nil in He.
           ++ destruct Hmin as [_ Hmin]. specialize (Hmin _ He). nia.
        -- apply list_elem_of_fmap in He as (b & -> & Hb).
           apply list_elem_of_lookup in Hb as (k & Hb).
           apply block_ranges_lookup_inv in Hb as [Hk ->]. cbn [snd]. nia.
Qed.

(** ** The archival reaper *)

(** X21: nothing marks a block as reaped: a second run of the reaper selects
    the same blocks as the first, and, the store answering as before,
    deletes no further row and leaves the block table as it was. *)
Theorem delete_measure_records_twice {K} (measure_cls : measure_model K)
    measure_type cleanup_zip w :
  measure_table measure_cls →
  let w1 := delete_measure_records measure_cls measure_type cleanup_zip w in
  let w2 := delete_measure_records measure_cls measure_type cleanup_zip w1 in
  blocks_to_reap measure_type (session w1)
  = blocks_to_reap measure_type (session w)
  ∧ measures_of measure_cls (session w2) = measures_of measure_cls (session w1)
  ∧ t_measure_block (session w2) = t_measure_block (session w).
Proof.
  intros Htable. cbn zeta.
  destruct (delete_measure_records_reaps measure_cls measure_type
              cleanup_zip w Htable) as (Hblocks & Hrows & _).
  destruct (delete_measure_records_reaps measure_cls measure_type
              cleanup_zip
              (delete_measure_records measure_cls measure_type cleanup_zip w)
              Htable) as (Hblocks' & Hrows' & _).
  cbn zeta in *.
  assert (Hsel : blocks_to_reap measure_type
                   (session (delete_measure_records measure_cls measure_type
                               cleanup_zip w))
                 = blocks_to_reap measure_type (session w)).
  { unfold blocks_to_reap. by rewrite Hblocks. }
  split; [done|]. split; [|congruence].
  rewrite Hrows', Hsel, Hrows, list_filter_filter.
  apply list_filter_iff. intros m. split; [by intros [? _]|done].
Qed.

(** X22: the writer followed by the reaper: when the store confirms the
    archives of the blocks the writer has stamped, the measurement rows
    left are those outside the id ranges of the blocks of the kind that
    had no archive date. *)
Theorem write_then_delete_measure_records {K} utcnow measure_type zip_prefix
    csv_name (measure_cls : measure_model K) cleanup_zip w :
  measure_table measure_cls →
  NoDup (MeasureBlock.id <$> t_measure_block (session w)) →
  (∀ b, b ∈ blocks_to_write measure_type (session w) →
     check_archive
       (Some (compute_hash (block_zip csv_name measure_cls b (session w))))
       (Some (s3_key_format (strftime_Ym utcnow) zip_prefix
                (MeasureBlock.start_id b) (MeasureBlock.end_id b)))
     = true) →
  let w1 :=
    (write_measure_s3_backups utcnow measure_type zip_prefix csv_name
       measure_cls cleanup_zip w).1 in
  let w2 := delete_measure_records measure_cls measure_type cleanup_zip w1 in
  measures_of measure_cls (session w2)
  = filter (λ m, ¬ Exists (λ b, MeasureBlock.start_id b ≤ Measure.id m
                                ∧ Measure.id m ≤ MeasureBlock.end_id b)
                   (blocks_to_write measure_type (session w)))
           (measures_of measure_cls (session w)).
Proof.
  intros Htable Hnodup Hcheck. cbn zeta.
  assert (Hin : ∀ b, b ∈ blocks_to_write measure_type (session w) →
                     b ∈ t_measure_block (session w)
                     ∧ MeasureBlock.measure_type b = measure_type
                     ∧ MeasureBlock.archive_date b = None).
  { intros b Hb. unfold blocks_to_write in Hb.
    rewrite merge_sort_Permutation in Hb.
    apply list_elem_of_filter in Hb as [[? ?] ?]. done. }
  destruct (write_blocks_spec utcnow zip_prefix csv_name measure_cls
              cleanup_zip (session w)
              (blocks_to_write measure_type (session w)) Htable Hnodup
              (λ b Hb, proj1 (Hin b Hb)) w [] []) as (Hblocks & Hrows & _).
  { symmetry. etrans; [|apply list_fmap_id].
    apply list_fmap_ext. intros i b _. rewrite decide_False; [done|].
    apply not_elem_of_nil. }
  { done. }
  { done. }
  cbn zeta in Hblocks, Hrows. cbn [app] in Hblocks.
  fold (write_measure_s3_backups utcnow measure_type zip_prefix csv_name
          measure_cls cleanup_zip w) in Hblocks, Hrows.
  destruct (delete_measure_records_reaps measure_cls measure_type
              cleanup_zip
              (write_measure_s3_backups utcnow measure_type zip_prefix
                 csv_name measure_cls cleanup_zip w).1 Htable)
    as (_ & -> & _).
  rewrite Hrows. apply list_filter_iff. intros m.
  rewrite !Exists_exists. split; intros Hno (b & Hb & Hrange); apply Hno.
  - destruct (Hin b Hb) as (Htab & Htype & Hdate).
    eexists. split.
    + apply list_elem_of_filter. split; [|unfold blocks_to_reap].
      2:{ apply list_elem_of_filter. split.
          2:{ rewrite Hblocks. apply list_elem_of_fmap. exists b.
              split; [|done]. rewrite decide_True; [done|].
              apply list_elem_of_fmap. by exists b. }
          cbn. done. }
      cbn. by apply Hcheck.
    + done.
  - apply list_elem_of_filter in Hb as [_ Hb]. unfold blocks_to_reap in Hb.
    apply list_elem_of_filter in Hb as [(Htype & _ & Hdate) Hb].
    rewrite Hblocks in Hb. apply list_elem_of_fmap in Hb as (b0 & -> & Hb0).
    exists b0. split.
    + unfold blocks_to_write. rewrite merge_sort_Permutation.
      apply list_elem_of_filter. split; [|done].
      by destruct (decide _) in Htype, Hdate.
    + by destruct (decide _) in Hrange.
Qed.

(** ** The retention trimmer *)

#[local] Instance by_time_id_total {K} : Total (@by_time_id K).
Proof. intros a b. unfold by_time_id. lia. Qed.

#[local] Instance by_time_id_trans {K} : Transitive (@by_time_id K).
Proof. intros a b c. unfold by_time_id. lia. Qed.

Lemma Cell_stat_table : stat_table Cell_model CellMeasure_model.
Proof. by split. Qed.

Lemma Wifi_stat_table : stat_table Wifi_model WifiMeasure_model.
Proof. by split. Qed.

Lemma filter_none {A} (P : A → Prop) `{∀ x, Decision (P x)} (l : list A) :
  Forall (λ x, ¬ P x) l → filter P l = [].
Proof.
  induction 1 as [|x l Hx Hl IH]; [done|].
  by rewrite filter_cons_False.
Qed.

(** In a list ordered by (time, id), the rows with [time <= keep.time]
    and [id < keep.id] all stand before [keep]. *)
Lemma before_cutoff_bound {K} (l : list (Measure.t K)) (idx : nat) keep :
  StronglySorted by_time_id l → l !! idx = Some keep →
  len (filter (λ m, Measure.time m ≤ Measure.time keep
                    ∧ Measure.id m < Measure.id keep) l)
  ≤ Z.of_nat idx.
Proof.
  intros Hsorted Hkeep.
  rewrite <- (take_drop_middle l idx keep Hkeep) in Hsorted |- *.
  apply StronglySorted_app_1_r in Hsorted.
  apply StronglySorted_inv in Hsorted as [_ Hafter].
  rewrite filter_app, filter_cons_False by lia.
  rewrite (filter_none _ (drop (S idx) l)).
  - rewrite app_nil_r. unfold len.
    pose proof (length_filter
      (λ m, Measure.time m ≤ Measure.time keep
            ∧ Measure.id m < Measure.id keep) (take idx l)).
    pose proof (length_take_le l idx). rewrite length_take in *. lia.
  - eapply Forall_impl; [exact Hafter|].
    intros m Hm. unfold by_time_id in Hm. cbn beta. lia.
Qed.

(** X23: the trimmer never cuts a station below the cap: of the [count] rows
    of the station in the window, one turn of the loop deletes at most
    [count - max_measures], so at least [max_measures] of them are
    left. *)
Theorem trim_unique_keeps {K} (unique : unique_model K)
    (measure : measure_model K) join_measure delstat max_measures
    age_threshold (u : Station.t K) count d n0 d' n :
  separate_tables unique measure →
  count = len (old_window join_measure age_threshold u
                 (measures_of measure d)) →
  max_measures ≤ count →
  trim_unique unique measure join_measure delstat max_measures
    age_threshold (u, count) (d, n0) = Ok (d', n) →
  0 ≤ n ≤ count - max_measures
  ∧ len (old_window join_measure age_threshold u (measures_of measure d'))
    = count - n.
Proof.
  intros Htables Hcount Hmax Hturn.
  apply (trim_unique_spec _ _ _ _ _ _ _ _ _ _ _ _ Htables) in Hturn
    as (keep & Hkeep & Hrows & Hn & _).
  cbv zeta in Hrows, Hn.
  set (window := old_window join_measure age_threshold u
                   (measures_of measure d)) in *.
  set (before := λ m : Measure.t K,
         Measure.time m ≤ Measure.time keep
         ∧ Measure.id m < Measure.id keep).
  assert (Hn' : n = len (filter before window)).
  { rewrite Hn. unfold window, old_window. rewrite list_filter_filter.
    f_equal. apply list_filter_iff. intros m. unfold before.
    split; [by intros (? & ? & ?)|by intros ((? & ?) & ?)]. }
  assert (Hleft : len (old_window join_measure age_threshold u
                         (measures_of measure d'))
                  = len (filter (λ m, ¬ before m) window)).
  { rewrite Hrows. unfold window, old_window. rewrite !list_filter_filter.
    f_equal. apply list_filter_iff. intros m. unfold before. split.
    - intros [Hw Hnd]. split; [|done]. intros Hb. by apply Hnd.
    - intros [Hnb Hw]. split; [done|]. intros [_ Hb]. by apply Hnb. }
  pose proof (len_filter_split before (λ m, ¬ before m) window
                (λ m, reflexivity _)) as Hsplit.
  assert (Hbound : len (filter before window) ≤ count - max_measures).
  { pose proof (before_cutoff_bound _ _ _
        (StronglySorted_merge_sort by_time_id window) Hkeep) as Hb.
    rewrite Z2Nat.id in Hb by lia.
    unfold len in *.
    by rewrite (merge_sort_Permutation by_time_id window) in Hb. }
  split; [|lia]. split; [|lia]. rewrite Hn'. unfold len. lia.
Qed.

Lemma with_stat_table f d : t_stat (with_stat f d) = f (t_stat d).
Proof. by destruct d. Qed.

Lemma trim_unique_stat {K} (unique : unique_model K)
    (measure : measure_model K) join_measure delstat max_measures
    age_threshold (u : Station.t K) count d n0 d' n :
  separate_tables unique measure → stat_table unique measure →
  trim_unique unique measure join_measure delstat max_measures
    age_threshold (u, count) (d, n0) = Ok (d', n) →
  default 0 (t_stat d' !! delstat) = default 0 (t_stat d !! delstat) + n
  ∧ 0 ≤ n
  ∧ len (measures_of measure d') = len (measures_of measure d) - n.
Proof.
  intros Htables Hstat Hturn.
  pose proof Hturn as Hspec.
  apply (trim_unique_spec _ _ _ _ _ _ _ _ _ _ _ _ Htables) in Hspec
    as (keep & Hkeep & Hrows & Hn & _).
  cbv zeta in Hrows, Hn.
  unfold trim_unique in Hturn. cbn [fst] in Hturn. rewrite Hkeep in Hturn.
  cbv zeta in Hturn. rewrite <- Hn in Hturn.
  destruct (decide _); [|done].
  unfold mret, result_ret in Hturn. injection Hturn as <-.
  split; [|split].
  - unfold incr_stat. rewrite with_stat_table, lookup_insert.
    rewrite (stat_with_uniques _ _ Hstat), (stat_with_measures _ _ Hstat).
    by rewrite decide_True.
  - rewrite Hn. unfold len. lia.
  - rewrite Hrows, Hn.
    pose proof (len_filter_split
      (λ m, (join_measure u m = true ∧ Measure.created m < age_threshold)
            ∧ Measure.time m ≤ Measure.time keep
            ∧ Measure.id m < Measure.id keep)
      (λ m, ¬ ((join_measure u m = true
                ∧ Measure.created m < age_threshold)
               ∧ Measure.time m ≤ Measure.time keep
               ∧ Measure.id m < Measure.id keep))
      (measures_of measure d) (λ m, reflexivity _)).
    lia.
Qed.

(** X24: over a whole run of the trimmer the deletion counter grows by the
    number of rows the run has removed, while the value returned is
    that of the last station alone, at most that number; the run
    commits, unless no station was over the cap. *)
Theorem trim_excessive_data_counts {K} utcnow (unique : unique_model K)
    (measure : measure_model K) join_measure delstat max_measures
    min_age_days batch w w' n :
  separate_tables unique measure → stat_table unique measure →
  trim_excessive_data utcnow unique measure join_measure delstat
    max_measures min_age_days batch w = Ok (w', n) →
  let removed :=
    len (measures_of measure (session w))
    - len (measures_of measure (session w')) in
  default 0 (t_stat (session w') !! delstat)
  = default 0 (t_stat (session w) !! delstat) + removed
  ∧ 0 ≤ n ≤ removed
  ∧ (w' = w ∨ database w' = session w').
Proof.
  intros Htables Hstat. unfold trim_excessive_data. cbv zeta.
  case_decide.
  { intros Hret. unfold mret, result_ret in Hret. simplify_eq.
    split; [lia|]. split; [lia|by left]. }
  intros Hret. apply bind_Ok_inv in Hret as ([d n'] & Hrun & Hret).
  unfold mret, result_ret in Hret. simplify_eq. cbn [session commit].
  cut (default 0 (t_stat d !! delstat)
       = default 0 (t_stat (session w) !! delstat)
         + (len (measures_of measure (session w))
            - len (measures_of measure d))
       ∧ 0 ≤ n
           ≤ len (measures_of measure (session w))
             - len (measures_of measure d)).
  { intros [? ?]. split; [done|]. split; [done|by right]. }
  revert Hrun. apply (for_each_invariant (λ st : DB * Z,
    default 0 (t_stat st.1 !! delstat)
    = default 0 (t_stat (session w) !! delstat)
      + (len (measures_of measure (session w))
         - len (measures_of measure st.1))
    ∧ 0 ≤ st.2
        ≤ len (measures_of measure (session w))
          - len (measures_of measure st.1))); [|cbn [fst snd]; lia].
  intros [u count] [d1 n1] [d2 n2] _ [Hinv1 Hinv2] Hturn.
  apply (trim_unique_stat _ _ _ _ _ _ _ _ _ _ _ _ Htables Hstat) in Hturn
    as (Hs & Hpos & Hlen).
  cbn [fst snd] in *. lia.
Qed.

(** ** The live updaters *)

Lemma calculate_new_position_same_id {K} (station station' : Station.t K)
    measures moving_stations moving_stations' max_dist_km backfill :
  calculate_new_position station measures moving_stations max_dist_km backfill
  = Ok (station', moving_stations') →
  Station.id station' = Station.id station
  ∧ (moving_stations' = moving_stations
     ∨ moving_stations' = {[ Station.id station ]} ∪ moving_stations).
Proof.
  intros Hcalc. apply calculate_new_position_cases in Hcalc as [_ Hcases].
  cbv zeta in Hcases.
  destruct Hcases as [(lat & lon & box & _ & _ & _ & _ & _ & Hcase)
                     |(box & _ & _ & -> & ->)].
  - destruct Hcase as [(_ & -> & ->)|(_ & _ & -> & ->)].
    + split; [done|by right].
    + split; [|by left]. by destruct box as [[[? ?] ?] ?].
  - split; [|by left]. by destruct box as [[[? ?] ?] ?].
Qed.

Lemma flush_ids {K} (row : Station.t K) table :
  Station.id <$> flush row table = Station.id <$> table.
Proof.
  unfold flush. rewrite <- list_fmap_compose. apply list_fmap_ext.
  intros i r _. cbn. by destruct (decide _).
Qed.

Lemma size_list_to_set_le (l : list Z) :
  (size (list_to_set l : gset Z) ≤ length l)%nat.
Proof.
  induction l as [|x l IH]; [done|].
  cbn [list_to_set foldr length]. rewrite size_union_alt, size_singleton.
  pose proof (subseteq_size (list_to_set l ∖ {[x]}) (list_to_set l : gset Z)
                (subseteq_difference_l _ _ _ (reflexivity _))).
  lia.
Qed.

Lemma moving_bound (moving : gset Z) (ids : list Z) :
  moving ⊆ list_to_set ids → 0 ≤ Z.of_nat (size moving) ≤ len ids.
Proof.
  intros Hsub. apply subseteq_size in Hsub.
  pose proof (size_list_to_set_le ids). unfold len. lia.
Qed.

(** X25: [wifi_location_update]: it returns 0 and touches nothing when no
    wifi is in the window; else it returns the number of wifis
    selected, between 1 and [batch], with the number of those found
    moving, and commits.  It writes no measurement and neither adds nor
    deletes a wifi row: the removal of a moving wifi is left to the
    queued task. *)
Theorem wifi_location_update_result utcnow min_new max_new batch w w' r :
  wifi_location_update utcnow min_new max_new batch w = Ok (w', r) →
  let wifis :=
    take batch
      (filter (λ r, min_new ≤ Station.new_measures r
                    ∧ Station.new_measures r < max_new)
              (t_wifi (session w))) in
  t_wifi_measure (session w') = t_wifi_measure (session w)
  ∧ Station.id <$> t_wifi (session w') = Station.id <$> t_wifi (session w)
  ∧ match r with
    | Zero => wifis = [] ∧ w' = w
    | Counts n m =>
      n = len wifis ∧ 1 ≤ n ≤ Z.of_nat batch ∧ 0 ≤ m ≤ n
      ∧ database w' = session w'
    end.
Proof.
  unfold wifi_location_update. cbv zeta.
  set (wifis := take batch _).
  destruct (decide (wifis = [])) as [Hnone|Hsome].
  { intros Hret. unfold mret, result_ret in Hret. by simplify_eq. }
  intros Hret. apply bind_Ok_inv in Hret as ([d moving] & Hrun & Hret).
  unfold mret, result_ret in Hret. simplify_eq.
  assert (Hinv : t_wifi_measure d = t_wifi_measure (session w)
                 ∧ Station.id <$> t_wifi d = Station.id <$> t_wifi (session w)
                 ∧ moving ⊆ list_to_set (Station.id <$> wifis)).
  { revert Hrun. apply (for_each_invariant (λ st : DB * gset Z,
      t_wifi_measure st.1 = t_wifi_measure (session w)
      ∧ Station.id <$> t_wifi st.1 = Station.id <$> t_wifi (session w)
      ∧ st.2 ⊆ list_to_set (Station.id <$> wifis))); [|by cbn].
    intros wifi [d1 mv1] [d2 mv2] Hwifi (Hm & Hids & Hmv) Hturn.
    unfold update_wifi in Hturn. cbn [fst snd] in *.
    destruct (decide _).
    { unfold mret, result_ret in Hturn. by simplify_eq. }
    apply bind_Ok_inv in Hturn as ([wifi' mv'] & Hcalc & Hturn).
    unfold mret, result_ret in Hturn. simplify_eq.
    apply calculate_new_position_same_id in Hcalc as [Hid Hmv'].
    split; [by destruct d1|]. split.
    - rewrite <- Hids. destruct d1; cbn. apply flush_ids.
    - destruct Hmv' as [->| ->]; [done|].
      apply union_subseteq. split; [|done].
      apply singleton_subseteq_l, elem_of_list_to_set, list_elem_of_fmap.
      by exists wifi. }
  destruct Hinv as (Hm & Hids & Hmv).
  assert (Hmark : ∀ w0 : World,
            t_wifi_measure (session (if decide (moving = ∅) then w0
                              else mark_moving_wifis utcnow moving w0))
            = t_wifi_measure (session w0)
            ∧ t_wifi (session (if decide (moving = ∅) then w0
                         else mark_moving_wifis utcnow moving w0))
              = t_wifi (session w0)).
  { intros w0. destruct (decide (moving = ∅)); [done|].
    unfold mark_moving_wifis. destruct (decide _); [done|].
    cbn. by destruct (session w0). }
  cbn [session commit].
  destruct (Hmark (mkWorld d (database w) (queue w))) as [-> ->].
  cbn [session]. split; [done|]. split; [done|].
  split; [done|]. split.
  - split.
    + destruct wifis; [done|]. unfold len. cbn [length]. lia.
    + unfold len, wifis. rewrite length_take. lia.
  - split; [|done]. apply moving_bound in Hmv.
    unfold len in *. by rewrite length_fmap in Hmv.
Qed.

Lemma update_enclosing_lac_ids cell d :
  t_cell_measure (update_enclosing_lac cell d) = t_cell_measure d
  ∧ ∃ added,
      Station.id <$> t_cell (update_enclosing_lac cell d)
      = (Station.id <$> t_cell d) ++ added.
Proof.
  destruct d as [cells ? ? ? ? ? ? ? ?].
  unfold update_enclosing_lac. destruct (decide _).
  - split; [done|]. exists []. rewrite app_nil_r.
    unfold with_cell. cbn [t_cell].
    rewrite <- list_fmap_compose. apply list_fmap_ext.
    intros i r _. cbn. by destruct (decide _).
  - split; [done|]. eexists. unfold with_cell. cbn [t_cell].
    by rewrite fmap_app.
Qed.

(** X26: [cell_location_update]: it returns 0 and touches nothing when no
    cell is in the window; else it returns the number of cells
    selected, between 1 and [batch], with the number of those found
    moving, and commits.  It writes no measurement and deletes no cell
    row: the rows it adds, the virtual rows of the areas, come after
    those that were there. *)
Theorem cell_location_update_result min_new max_new batch w w' r :
  cell_location_update min_new max_new batch w = Ok (w', r) →
  let cells :=
    take batch
      (filter (λ c, min_new ≤ Station.new_measures c
                    ∧ Station.new_measures c < max_new
                    ∧ CellKey.cid (Station.key c) ≠ CELLID_LAC)
              (t_cell (session w))) in
  t_cell_measure (session w') = t_cell_measure (session w)
  ∧ (∃ added,
       Station.id <$> t_cell (session w')
       = (Station.id <$> t_cell (session w)) ++ added)
  ∧ match r with
    | Zero => cells = [] ∧ w' = w
    | Counts n m =>
      n = len cells ∧ 1 ≤ n ≤ Z.of_nat batch ∧ 0 ≤ m ≤ n
      ∧ database w' = session w'
    end.
Proof.
  unfold cell_location_update. cbv zeta.
  set (cells := take batch _).
  destruct (decide (cells = [])) as [Hnone|Hsome].
  { intros Hret. unfold mret, result_ret in Hret. simplify_eq.
    split; [done|]. split; [|done]. exists []. by rewrite app_nil_r. }
  intros Hret. apply bind_Ok_inv in Hret as ([d moving] & Hrun & Hret).
  unfold mret, result_ret in Hret. simplify_eq.
  assert (Hinv : t_cell_measure d = t_cell_measure (session w)
                 ∧ (∃ added, Station.id <$> t_cell d
                             = (Station.id <$> t_cell (session w)) ++ added)
                 ∧ moving ⊆ list_to_set (Station.id <$> cells)).
  { revert Hrun. apply (for_each_invariant (λ st : DB * gset Z,
      t_cell_measure st.1 = t_cell_measure (session w)
      ∧ (∃ added, Station.id <$> t_cell st.1
                  = (Station.id <$> t_cell (session w)) ++ added)
      ∧ st.2 ⊆ list_to_set (Station.id <$> cells))).
    2:{ cbn. split; [done|]. split; [|done]. exists [].
        by rewrite app_nil_r. }
    intros cell [d1 mv1] [d2 mv2] Hcell (Hm & [added Hids] & Hmv) Hturn.
    unfold update_cell in Hturn. cbn [fst snd] in *.
    destruct (decide _).
    { unfold mret, result_ret in Hturn. simplify_eq.
      split; [done|]. split; [by exists added|done]. }
    destruct (decide _).
    { unfold mret, result_ret in Hturn. simplify_eq.
      split; [done|]. split; [by exists added|done]. }
    apply bind_Ok_inv in Hturn as ([cell' mv'] & Hcalc & Hturn).
    unfold mret, result_ret in Hturn. simplify_eq.
    apply calculate_new_position_same_id in Hcalc as [Hid Hmv'].
    destruct (update_enclosing_lac_ids cell' (with_cell (flush cell') d1))
      as [-> [added' ->]].
    split; [by destruct d1|]. split.
    - exists (added ++ added'). rewrite app_assoc, <- Hids.
      f_equal. destruct d1; cbn. apply flush_ids.
    - destruct Hmv' as [->| ->]; [done|].
      apply union_subseteq. split; [|done].
      apply singleton_subseteq_l, elem_of_list_to_set, list_elem_of_fmap.
      by exists cell. }
  destruct Hinv as (Hm & Hids & Hmv).
  assert (Hmark : ∀ w0 : World,
            t_cell_measure (session (if decide (moving = ∅) then w0
                              else mark_moving_cells moving w0))
            = t_cell_measure (session w0)
            ∧ t_cell (session (if decide (moving = ∅) then w0
                         else mark_moving_cells moving w0))
              = t_cell (session w0)).
  { intros w0. destruct (decide (moving = ∅)); [done|].
    unfold mark_moving_cells. cbn. by destruct (session w0). }
  cbn [session commit].
  destruct (Hmark (mkWorld d (database w) (queue w))) as [-> ->].
  cbn [session]. split; [done|]. split; [done|].
  split; [done|]. split.
  - split.
    + destruct cells; [done|]. unfold len. cbn [length]. lia.
    + unfold len, cells. rewrite length_take. lia.
  - split; [|done]. apply moving_bound in Hmv.
    unfold len in *. by rewrite length_fmap in Hmv.
Qed.

End Tasks.

(** * The tasks on the example data *)

(** The cell of the example takes ten measures a hundred meters north
    in incremental mode. *)
Lemma calculate_new_position_incremental_witness :
  (λ r, (Station.lat r.1, Station.lon r.1,
         Station.new_measures r.1, Station.total_measures r.1)) <$>
  calculate_new_position Plane.to_degrees Plane.distance
    Plane.range_to_points Example.cell_a Example.near ∅
    CELL_MAX_DIST_KM false
  = Ok (Some 500001111, Some 100000000, 0, 90).
Proof.
  destruct (calculate_new_position_incremental Plane.to_degrees
              Plane.distance Plane.range_to_points Example.cell_a
              Example.near ∅ CELL_MAX_DIST_KM 500000000 100000000
              (499990000, 99990000, 500010000, 100010000))
    as (station' & -> & Hlat & Hlon & Hnew & Htotal);
    [discriminate | reflexivity | lia | reflexivity | lia
    | reflexivity | reflexivity | simpl; lia |].
  cbn [fmap result_fmap fst]. rewrite Hlat, Hlon, Hnew, Htotal.
  reflexivity.
Defined.

(** The cell of the example is moving when its ten measures are at
    60 N, 20 E. *)
Lemma calculate_new_position_moving_unchanged_witness :
  calculate_new_position Plane.to_degrees Plane.distance
    Plane.range_to_points Example.cell_a Example.far ∅
    CELL_MAX_DIST_KM true
  = Ok (Example.cell_a, {[ Station.id Example.cell_a ]} ∪ ∅).
Proof.
  apply (calculate_new_position_moving_unchanged Plane.to_degrees
           Plane.distance Plane.range_to_points Example.cell_a
           Example.far ∅ CELL_MAX_DIST_KM true 500000000 100000000
           (499990000, 99990000, 600000000, 200000000));
    [discriminate | reflexivity | lia | reflexivity | lia
    | reflexivity | reflexivity].
Defined.






(** The area of the example has two cells and no virtual row, and
    [update_lac] leaves it so. *)
Lemma update_lac_absent_row_witness :
  (λ w, Station.key <$> t_cell (session w)) <$>
  update_lac Plane.to_degrees Plane.from_degrees Plane.centroid
    Plane.range_to_points Plane.CELLID_LAC Plane.int_round
    0 262 2 5 Example.stations
  = Ok [Example.tower_a; Example.tower_b].
Proof.
  destruct (update_lac Plane.to_degrees Plane.from_degrees Plane.centroid
              Plane.range_to_points Plane.CELLID_LAC Plane.int_round
              0 262 2 5 Example.stations) as [w'|e] eqn:Hrun.
  - destruct (update_lac_absent_row Plane.to_degrees Plane.from_degrees
                Plane.centroid Plane.range_to_points Plane.CELLID_LAC
                Plane.int_round 0 262 2 5 Example.stations w')
      as [-> _]; [reflexivity | exact Hrun | reflexivity].
  - discriminate Hrun.
Defined.

(** With 25 measures and blocks of 10 ids, the planner makes two
    blocks and leaves the ids 21 to 25. *)
Lemma schedule_measure_archival_blocks_witness :
  (λ r : result (World * list (Z * Z)), snd <$> r) <$>
  schedule_measure_archival 10 5 2 CellMeasure_model (Example.measured 25)
  = Some (Ok [(1, 10); (11, 20)]).
Proof.
  destruct (schedule_measure_archival_blocks 10 2 CellMeasure_model
              (Example.measured 25) 25 1) with (fuel := 5%nat)
    as (w' & rows & -> & _).
  - lia.
  - apply (bool_decide_unpack _). vm_compute. exact I.
  - apply Forall_forall. apply (bool_decide_unpack _). vm_compute. exact I.
  - rewrite decide_True by reflexivity. split.
    + apply (bool_decide_unpack _). vm_compute. exact I.
    + apply Forall_forall. apply (bool_decide_unpack _). vm_compute. exact I.
  - vm_compute. lia.
  - reflexivity.
Defined.

(** The scenario of the specification: ids 1 to 2500, blocks of 1000. *)
Example schedule_measure_archival_2500 :
  (λ r : result (World * list (Z * Z)), snd <$> r) <$>
  schedule_measure_archival 1000 2 2 CellMeasure_model
    (Example.measured 2500)
  = Some (Ok [(1, 1000); (1001, 2000)]).
Proof. vm_compute. reflexivity. Qed.

(** With a block size of zero the loop of the planner is still running
    after a thousand turns. *)
Example schedule_measure_archival_zero_batch :
  schedule_measure_archival 0 1000 2 CellMeasure_model (Example.measured 5)
  = None.
Proof. vm_compute. reflexivity. Qed.




(** The uploaded block of the example is confirmed: the reaper deletes
    the measures 1 to 10 and keeps 11 and 12. *)
Example delete_measure_records_reaps_example :
  Measure.id <$>
  t_cell_measure
    (session (delete_measure_records Plane.check_archive CellMeasure_model
                2 true Example.uploaded))
  = [11; 12].
Proof.
  destruct (delete_measure_records_reaps Plane.check_archive
              CellMeasure_model 2 true Example.uploaded)
    as (_ & Hrows & _); [split; reflexivity|].
  change (t_cell_measure ?d) with (measures_of CellMeasure_model d).
  rewrite Hrows. reflexivity.
Qed.

(** C1: the reaper selects the uploaded block of the example and the
    store confirms it; the run deletes the measures 1 to 10 and commits,
    but the block is left without an archive date, so the next run
    selects it again. *)
Theorem delete_measure_records_leaves_archive_date_null :
  blocks_to_reap (Plane.MEASURE_TYPE "cell") (session Example.uploaded)
  = [Example.block]
  ∧ Plane.check_archive (MeasureBlock.archive_sha Example.block)
      (MeasureBlock.s3_key Example.block) = true
  ∧ Measure.id <$>
    t_cell_measure
      (database (delete_cellmeasure_records Plane.MEASURE_TYPE
                   Plane.check_archive true Example.uploaded))
    = [11; 12]
  ∧ MeasureBlock.archive_date <$>
    t_measure_block
      (session (delete_cellmeasure_records Plane.MEASURE_TYPE
                  Plane.check_archive true Example.uploaded))
    = [None]
  ∧ blocks_to_reap (Plane.MEASURE_TYPE "cell")
      (session (delete_cellmeasure_records Plane.MEASURE_TYPE
                  Plane.check_archive true Example.uploaded))
    = [Example.block].
Proof. repeat split; reflexivity. Qed.



(** * Further properties on the example data *)

(** The cell of the example takes ten measures a hundred meters north
    in backfill mode: the total grows to 100, the new counter stays. *)
Lemma calculate_new_position_backfill_witness :
  (λ r, (Station.lat r.1, Station.lon r.1,
         Station.new_measures r.1, Station.total_measures r.1)) <$>
  calculate_new_position Plane.to_degrees Plane.distance
    Plane.range_to_points Example.cell_a Example.near ∅
    CELL_MAX_DIST_KM true
  = Ok (Some 500001000, Some 100000000, 10, 100).
Proof.
  destruct (calculate_new_position_backfill Plane.to_degrees
              Plane.distance Plane.range_to_points Example.cell_a
              Example.near ∅ CELL_MAX_DIST_KM 500000000 100000000
              (499990000, 99990000, 500010000, 100010000))
    as (station' & -> & Hlat & Hlon & Hnew & Htotal);
    [discriminate | reflexivity | lia | reflexivity | lia
    | reflexivity | reflexivity | unfold len; simpl; lia |].
  cbn [fmap result_fmap fst]. rewrite Hlat, Hlon, Hnew, Htotal.
  reflexivity.
Defined.

(** The box of the example cell after the ten measures covers the
    batch and the box it had. *)
Lemma calculate_new_position_box_grows_witness :
  match calculate_new_position Plane.to_degrees Plane.distance
          Plane.range_to_points Example.cell_a Example.near ∅
          CELL_MAX_DIST_KM false with
  | Ok (station', moving') =>
    (station' = Example.cell_a
     ∧ moving' = {[ Station.id Example.cell_a ]} ∪ ∅)
    ∨ (moving' = ∅
       ∧ ∃ min_lat min_lon max_lat max_lon,
           Station.min_lat station' = Some min_lat
           ∧ Station.min_lon station' = Some min_lon
           ∧ Station.max_lat station' = Some max_lat
           ∧ Station.max_lon station' = Some max_lon
           ∧ (∀ m, m ∈ Example.near →
                   min_lat ≤ m.1 ≤ max_lat ∧ min_lon ≤ m.2 ≤ max_lon)
           ∧ (∀ o, Station.min_lat Example.cell_a = Some o → min_lat ≤ o)
           ∧ (∀ o, Station.min_lon Example.cell_a = Some o → min_lon ≤ o)
           ∧ (∀ o, Station.max_lat Example.cell_a = Some o → o ≤ max_lat)
           ∧ (∀ o, Station.max_lon Example.cell_a = Some o → o ≤ max_lon))
  | Raise _ => False
  end.
Proof.
  destruct (calculate_new_position Plane.to_degrees Plane.distance
              Plane.range_to_points Example.cell_a Example.near ∅
              CELL_MAX_DIST_KM false) as [[station' moving']|e] eqn:Hcalc.
  - exact (calculate_new_position_box_grows Plane.to_degrees Plane.distance
             Plane.range_to_points Example.cell_a station' Example.near
             ∅ moving' CELL_MAX_DIST_KM false Hcalc).
  - discriminate Hcalc.
Defined.

(** The position of the example cell after the ten measures lies in
    its box. *)
Lemma calculate_new_position_inside_box_witness :
  match calculate_new_position Plane.to_degrees Plane.distance
          Plane.range_to_points Example.cell_a Example.near ∅
          CELL_MAX_DIST_KM false with
  | Ok (station', moving') =>
    (station' = Example.cell_a
     ∧ moving' = {[ Station.id Example.cell_a ]} ∪ ∅)
    ∨ (∃ lat lon min_lat min_lon max_lat max_lon,
         Station.lat station' = Some lat
         ∧ Station.lon station' = Some lon
         ∧ Station.min_lat station' = Some min_lat
         ∧ Station.min_lon station' = Some min_lon
         ∧ Station.max_lat station' = Some max_lat
         ∧ Station.max_lon station' = Some max_lon
         ∧ min_lat ≤ lat ≤ max_lat
         ∧ min_lon ≤ lon ≤ max_lon)
  | Raise _ => False
  end.
Proof.
  destruct (calculate_new_position Plane.to_degrees Plane.distance
              Plane.range_to_points Example.cell_a Example.near ∅
              CELL_MAX_DIST_KM false) as [[station' moving']|e] eqn:Hcalc.
  - apply (calculate_new_position_inside_box Plane.to_degrees Plane.distance
             Plane.range_to_points Example.cell_a station' Example.near
             ∅ moving' CELL_MAX_DIST_KM false); [|exact Hcalc].
    unfold len. simpl. lia.
  - discriminate Hcalc.
Defined.

(** The virtual row of the district is flagged; after [update_lac] the
    flag is down and [scan_lacs] queues nothing for the area. *)
Lemma update_lac_clears_flag_witness :
  match update_lac Plane.to_degrees Plane.from_degrees Plane.centroid
          Plane.range_to_points Plane.CELLID_LAC Plane.int_round
          0 262 2 5 Example.district with
  | Ok w' =>
    Station.new_measures <$> t_cell (session w') = [10; 10; 0]
    ∧ update_lac_task 0 262 2 5
      ∉ drop (length (queue w')) (queue (scan_lacs Plane.CELLID_LAC 10 w').1)
  | Raise _ => False
  end.
Proof.
  destruct (update_lac Plane.to_degrees Plane.from_degrees Plane.centroid
              Plane.range_to_points Plane.CELLID_LAC Plane.int_round
              0 262 2 5 Example.district) as [w'|e] eqn:Hrun.
  - destruct (update_lac_clears_flag Plane.to_degrees Plane.from_degrees
                Plane.centroid Plane.range_to_points Plane.CELLID_LAC
                Plane.int_round 0 262 2 5 Example.district w'
                Example.area_row 10) as [_ Hqueue];
      [reflexivity | exact Hrun |].
    split; [|exact Hqueue].
    vm_compute in Hrun. injection Hrun as <-. reflexivity.
  - discriminate Hrun.
Defined.

(** Removing the first cell of the district deletes one row. *)
Lemma remove_cell_count_witness :
  (Remover.remove_cell Plane.CELLID_LAC [Example.tower_a]
     Example.district).2 = 1.
Proof.
  rewrite (remove_cell_count Plane.CELLID_LAC [Example.tower_a]
             Example.district).
  - reflexivity.
  - repeat constructor. discriminate.
Defined.

(** Removing both cells of the district leaves no row of the area. *)
Lemma remove_cell_last_cell_witness :
  Forall (λ c', ¬ Remover.same_area Example.tower_a c')
    (t_cell (session (Remover.remove_cell Plane.CELLID_LAC
                        [Example.tower_a; Example.tower_b]
                        Example.district).1)).
Proof.
  apply Forall_forall.
  apply (remove_cell_last_cell Plane.CELLID_LAC
           [Example.tower_a; Example.tower_b] Example.tower_a
           Example.district).
  - left.
  - intros c Hc.
    repeat (apply elem_of_cons in Hc as [->|Hc]);
      [apply (bool_decide_unpack _); vm_compute; exact I..
      |by apply elem_of_nil in Hc].
Defined.

(** Removing the first cell of the district keeps the second and flags
    the virtual row. *)
Lemma remove_cell_sibling_witness :
  Example.cell_b
  ∈ t_cell (session (Remover.remove_cell Plane.CELLID_LAC [Example.tower_a]
                       Example.district).1)
  ∧ Forall (λ c', Remover.same_area Example.tower_a c' →
                  CellKey.cid (Station.key c') = Plane.CELLID_LAC →
                  Station.new_measures c' = 1)
      (t_cell (session (Remover.remove_cell Plane.CELLID_LAC
                          [Example.tower_a] Example.district).1)).
Proof.
  destruct (remove_cell_sibling Plane.CELLID_LAC [Example.tower_a]
              Example.tower_a Example.cell_b Example.district)
    as [Hkept Hflag].
  - left.
  - right. left.
  - repeat split.
  - discriminate.
  - apply (bool_decide_unpack _). vm_compute. exact I.
  - split; [exact Hkept|]. apply Forall_forall. exact Hflag.
Defined.


(** The store takes the archive of the second block alone: the key of
    the first block is committed with it. *)
Lemma write_measure_s3_backups_commits_witness :
  database
    (write_measure_s3_backups Example.store_late Plane.compute_hash
       Plane.zip_deflate Plane.csv_excel Example.utcnow 2 "CellMeasure"
       "cell_measure.csv" CellMeasure_model true Example.planned_pair).1
  = session
      (write_measure_s3_backups Example.store_late Plane.compute_hash
         Plane.zip_deflate Plane.csv_excel Example.utcnow 2 "CellMeasure"
         "cell_measure.csv" CellMeasure_model true Example.planned_pair).1
  ∧ Some "201403/CellMeasure_1_10.zip"
    ∈ MeasureBlock.s3_key <$>
      t_measure_block
        (database
           (write_measure_s3_backups Example.store_late Plane.compute_hash
              Plane.zip_deflate Plane.csv_excel Example.utcnow 2
              "CellMeasure" "cell_measure.csv" CellMeasure_model true
              Example.planned_pair).1).
Proof.
  destruct (write_measure_s3_backups_commits Example.store_late
              Plane.compute_hash Plane.zip_deflate Plane.csv_excel
              Example.utcnow 2 "CellMeasure" "cell_measure.csv"
              CellMeasure_model true Example.planned_pair
              [Example.planned_block] Example.second_block)
    as [Hdb Hin].
  - split; reflexivity.
  - apply (bool_decide_unpack _). vm_compute. exact I.
  - reflexivity.
  - reflexivity.
  - split; [exact Hdb|]. apply list_elem_of_fmap. eexists. split.
    2:{ apply (Hin Example.planned_block). left. }
    reflexivity.
Defined.

(** Without a measurement the planner raises. *)
Lemma schedule_measure_archival_empty_table_witness :
  schedule_measure_archival 10 5 2 CellMeasure_model (Example.measured 0)
  = Some (Raise TypeError).
Proof.
  apply (schedule_measure_archival_empty_table 10 5 2 CellMeasure_model
           (Example.measured 0)).
  reflexivity.
Defined.

(** With five measures and a block size of zero the planner is still
    running after seven turns. *)
Lemma schedule_measure_archival_zero_batch_loops_witness :
  schedule_measure_archival 0 7 2 CellMeasure_model (Example.measured 5)
  = None.
Proof.
  apply (schedule_measure_archival_zero_batch_loops 0 2 CellMeasure_model
           (Example.measured 5)).
  - reflexivity.
  - discriminate.
  - intros e He. vm_compute in He. by apply elem_of_nil in He.
Defined.

(** With 25 measures and blocks of 10 ids, the second run of the
    planner finds five ids left and makes no block. *)
Lemma schedule_measure_archival_second_run_witness :
  ∃ w',
    schedule_measure_archival 10 5 2 CellMeasure_model (Example.measured 25)
    = Some (Ok (w', [(1, 10); (11, 20)]))
    ∧ schedule_measure_archival 10 5 2 CellMeasure_model w'
      = Some (Ok (w', [])).
Proof.
  destruct (schedule_measure_archival_second_run 10 2 CellMeasure_model
              (Example.measured 25) 25 1) with (fuel := 5%nat)
    as (w' & Hfirst & Hsecond).
  - split; reflexivity.
  - lia.
  - apply (bool_decide_unpack _). vm_compute. exact I.
  - apply Forall_forall. apply (bool_decide_unpack _). vm_compute. exact I.
  - rewrite decide_True by reflexivity. split.
    + apply (bool_decide_unpack _). vm_compute. exact I.
    + apply Forall_forall. apply (bool_decide_unpack _). vm_compute. exact I.
  - vm_compute. lia.
  - exists w'. split; [exact Hfirst|apply Hsecond].
Defined.

(** The reaper run twice on the uploaded block of the example: the
    second run selects the block again and deletes nothing. *)
Lemma delete_measure_records_twice_witness :
  blocks_to_reap 2
    (session (delete_measure_records Plane.check_archive CellMeasure_model
                2 true Example.uploaded))
  = blocks_to_reap 2 (session Example.uploaded)
  ∧ t_cell_measure
      (session (delete_measure_records Plane.check_archive CellMeasure_model
                  2 true
                  (delete_measure_records Plane.check_archive
                     CellMeasure_model 2 true Example.uploaded)))
    = t_cell_measure
        (session (delete_measure_records Plane.check_archive
                    CellMeasure_model 2 true Example.uploaded))
  ∧ t_measure_block
      (session (delete_measure_records Plane.check_archive CellMeasure_model
                  2 true
                  (delete_measure_records Plane.check_archive
                     CellMeasure_model 2 true Example.uploaded)))
    = t_measure_block (session Example.uploaded).
Proof.
  apply (delete_measure_records_twice Plane.check_archive CellMeasure_model
           2 true Example.uploaded).
  split; reflexivity.
Defined.

(** The writer and then the reaper on the planned block of the
    example: the measures 11 and 12 are left. *)
Lemma write_then_delete_measure_records_witness :
  Measure.id <$>
  t_cell_measure
    (session
       (delete_measure_records Plane.check_archive CellMeasure_model 2 true
          (write_measure_s3_backups Plane.backup_archive Plane.compute_hash
             Plane.zip_deflate Plane.csv_excel Example.utcnow 2
             "CellMeasure" "cell_measure.csv" CellMeasure_model true
             Example.planned).1))
  = [11; 12].
Proof.
  change (t_cell_measure ?d) with (measures_of CellMeasure_model d).
  rewrite (write_then_delete_measure_records Plane.backup_archive
             Plane.check_archive Plane.compute_hash Plane.zip_deflate
             Plane.csv_excel Example.utcnow 2 "CellMeasure"
             "cell_measure.csv" CellMeasure_model true Example.planned).
  - reflexivity.
  - split; reflexivity.
  - apply (bool_decide_unpack _). vm_compute. exact I.
  - intros b _. reflexivity.
Defined.

(** The network of the example has five old measures and may keep two:
    the turn of the trimmer deletes at most three and leaves the
    rest. *)
Lemma trim_unique_keeps_witness :
  match trim_unique Wifi_model WifiMeasure_model
          (λ u m, bool_decide (Measure.key m = Station.key u))
          "deleted_wifi" 2 (Example.utcnow - timedelta_days 7)
          (Example.network, 5) (session Example.networks, 0) with
  | Ok (d', n) =>
    0 ≤ n ≤ 5 - 2
    ∧ len (old_window (λ u m, bool_decide (Measure.key m = Station.key u))
             (Example.utcnow - timedelta_days 7) Example.network
             (t_wifi_measure d'))
      = 5 - n
  | Raise _ => False
  end.
Proof.
  destruct (trim_unique Wifi_model WifiMeasure_model
              (λ u m, bool_decide (Measure.key m = Station.key u))
              "deleted_wifi" 2 (Example.utcnow - timedelta_days 7)
              (Example.network, 5) (session Example.networks, 0))
    as [[d' n]|e] eqn:Hturn; [|discriminate Hturn].
  apply (trim_unique_keeps Wifi_model WifiMeasure_model
           (λ u m, bool_decide (Measure.key m = Station.key u))
           "deleted_wifi" 2 (Example.utcnow - timedelta_days 7)
           Example.network 5 (session Example.networks) 0 d' n);
    [split; reflexivity | reflexivity | lia | exact Hturn].
Defined.

(** A run of the trimmer on the networks of the example: the counter
    of deleted measures grows by the rows removed. *)
Lemma trim_excessive_data_counts_witness :
  match trim_excessive_data Example.utcnow Wifi_model WifiMeasure_model
          (λ u m, bool_decide (Measure.key m = Station.key u))
          "deleted_wifi" 2 7 10 Example.networks with
  | Ok (w', n) =>
    default 0 (t_stat (session w') !! "deleted_wifi")
    = default 0 (t_stat (session Example.networks) !! "deleted_wifi")
      + (len (t_wifi_measure (session Example.networks))
         - len (t_wifi_measure (session w')))
    ∧ 0 ≤ n ≤ len (t_wifi_measure (session Example.networks))
              - len (t_wifi_measure (session w'))
    ∧ (w' = Example.networks ∨ database w' = session w')
  | Raise _ => False
  end.
Proof.
  destruct (trim_excessive_data Example.utcnow Wifi_model WifiMeasure_model
              (λ u m, bool_decide (Measure.key m = Station.key u))
              "deleted_wifi" 2 7 10 Example.networks)
    as [[w' n]|e] eqn:Hrun; [|discriminate Hrun].
  apply (trim_excessive_data_counts Example.utcnow Wifi_model
           WifiMeasure_model
           (λ u m, bool_decide (Measure.key m = Station.key u))
           "deleted_wifi" 2 7 10 Example.networks w' n);
    [split; reflexivity | split; reflexivity | exact Hrun].
Defined.

(** The wifi updater on the network of the example: one wifi is
    selected, the run commits and writes no measurement. *)
Lemma wifi_location_update_result_witness :
  match wifi_location_update Plane.to_degrees Plane.distance
          Plane.range_to_points Example.utcnow 1 100 10
          Example.networks with
  | Ok (w', Counts n m) =>
    t_wifi_measure (session w') = t_wifi_measure (session Example.networks)
    ∧ Station.id <$> t_wifi (session w') = [1]
    ∧ 1 ≤ n ≤ 10 ∧ 0 ≤ m ≤ n
    ∧ database w' = session w'
  | _ => False
  end.
Proof.
  destruct (wifi_location_update Plane.to_degrees Plane.distance
              Plane.range_to_points Example.utcnow 1 100 10
              Example.networks) as [[w' r]|e] eqn:Hrun;
    [|discriminate Hrun].
  destruct (wifi_location_update_result Plane.to_degrees Plane.distance
              Plane.range_to_points Example.utcnow 1 100 10
              Example.networks w' r Hrun) as (Hrows & Hids & Hr).
  destruct r as [|n m].
  - destruct Hr as [Hnone _]. discriminate Hnone.
  - destruct Hr as (_ & Hn & Hm & Hdb). done.
Defined.

(** The cell updater on the two cells of the example: both are
    selected, the run commits and writes no measurement. *)
Lemma cell_location_update_result_witness :
  match cell_location_update Plane.to_degrees Plane.distance
          Plane.range_to_points Plane.CELLID_LAC 1 100 10
          Example.stations with
  | Ok (w', Counts n m) =>
    t_cell_measure (session w') = t_cell_measure (session Example.stations)
    ∧ (∃ added, Station.id <$> t_cell (session w') = [1; 2] ++ added)
    ∧ 1 ≤ n ≤ 10 ∧ 0 ≤ m ≤ n
    ∧ database w' = session w'
  | _ => False
  end.
Proof.
  destruct (cell_location_update Plane.to_degrees Plane.distance
              Plane.range_to_points Plane.CELLID_LAC 1 100 10
              Example.stations) as [[w' r]|e] eqn:Hrun;
    [|discriminate Hrun].
  destruct (cell_location_update_result Plane.to_degrees Plane.distance
              Plane.range_to_points Plane.CELLID_LAC 1 100 10
              Example.stations w' r Hrun) as (Hrows & Hids & Hr).
  destruct r as [|n m].
  - destruct Hr as [Hnone _]. discriminate Hnone.
  - destruct Hr as (_ & Hn & Hm & Hdb). done.
Defined.

(** An empty batch makes the aggregator divide by zero. *)
Lemma calculate_new_position_raises_witness :
  calculate_new_position Plane.to_degrees Plane.distance
    Plane.range_to_points Example.cell_a [] ∅ CELL_MAX_DIST_KM true
  = Raise ZeroDivisionError.
Proof.
  apply (calculate_new_position_raises Plane.to_degrees Plane.distance
           Plane.range_to_points Example.cell_a [] ∅ CELL_MAX_DIST_KM true).
  reflexivity.
Defined.

(** The area 9 of the example has no cell: [update_lac] raises on the
    empty [min]. *)
Lemma update_lac_raises_witness :
  update_lac Plane.to_degrees Plane.from_degrees Plane.centroid
    Plane.range_to_points Plane.CELLID_LAC Plane.int_round
    0 262 2 9 Example.stations
  = Raise ValueError.
Proof.
  apply (update_lac_raises Plane.to_degrees Plane.from_degrees
           Plane.centroid Plane.range_to_points Plane.CELLID_LAC
           Plane.int_round 0 262 2 9 Example.stations).
  reflexivity.
Defined.
